(** * EdgeChain / Msingi ESP32-S3 firmware: enrollment, radio transport and
      telemetry protocol

    A shallow embedding of [src/firmware/esp32-msingi]: the RYLR896 AT-command
    driver ([lora_comm.cpp]), the ATECC608B wrapper ([secure_element.cpp]),
    the BRACE enrollment client ([brace_client.cpp]) and the control loop
    ([main.cpp]), followed by the properties of the protocol layer.

    Conventions.
    - [uint8_t] values are [Z] in [0, 256); [uint32_t] and [size_t] are [Z]
      with the wrap-around modulo [2^32] written out; array indices and
      [sizeof] results are [nat].
    - [char] buffers are [list ascii]; a [char*] is the memory from the
      address it points at onwards.
    - [float] values are carried as their IEEE-754 binary32 bit pattern;
      the firmware only copies them.
    - Objects are records; methods thread the object (or the whole device)
      through a state monad whose failure case stands for a read of memory
      that was never written. *)

From Stdlib Require Import ZArith Ascii String DecimalString Bool Lia List.
From Stdlib Require DecimalNat DecimalFacts.
Import ListNotations.

Set Implicit Arguments.

(** ** State monad with undefined behaviour *)

Definition M (S A : Type) : Type := S -> option (A * S).

Definition ret {S A} (a : A) : M S A := fun s => Some (a, s).

Definition bind {S A B} (m : M S A) (k : A -> M S B) : M S B :=
  fun s => match m s with
           | Some (a, s') => k a s'
           | None => None
           end.

Definition get {S} : M S S := fun s => Some (s, s).
Definition gets {S A} (f : S -> A) : M S A := fun s => Some (f s, s).
Definition put {S} (s : S) : M S unit := fun _ => Some (tt, s).
Definition modify {S} (f : S -> S) : M S unit := fun s => Some (tt, f s).
Definition undefined {S A} : M S A := fun _ => None.

(** Run a method of a member object inside the enclosing object. *)
Definition zoom {S T A} (proj : S -> T) (inj : T -> S -> S) (m : M T A) : M S A :=
  fun s => match m (proj s) with
           | Some (a, t') => Some (a, inj t' s)
           | None => None
           end.

Declare Scope monad_scope.
Delimit Scope monad_scope with monad.
Notation "x <- m ;; k" := (bind m (fun x => k))
  (at level 61, m at next level, right associativity) : monad_scope.
Notation "m ;; k" := (bind m (fun _ => k))
  (at level 61, right associativity) : monad_scope.
Notation "' pat <- m ;; k" := (bind m (fun x => match x with pat => k end))
  (at level 61, pat pattern, m at next level, right associativity) : monad_scope.
Open Scope monad_scope.

(** ** Arrays *)

(** [memcpy (dst + off, src, n)] on arrays held as lists. *)
Definition memcpy {A} (dst : list A) (off : nat) (src : list A) (n : nat) : list A :=
  firstn off dst ++ firstn n src ++ skipn (off + n) dst.

(** [memset (dst + off, v, n)]. *)
Definition memset {A} (dst : list A) (off : nat) (v : A) (n : nat) : list A :=
  memcpy dst off (repeat v n) n.

(** [a[i] = v]; the firmware only stores inside the array. *)
Definition store {A} (a : list A) (i : nat) (v : A) : list A :=
  firstn i a ++ v :: skipn (S i) a.

(** ** The C library routines the driver calls (newlib on the ESP32) *)

Module Libc.

Local Open Scope Z_scope.

Definition NUL : ascii := Ascii.zero.

Definition code (c : ascii) : Z := Z.of_N (N_of_ascii c).

Definition chars (s : string) : list ascii := list_ascii_of_string s.

Definition isspace (c : ascii) : bool :=
  (code c =? 32) || ((9 <=? code c) && (code c <=? 13)).

(** Value of a character as a digit, letters counting from ten. *)
Definition digit_of (c : ascii) : option Z :=
  let n := code c in
  if (48 <=? n) && (n <=? 57) then Some (n - 48)
  else if (65 <=? n) && (n <=? 90) then Some (n - 65 + 10)
  else if (97 <=? n) && (n <=? 122) then Some (n - 97 + 10)
  else None.

Fixpoint skip_space (s : list ascii) : list ascii :=
  match s with
  | c :: s' => if isspace c then skip_space s' else s
  | [] => []
  end.

Definition take_sign (s : list ascii) : bool * list ascii :=
  match s with
  | c :: s' =>
      if Ascii.eqb c "-" then (true, s')
      else if Ascii.eqb c "+" then (false, s')
      else (false, s)
  | [] => (false, s)
  end.

Definition skip_0x (s : list ascii) : list ascii :=
  match s with
  | z :: x :: s' =>
      if Ascii.eqb z "0" && (Ascii.eqb x "x" || Ascii.eqb x "X") then s' else s
  | _ => s
  end.

Fixpoint digits (base acc : Z) (s : list ascii) : Z :=
  match s with
  | c :: s' =>
      match digit_of c with
      | Some d => if d <? base then digits base (acc * base + d) s' else acc
      | None => acc
      end
  | [] => acc
  end.

Definition LONG_MAX : Z := 2147483647.
Definition LONG_MIN : Z := -2147483648.

(** [strtol (s, NULL, base)] for base 10 or 16: white space, sign, an
    optional [0x] in base 16, digits up to the first character that is not
    one; out-of-range values saturate.  The terminating NUL is no digit, so
    the scan never passes it. *)
Definition strtol (s : list ascii) (base : Z) : Z :=
  let (neg, s1) := take_sign (skip_space s) in
  let s2 := if base =? 16 then skip_0x s1 else s1 in
  let acc := digits base 0 s2 in
  Z.max LONG_MIN (Z.min LONG_MAX (if neg then - acc else acc)).

Definition atoi (s : list ascii) : Z := strtol s 10.

(** [strncmp (s, lit, n) == 0] for a literal of [n] characters without NUL. *)
Fixpoint strncmp_eq (s lit : list ascii) : bool :=
  match lit, s with
  | [], _ => true
  | l :: lit', c :: s' => Ascii.eqb c l && strncmp_eq s' lit'
  | _ :: _, [] => false
  end.

(** The string a [char*] designates: the characters before the first NUL. *)
Fixpoint cstr (s : list ascii) : list ascii :=
  match s with
  | c :: s' => if Ascii.eqb c NUL then [] else c :: cstr s'
  | [] => []
  end.

Fixpoint prefix_eq (lit s : list ascii) : bool :=
  match lit, s with
  | [], _ => true
  | l :: lit', c :: s' => Ascii.eqb c l && prefix_eq lit' s'
  | _ :: _, [] => false
  end.

(** [strstr (s, lit) != NULL]. *)
Fixpoint strstr_in (s lit : list ascii) : bool :=
  prefix_eq lit s ||
  match s with
  | _ :: s' => strstr_in s' lit
  | [] => false
  end.

Definition strstr (s lit : list ascii) : bool := strstr_in (cstr s) lit.

(** [strtok] with the single delimiter [","].  The argument is the memory
    from the scan pointer on.  The result is the token pointer (the token's
    characters, the NUL that now ends it, and whatever followed) and the
    saved pointer for the next call; [None] is the NULL return. *)
Fixpoint skip_delim (s : list ascii) : list ascii :=
  match s with
  | c :: s' => if Ascii.eqb c "," then skip_delim s' else s
  | [] => []
  end.

Fixpoint span_token (s : list ascii) : list ascii * list ascii :=
  match s with
  | c :: s' =>
      if Ascii.eqb c "," || Ascii.eqb c NUL then ([], s)
      else let (tok, rest) := span_token s' in (c :: tok, rest)
  | [] => ([], [])
  end.

Definition strtok (s : list ascii) : option (list ascii * list ascii) :=
  match skip_delim s with
  | [] => None
  | (c :: _) as start =>
      if Ascii.eqb c NUL then None
      else
        let (tok, rest) := span_token start in
        match rest with
        | [] => Some (tok, [])
        | d :: after =>
            if Ascii.eqb d NUL then Some (tok ++ NUL :: after, rest)
            else Some (tok ++ NUL :: after, after)
        end
  end.

End Libc.

(** ** HardwareSerial: the UART towards the radio module *)

Module HardwareSerial.

(** [rx] holds the characters that reach the port before the deadline of
    the read in progress.  [peer] is the radio module: its answers to the
    command lines still to come, each arriving once its command is written
    (an empty answer is a module that stays silent until the timeout). *)
Record t := mk {
  rx : list ascii;
  tx : list (list ascii);          (* lines written so far, oldest first *)
  peer : list (list ascii)
}.

Definition set_rx (q : list ascii) (u : t) : t := mk q (tx u) (peer u).

Definition available (u : t) : bool :=
  match rx u with [] => false | _ :: _ => true end.

Definition println (cmd : list ascii) : M t unit :=
  modify (fun u => mk (rx u ++ hd [] (peer u)) (tx u ++ [cmd]) (tl (peer u))).

(** Drain the receive queue: [while (available()) read();]. *)
Definition drain : M t unit := modify (set_rx []).

End HardwareSerial.

(** ** LoRaComm: the RYLR896 driver (lora_comm.cpp) *)

Module LoRaComm.

Import Libc.

Record t := mk {
  _serial : HardwareSerial.t;
  _rssi : Z;
  _snr : Z
}.

Definition set_serial (u : HardwareSerial.t) (l : t) : t := mk u (_rssi l) (_snr l).
Definition set_rssi (v : Z) (l : t) : t := mk (_serial l) v (_snr l).
Definition set_snr (v : Z) (l : t) : t := mk (_serial l) (_rssi l) v.

Definition serial {A} (m : M HardwareSerial.t A) : M t A := zoom _serial set_serial m.

Definition available : M t bool := gets (fun l => HardwareSerial.available (_serial l)).

(** The read loops of [receive] and [waitForResponse].  The queue holds the
    characters that arrive before the deadline; the loop takes them one by
    one and stops after a line feed, when [room] characters are taken, or
    when the deadline passes with the queue empty. *)
Fixpoint read_line (room : nat) (q : list ascii) : list ascii * list ascii :=
  match room, q with
  | S room', c :: q' =>
      if Ascii.eqb c "010" then ([c], q')
      else let (line, rest) := read_line room' q' in (c :: line, rest)
  | _, _ => ([], q)
  end.

Definition to_size_t (z : Z) : Z := z mod 2 ^ 32.
Definition to_uint8 (z : Z) : Z := z mod 256.

(** The conversion loop of [receive]:
    [for (i = 0; i < dataLen && outLen < maxLen; i += 2)], with
    [room = maxLen - outLen].  A [token[i]] outside the characters that were
    written to [rawResponse] is an undefined read. *)
Fixpoint hex_loop (room : nat) (token : list ascii) (dataLen : Z)
         (i outLen : nat) (buffer : list Z) : option (list Z * nat) :=
  match room with
  | O => Some (buffer, outLen)
  | S room' =>
      if (Z.of_nat i <? dataLen)%Z then
        match nth_error token i, nth_error token (i + 1) with
        | Some a, Some b =>
            let hex := [a; b; NUL] in
            hex_loop room' token dataLen (i + 2) (S outLen)
                     (store buffer outLen (to_uint8 (strtol hex 16)))
        | _, _ => None
        end
      else Some (buffer, outLen)
  end.

(** [size_t LoRaComm::receive(uint8_t* buffer, size_t maxLen)]; the result
    carries the caller's buffer after the call. *)
Definition receive (buffer : list Z) (maxLen : nat) : M t (nat * list Z) :=
  avail <- available ;;
  if negb avail then ret (0, buffer) else
  q <- gets (fun l => HardwareSerial.rx (_serial l)) ;;
  let (line, rest) := read_line 511 q in
  serial (modify (HardwareSerial.set_rx rest)) ;;
  let rawResponse := line ++ [NUL] in
  if negb (strncmp_eq rawResponse (chars "+RCV=")) then ret (0, buffer) else
  match strtok (skipn 5 rawResponse) with
  | None => ret (0, buffer)
  | Some (_, save) =>
  match strtok save with
  | None => ret (0, buffer)
  | Some (token, save) =>
  let dataLen := to_size_t (atoi token) in
  match strtok save with
  | None => ret (0, buffer)
  | Some (token, save) =>
  match hex_loop maxLen token dataLen 0 0 buffer with
  | None => undefined
  | Some (buffer', outLen) =>
      let r := strtok save in
      match r with
      | Some (token, _) => modify (set_rssi (atoi token))
      | None => ret tt
      end ;;
      match r with
      | Some (_, save) =>
          match strtok save with
          | Some (token, _) => modify (set_snr (atoi token))
          | None => ret tt
          end
      | None => ret tt
      end ;;
      ret (outLen, buffer')
  end end end end.


(** [bool LoRaComm::waitForResponse(char* response, size_t maxLen, timeout)]
    with a non-null [response]: every character up to the line feed is
    taken from the port, the first [maxLen - 1] of them are kept. *)
Definition waitForResponse (maxLen : nat) : M t (bool * list ascii) :=
  q <- gets (fun l => HardwareSerial.rx (_serial l)) ;;
  let (line, rest) := read_line (length q) q in
  serial (modify (HardwareSerial.set_rx rest)) ;;
  let kept := firstn (maxLen - 1) line in
  ret (negb (Nat.eqb (length kept) 0), kept ++ [NUL]).

Definition sendCommand (cmd : list ascii) (maxResponse : nat) : M t (bool * list ascii) :=
  serial HardwareSerial.drain ;;
  serial (HardwareSerial.println cmd) ;;
  waitForResponse maxResponse.

Definition hex_digit (n : Z) : ascii :=
  nth (Z.to_nat n) (chars "0123456789ABCDEF") "0"%char.

(** [sprintf (&hexData[i * 2], "%02X", data[i])]. *)
Definition hex_byte (b : Z) : list ascii :=
  [hex_digit (b / 16); hex_digit (b mod 16)]%Z.

(** [%zu]. *)
Definition decimal (n : nat) : list ascii :=
  chars (NilEmpty.string_of_uint (Nat.to_uint n)).

(** [bool LoRaComm::transmit(const uint8_t* data, size_t length)], [length]
    being the number of bytes of [data]. *)
Definition transmit (data : list Z) : M t bool :=
  if Nat.ltb 240 (length data) then ret false else
  let hexData := flat_map hex_byte data in
  let cmd := firstn 559 (chars "AT+SEND=1," ++ decimal (length data * 2)
                           ++ chars "," ++ hexData) in
  '(ok, response) <- sendCommand cmd 64 ;;
  if negb ok then ret false else ret (strstr response (chars "+OK")).

End LoRaComm.

(** ** The cryptographic primitives of the ATECC608B *)

(** What the chip computes is outside the firmware: the digest, the keyed
    MAC and the signature under the device key in slot 0 are taken as they
    come, with the sizes of the driver's result buffers. *)
Class Primitives := {
  SHA256 : list Z -> list Z;
  MAC : list Z -> list Z;
  ECDSA : list Z -> list Z;
  SHA256_length : forall m, length (SHA256 m) = 32;
  MAC_length : forall m, length (MAC m) = 32;
  ECDSA_length : forall h, length (ECDSA h) = 64
}.

(** ** ATECCX08A: the SparkFun driver instance [atecc] *)

Module ATECCX08A.

Record t := mk {
  publicKey64Bytes : list Z;
  signature : list Z;
  macBuffer : list Z;
  randomNumber : list Z;
  sha_absorbed : list Z;           (* message fed to the SHA engine since sha256Start *)
  slot_key : Z -> option (list Z); (* public key of the private key a slot holds *)
  bus : list bool;                 (* outcome of the commands to come; none left: success *)
  entropy : list (list Z)          (* 32-byte outputs of the random generator to come *)
}.

Definition set_bus b (a : t) :=
  mk (publicKey64Bytes a) (signature a) (macBuffer a) (randomNumber a)
     (sha_absorbed a) (slot_key a) b (entropy a).
Definition set_publicKey64Bytes v (a : t) :=
  mk v (signature a) (macBuffer a) (randomNumber a)
     (sha_absorbed a) (slot_key a) (bus a) (entropy a).
Definition set_signature v (a : t) :=
  mk (publicKey64Bytes a) v (macBuffer a) (randomNumber a)
     (sha_absorbed a) (slot_key a) (bus a) (entropy a).
Definition set_macBuffer v (a : t) :=
  mk (publicKey64Bytes a) (signature a) v (randomNumber a)
     (sha_absorbed a) (slot_key a) (bus a) (entropy a).
Definition set_randomNumber v (a : t) :=
  mk (publicKey64Bytes a) (signature a) (macBuffer a) v
     (sha_absorbed a) (slot_key a) (bus a) (entropy a).
Definition set_sha_absorbed v (a : t) :=
  mk (publicKey64Bytes a) (signature a) (macBuffer a) (randomNumber a)
     v (slot_key a) (bus a) (entropy a).
Definition set_entropy v (a : t) :=
  mk (publicKey64Bytes a) (signature a) (macBuffer a) (randomNumber a)
     (sha_absorbed a) (slot_key a) (bus a) v.

(** One command on the I2C bus; the answer says whether the chip executed it. *)
Definition command : M t bool :=
  a <- get ;;
  put (set_bus (tl (bus a)) a) ;;
  ret (hd true (bus a)).

Section Driver.
Context `{Primitives}.

Definition generatePublicKey (slot : Z) : M t bool :=
  ok <- command ;;
  a <- get ;;
  match ok, slot_key a slot with
  | true, Some pk => put (set_publicKey64Bytes pk a) ;; ret true
  | _, _ => ret false
  end.

Definition createSignature (hash : list Z) : M t bool :=
  ok <- command ;;
  if ok then modify (set_signature (ECDSA hash)) ;; ret true else ret false.

Definition macData (message : list Z) : M t bool :=
  ok <- command ;;
  if ok then modify (set_macBuffer (MAC message)) ;; ret true else ret false.

Definition random : M t bool :=
  ok <- command ;;
  a <- get ;;
  match ok, entropy a with
  | true, r :: later => put (set_randomNumber r (set_entropy later a)) ;; ret true
  | _, _ => ret false
  end.

Definition sha256Start : M t bool :=
  ok <- command ;;
  if ok then modify (set_sha_absorbed []) ;; ret true else ret false.

Definition sha256Update (data : list Z) : M t bool :=
  ok <- command ;;
  if ok then modify (fun a => set_sha_absorbed (sha_absorbed a ++ data) a) ;; ret true
  else ret false.

(** On success the digest is returned for the caller's [hash] buffer. *)
Definition sha256End : M t (option (list Z)) :=
  ok <- command ;;
  if ok then a <- get ;; ret (Some (SHA256 (sha_absorbed a))) else ret None.

End Driver.

End ATECCX08A.

(** ** config.h *)

Module Config.
Definition SLOT_DEVICE_KEY : Z := 0.
Definition SLOT_BLINDING_FACTOR : Z := 1.
Definition NULLIFIER_DOMAIN : string := "msingi:nullifier:v1".
Definition COMMITMENT_DOMAIN : string := "msingi:commitment:v1".
Definition SENSOR_INTERVAL_MS : Z := 30 * 60 * 1000.
End Config.

(** The bytes of a string literal, as [memcpy] reads them. *)
Definition bytes_of (s : string) : list Z := map Libc.code (Libc.chars s).

(** ** SecureElement: the ATECC608B wrapper (secure_element.cpp) *)

Module SecureElement.

Import Config.

(** [atecc] is the driver instance the translation unit owns. *)
Record t := mk {
  _initialized : bool;
  atecc : ATECCX08A.t
}.

Definition set_atecc (a : ATECCX08A.t) (s : t) : t := mk (_initialized s) a.

Definition chip {A} (m : M ATECCX08A.t A) : M t A := zoom atecc set_atecc m.

Section Methods.
Context `{Primitives}.

(** [bool getPublicKey(uint8_t slot, uint8_t* publicKey)]: [Some] carries
    the 64 bytes copied to [publicKey], [None] is the [false] return. *)
Definition getPublicKey (slot : Z) : M t (option (list Z)) :=
  init <- gets _initialized ;;
  if negb init then ret None else
  ok <- chip (ATECCX08A.generatePublicKey slot) ;;
  if negb ok then ret None else
  a <- gets atecc ;;
  ret (Some (firstn 64 (ATECCX08A.publicKey64Bytes a))).

(** The chunk loop of [sha256]: [while (remaining > 64)], at most one turn
    per byte of [ptr]; the result is the part left for the final chunk. *)
Fixpoint sha256_chunks (turns : nat) (ptr : list Z) : M ATECCX08A.t (option (list Z)) :=
  if Nat.ltb 64 (length ptr) then
    match turns with
    | O => ret None
    | S turns' =>
        ok <- ATECCX08A.sha256Update (firstn 64 ptr) ;;
        if negb ok then ret None else sha256_chunks turns' (skipn 64 ptr)
    end
  else ret (Some ptr).

(** [bool sha256(const uint8_t* data, size_t dataLen, uint8_t* hash)]. *)
Definition sha256 (data : list Z) : M t (option (list Z)) :=
  init <- gets _initialized ;;
  if negb init then ret None else
  ok <- chip ATECCX08A.sha256Start ;;
  if negb ok then ret None else
  r <- chip (sha256_chunks (length data) data) ;;
  match r with
  | None => ret None
  | Some remaining =>
      ok <- (if Nat.ltb 0 (length remaining)
             then chip (ATECCX08A.sha256Update remaining) else ret true) ;;
      if negb ok then ret None else chip ATECCX08A.sha256End
  end.

(** [bool sign(const uint8_t* data, size_t dataLen, uint8_t* signature)]. *)
Definition sign (data : list Z) : M t (option (list Z)) :=
  init <- gets _initialized ;;
  if negb init then ret None else
  h <- sha256 data ;;
  match h with
  | None => ret None
  | Some hash =>
      ok <- chip (ATECCX08A.createSignature hash) ;;
      if negb ok then ret None else
      a <- gets atecc ;;
      ret (Some (firstn 64 (ATECCX08A.signature a)))
  end.

Definition byte_of (z : Z) : Z := Z.land z 255.

(** [bool computeNullifier(uint32_t epoch, uint8_t* nullifier)]. *)
Definition computeNullifier (epoch : Z) : M t (option (list Z)) :=
  init <- gets _initialized ;;
  if negb init then ret None else
  let message := repeat 0%Z 64 in
  let domain := bytes_of NULLIFIER_DOMAIN in
  let domainLen := length domain in
  let message := memcpy message 0 domain domainLen in
  let message := store message (domainLen + 0) (byte_of (Z.shiftr epoch 24)) in
  let message := store message (domainLen + 1) (byte_of (Z.shiftr epoch 16)) in
  let message := store message (domainLen + 2) (byte_of (Z.shiftr epoch 8)) in
  let message := store message (domainLen + 3) (byte_of (Z.shiftr epoch 0)) in
  ok <- chip (ATECCX08A.macData (firstn (domainLen + 4) message)) ;;
  if negb ok then ret None else
  a <- gets atecc ;;
  ret (Some (firstn 32 (ATECCX08A.macBuffer a))).

(** The loop of [random]: [while (remaining > 0)], 32 bytes a turn; [done]
    is [ptr - buffer]. *)
Fixpoint random_loop (turns : nat) (buffer : list Z) (done remaining : nat)
  : M ATECCX08A.t (bool * list Z) :=
  if Nat.ltb 0 remaining then
    match turns with
    | O => ret (false, buffer)
    | S turns' =>
        ok <- ATECCX08A.random ;;
        if negb ok then ret (false, buffer) else
        a <- get ;;
        let toCopy := if Nat.ltb remaining 32 then remaining else 32 in
        random_loop turns' (memcpy buffer done (ATECCX08A.randomNumber a) toCopy)
                    (done + toCopy) (remaining - toCopy)
    end
  else ret (true, buffer).

(** [bool random(uint8_t* buffer, size_t length)]; the buffer comes back
    with what was written to it. *)
Definition random (buffer : list Z) (length : nat) : M t (bool * list Z) :=
  init <- gets _initialized ;;
  if negb init then ret (false, buffer) else
  chip (random_loop length buffer 0 length).

End Methods.

End SecureElement.

(** ** BraceClient: anonymous enrollment (brace_client.cpp) *)

Module BraceClient.

Import Config.

(** [_se] and [_lora] only ever point at the two global driver objects;
    the fields record whether they are set. *)
Record t := mk {
  _se : bool;
  _lora : bool;
  _registered : bool;
  _commitment : list Z;
  _blindingFactor : list Z
}.

(** The client together with the objects its pointers designate. *)
Record heap := Heap {
  self : t;
  se : SecureElement.t;
  lora : LoRaComm.t
}.

Definition set_self (c : t) (h : heap) : heap := Heap c (se h) (lora h).
Definition set_se (s : SecureElement.t) (h : heap) : heap := Heap (self h) s (lora h).
Definition set_lora (l : LoRaComm.t) (h : heap) : heap := Heap (self h) (se h) l.

Definition this {A} (m : M t A) : M heap A := zoom self set_self m.
Definition via_se {A} (m : M SecureElement.t A) : M heap A := zoom se set_se m.
Definition via_lora {A} (m : M LoRaComm.t A) : M heap A := zoom lora set_lora m.

Definition set_registered (b : bool) (c : t) : t :=
  mk (_se c) (_lora c) b (_commitment c) (_blindingFactor c).
Definition set_commitment (v : list Z) (c : t) : t :=
  mk (_se c) (_lora c) (_registered c) v (_blindingFactor c).
Definition set_blindingFactor (v : list Z) (c : t) : t :=
  mk (_se c) (_lora c) (_registered c) (_commitment c) v.

Section Methods.
Context `{Primitives}.

Definition generateBlindingFactor : M heap bool :=
  r <- gets (fun h => _blindingFactor (self h)) ;;
  '(ok, r') <- via_se (SecureElement.random r 32) ;;
  this (modify (set_blindingFactor r')) ;;
  ret ok.

Definition computeCommitment : M heap bool :=
  pk <- via_se (SecureElement.getPublicKey SLOT_DEVICE_KEY) ;;
  match pk with
  | None => ret false
  | Some publicKey =>
      let preimage := repeat 0%Z 128 in
      let domain := bytes_of COMMITMENT_DOMAIN in
      let preimage := memset preimage 0 0%Z 32 in
      let preimage := memcpy preimage 0 domain (length domain) in
      let preimage := memcpy preimage 32 publicKey 64 in
      r <- gets (fun h => _blindingFactor (self h)) ;;
      let preimage := memcpy preimage 96 r 32 in
      d <- via_se (SecureElement.sha256 (firstn 128 preimage)) ;;
      match d with
      | None => ret false
      | Some digest => this (modify (set_commitment digest)) ;; ret true
      end
  end.

Definition sendRegistrationRequest : M heap bool :=
  c <- gets (fun h => _commitment (self h)) ;;
  let message := repeat 0%Z 33 in
  let message := store message 0 0%Z in
  let message := memcpy message 1 c 32 in
  via_lora (LoRaComm.transmit message).

(** [void begin(SecureElement* se, LoRaComm* lora)], called with the
    addresses of the two globals. *)
Definition begin : M heap unit :=
  this (modify (fun c => mk true true false (_commitment c) (_blindingFactor c))) ;;
  testKey <- via_se (SecureElement.getPublicKey SLOT_BLINDING_FACTOR) ;;
  match testKey with
  | Some _ =>
      ok <- computeCommitment ;;
      if ok then this (modify (set_registered true)) else ret tt
  | None => ret tt
  end.

Definition isRegistered : M heap bool := gets (fun h => _registered (self h)).

Definition registerDevice : M heap bool :=
  c <- gets self ;;
  if negb (_se c) || negb (_lora c) then ret false else
  ok <- generateBlindingFactor ;;
  if negb ok then ret false else
  ok <- computeCommitment ;;
  if negb ok then ret false else
  ok <- sendRegistrationRequest ;;
  if negb ok then ret false else
  ret true.

(** [bool getCommitment(uint8_t* commitment)] with a non-null argument;
    the caller's array comes back with the result. *)
Definition getCommitment (commitment : list Z) : M heap (bool * list Z) :=
  c <- gets self ;;
  if negb (_registered c) then ret (false, commitment) else
  ret (true, memcpy commitment 0 (_commitment c) 32).

(** [bool getMerkleProof(uint8_t proof[][32], uint8_t* proofLen)]. *)
Definition getMerkleProof (proofLen : Z) : M heap (bool * Z) :=
  c <- gets self ;;
  if negb (_registered c) then ret (false, proofLen) else ret (true, 0%Z).

End Methods.

End BraceClient.

(** ** sensors.h: the records exchanged with the sensor layer *)

(** Size and placement of the members of a structure under the ESP32 ABI:
    every member at the next multiple of its alignment, the size rounded up
    to the strictest alignment. *)
Module Layout.

Inductive ctype :=
  | uint8_array (n : nat)
  | float
  | uint32_t.

Definition size_of (c : ctype) : nat :=
  match c with
  | uint8_array n => n
  | float => 4
  | uint32_t => 4
  end.

Definition align_of (c : ctype) : nat :=
  match c with
  | uint8_array _ => 1
  | float => 4
  | uint32_t => 4
  end.

Definition align_up (off a : nat) : nat := (off + a - 1) / a * a.

Fixpoint offsets_from (off : nat) (members : list ctype) : list nat :=
  match members with
  | [] => []
  | c :: rest =>
      let o := align_up off (align_of c) in
      o :: offsets_from (o + size_of c) rest
  end.

Fixpoint end_from (off : nat) (members : list ctype) : nat :=
  match members with
  | [] => off
  | c :: rest => end_from (align_up off (align_of c) + size_of c) rest
  end.

Definition sizeof (members : list ctype) : nat :=
  align_up (end_from 0 members) (fold_right Nat.max 1 (map align_of members)).

Definition offsetof (members : list ctype) (k : nat) : nat :=
  nth k (offsets_from 0 members) 0.

End Layout.

Module SensorData.
(** The [float] members hold binary32 bit patterns. *)
Record t := mk {
  temperature : Z;
  humidity : Z;
  pressure : Z;
  soilMoisture : Z;
  timestamp : Z;
  valid : bool
}.
End SensorData.

Module DataPacket.

Import Layout.

Definition members : list ctype :=
  [ uint8_array 32;   (* commitment *)
    float;            (* temperature *)
    float;            (* humidity *)
    float;            (* soilMoisture *)
    uint32_t;         (* timestamp *)
    uint8_array 32;   (* nullifier *)
    uint8_array 64 ]. (* signature *)

Definition size : nat := sizeof members.

Definition commitment : nat := offsetof members 0.
Definition temperature : nat := offsetof members 1.
Definition humidity : nat := offsetof members 2.
Definition soilMoisture : nat := offsetof members 3.
Definition timestamp : nat := offsetof members 4.
Definition nullifier : nat := offsetof members 5.
Definition signature : nat := offsetof members 6.

End DataPacket.

(** The four bytes of a 32-bit member in memory (the ESP32 is little-endian). *)
Definition word_bytes (w : Z) : list Z :=
  [w mod 256; (w / 256) mod 256; (w / 65536) mod 256; (w / 16777216) mod 256]%Z.

(** ** main.cpp: the control loop *)

Module Main.

Import Config.

(** The messages of the control loop on the console. *)
Inductive Log :=
  | ReceivedRegistrationAck
  | EpochUpdated (epoch : Z)
  | ProofConfirmationReceived
  | UnknownMessageType (msgType : Z)
  | AttemptingRegistration
  | RegistrationRequestSent (commitment8 : list Z)
  | RegistrationFailed
  | CollectingSensorData
  | SensorReadError
  | Readings (data : SensorData.t)
  | NullifierFailed
  | SigningFailed
  | Transmitting
  | DataTransmitted
  | TransmissionFailed.

(** The global objects and variables, [lastReading] of [loop] included. *)
Record Device := mk {
  secureElement : SecureElement.t;
  loraComm : LoRaComm.t;
  braceClient : BraceClient.t;
  deviceRegistered : bool;
  currentEpoch : Z;
  commitmentBytes : list Z;
  lastReading : Z;
  console : list Log
}.

Definition set_secureElement v (d : Device) :=
  mk v (loraComm d) (braceClient d) (deviceRegistered d) (currentEpoch d)
     (commitmentBytes d) (lastReading d) (console d).
Definition set_loraComm v (d : Device) :=
  mk (secureElement d) v (braceClient d) (deviceRegistered d) (currentEpoch d)
     (commitmentBytes d) (lastReading d) (console d).
Definition set_braceClient v (d : Device) :=
  mk (secureElement d) (loraComm d) v (deviceRegistered d) (currentEpoch d)
     (commitmentBytes d) (lastReading d) (console d).
Definition set_deviceRegistered v (d : Device) :=
  mk (secureElement d) (loraComm d) (braceClient d) v (currentEpoch d)
     (commitmentBytes d) (lastReading d) (console d).
Definition set_currentEpoch v (d : Device) :=
  mk (secureElement d) (loraComm d) (braceClient d) (deviceRegistered d) v
     (commitmentBytes d) (lastReading d) (console d).
Definition set_commitmentBytes v (d : Device) :=
  mk (secureElement d) (loraComm d) (braceClient d) (deviceRegistered d) (currentEpoch d)
     v (lastReading d) (console d).
Definition set_lastReading v (d : Device) :=
  mk (secureElement d) (loraComm d) (braceClient d) (deviceRegistered d) (currentEpoch d)
     (commitmentBytes d) v (console d).
Definition set_console v (d : Device) :=
  mk (secureElement d) (loraComm d) (braceClient d) (deviceRegistered d) (currentEpoch d)
     (commitmentBytes d) (lastReading d) v.

Definition via_se {A} (m : M SecureElement.t A) : M Device A :=
  zoom secureElement set_secureElement m.
Definition via_lora {A} (m : M LoRaComm.t A) : M Device A :=
  zoom loraComm set_loraComm m.
Definition via_brace {A} (m : M BraceClient.heap A) : M Device A :=
  zoom (fun d => BraceClient.Heap (braceClient d) (secureElement d) (loraComm d))
       (fun h d => set_braceClient (BraceClient.self h)
                     (set_secureElement (BraceClient.se h)
                        (set_loraComm (BraceClient.lora h) d)))
       m.

Definition println (l : Log) : M Device unit :=
  modify (fun d => set_console (console d ++ [l]) d).

(** What one turn of [loop] takes from outside the firmware. *)
Record Tick := {
  now : Z;                   (* [millis()] at the top of the turn *)
  arrived : list ascii;      (* characters the UART took in since the last turn *)
  reading : SensorData.t;    (* what [sensors.readAll] delivers *)
  stamp : Z                  (* [millis()] when the packet is filled *)
}.

Definition to_uint32 (z : Z) : Z := z mod 2 ^ 32.

Section Loop.
Context `{Primitives}.

Definition handleIncomingMessage : M Device unit :=
  let buffer := repeat 0%Z 256 in
  '(len, buffer) <- via_lora (LoRaComm.receive buffer 256) ;;
  if Nat.ltb 0 len then
    let msgType := nth 0 buffer 0%Z in
    if (msgType =? 1)%Z then
      println ReceivedRegistrationAck ;;
      modify (set_deviceRegistered true)
    else if (msgType =? 2)%Z then
      if Nat.leb 5 len then
        let epoch :=
          to_uint32 (Z.lor (Z.lor (Z.lor (Z.shiftl (nth 1 buffer 0%Z) 24)
                                         (Z.shiftl (nth 2 buffer 0%Z) 16))
                                  (Z.shiftl (nth 3 buffer 0%Z) 8))
                           (nth 4 buffer 0%Z)) in
        modify (set_currentEpoch epoch) ;;
        println (EpochUpdated epoch)
      else ret tt
    else if (msgType =? 3)%Z then
      println ProofConfirmationReceived
    else
      println (UnknownMessageType msgType)
  else ret tt.

Definition attemptRegistration : M Device unit :=
  println AttemptingRegistration ;;
  ok <- via_brace BraceClient.registerDevice ;;
  if ok then
    c <- gets commitmentBytes ;;
    '(_, c') <- via_brace (BraceClient.getCommitment c) ;;
    modify (set_commitmentBytes c') ;;
    println (RegistrationRequestSent (firstn 8 c'))
  else
    println RegistrationFailed.

Definition collectAndTransmitData (e : Tick) : M Device unit :=
  println CollectingSensorData ;;
  let data := reading e in
  (if negb (SensorData.valid data) then println SensorReadError else ret tt) ;;
  println (Readings data) ;;
  epoch <- gets currentEpoch ;;
  n <- via_se (SecureElement.computeNullifier epoch) ;;
  match n with
  | None => println NullifierFailed
  | Some nullifier =>
      c <- gets commitmentBytes ;;
      let packet := repeat 0%Z DataPacket.size in
      let packet := memcpy packet DataPacket.commitment c 32 in
      let packet := memcpy packet DataPacket.temperature
                           (word_bytes (SensorData.temperature data)) 4 in
      let packet := memcpy packet DataPacket.humidity
                           (word_bytes (SensorData.humidity data)) 4 in
      let packet := memcpy packet DataPacket.soilMoisture
                           (word_bytes (SensorData.soilMoisture data)) 4 in
      let packet := memcpy packet DataPacket.timestamp (word_bytes (stamp e)) 4 in
      let packet := memcpy packet DataPacket.nullifier nullifier 32 in
      s <- via_se (SecureElement.sign (firstn (DataPacket.size - 64) packet)) ;;
      match s with
      | None => println SigningFailed
      | Some signature =>
          let packet := memcpy packet DataPacket.signature signature 64 in
          println Transmitting ;;
          ok <- via_lora (LoRaComm.transmit (firstn DataPacket.size packet)) ;;
          if ok then println DataTransmitted else println TransmissionFailed
      end
  end.

Definition loop (e : Tick) : M Device unit :=
  via_lora (LoRaComm.serial
    (modify (fun u => HardwareSerial.set_rx (HardwareSerial.rx u ++ arrived e) u))) ;;
  avail <- via_lora LoRaComm.available ;;
  (if avail then handleIncomingMessage else ret tt) ;;
  last <- gets lastReading ;;
  if (SENSOR_INTERVAL_MS <=? to_uint32 (now e - last))%Z || (last =? 0)%Z then
    modify (set_lastReading (now e)) ;;
    registered <- gets deviceRegistered ;;
    if negb registered then attemptRegistration else collectAndTransmitData e
  else ret tt.

(** The firmware after [setup]: one turn of [loop] per element. *)
Fixpoint run (ticks : list Tick) : M Device unit :=
  match ticks with
  | [] => ret tt
  | e :: later => loop e ;; run later
  end.

End Loop.

End Main.

(** ** Reference notions for the properties *)

Module Spec.

Import Libc.

Definition CR : ascii := "013"%char.
Definition LF : ascii := "010"%char.

(** A radio whose UART holds [q] and that answers the commands to come
    with [answers]. *)
Definition uart (q : list ascii) (answers : list (list ascii)) : HardwareSerial.t :=
  HardwareSerial.mk q [] answers.

(** Comma-separated pieces of a string without NUL. *)
Fixpoint split (s : list ascii) : list (list ascii) :=
  match s with
  | [] => [[]]
  | c :: s' =>
      if Ascii.eqb c "," then [] :: split s'
      else match split s' with
           | f :: fs => (c :: f) :: fs
           | [] => [[c]]
           end
  end.

Definition nonempty (f : list ascii) : bool :=
  match f with [] => false | _ :: _ => true end.

(** The tokens [strtok] finds in the string at a pointer when called until
    it returns NULL: the maximal runs of characters other than the comma.
    Every other character is token text, the carriage return and the line
    feed that end a line included: they belong to the last token, and after
    a trailing comma they are a token of their own. *)
Definition tokens (s : list ascii) : list (list ascii) :=
  filter nonempty (split (cstr s)).

(** The length a line announces, as [receive] takes it: [atoi] of the second
    token, converted to [size_t]. *)
Definition announced (line : list ascii) : Z :=
  LoRaComm.to_size_t (atoi (nth 1 (tokens (skipn 5 line)) [])).

(** [pad32(domainTag)]: the tag followed by zero bytes up to 32. *)
Definition pad32 (tag : list Z) : list Z := tag ++ repeat 0%Z (32 - length tag).

Definition commitment_preimage (pk r : list Z) : list Z :=
  pad32 (bytes_of Config.COMMITMENT_DOMAIN) ++ pk ++ r.

(** A radio driver with [q] pending on its UART, no signal data yet. *)
Definition radio (q : string) : LoRaComm.t :=
  LoRaComm.mk (uart (chars q) []) 0 0.

(** A 32-bit value as four bytes, most significant first. *)
Definition be32 (e : Z) : list Z :=
  [(e / 2 ^ 24) mod 256; (e / 2 ^ 16) mod 256; (e / 2 ^ 8) mod 256; e mod 256]%Z.

(** The value four big-endian bytes denote. *)
Definition of_be32 (b1 b2 b3 b4 : Z) : Z :=
  (b1 * 2 ^ 24 + b2 * 2 ^ 16 + b3 * 2 ^ 8 + b4)%Z.

Definition nullifier_message (epoch : Z) : list Z :=
  bytes_of Config.NULLIFIER_DOMAIN ++ be32 epoch.

(** The line [transmit] writes for a payload. *)
Definition send_command (payload : list Z) : list ascii :=
  chars "AT+SEND=1," ++ LoRaComm.decimal (length payload * 2) ++ chars ","
    ++ flat_map LoRaComm.hex_byte payload.


(** Whether the module's answer to a command counts as an acknowledgment:
    its first line, cut to the 63 characters the driver keeps, is not empty
    and contains [+OK]. *)
Definition acknowledged (answer : list ascii) : bool :=
  let kept := firstn 63 (fst (LoRaComm.read_line (length answer) answer)) in
  nonempty kept && strstr (kept ++ [NUL]) (chars "+OK").

Definition OK_line : list ascii := chars "+OK" ++ [CR; LF].

(** A character that belongs to a token: neither the delimiter nor NUL. *)
Definition plain (c : ascii) : bool := negb (Ascii.eqb c "," || Ascii.eqb c NUL).

(** [is_byte z]: [z] is a value of [uint8_t]. *)
Definition is_byte (z : Z) : Prop := (0 <= z < 256)%Z.

(** All set bits of [a] lie in positions [lo .. hi - 1]. *)
Definition bits_within (lo hi a : Z) : Prop :=
  forall n, Z.testbit a n = true -> (lo <= n < hi)%Z.

(** *** The secure element *)

(** No command scheduled to fail. *)
Definition healthy (a : ATECCX08A.t) : Prop :=
  Forall (fun ok => ok = true) (ATECCX08A.bus a).

(** The chip's keys and the random numbers to come are as before. *)
Definition chip_kept (a a' : ATECCX08A.t) : Prop :=
  ATECCX08A.slot_key a' = ATECCX08A.slot_key a /\
  ATECCX08A.entropy a' = ATECCX08A.entropy a.

(** A secure element that was initialised and whose chip answers. *)
Definition ready (s : SecureElement.t) : Prop :=
  SecureElement._initialized s = true /\ healthy (SecureElement.atecc s).

Definition kept (s s' : SecureElement.t) : Prop :=
  SecureElement._initialized s' = SecureElement._initialized s /\
  chip_kept (SecureElement.atecc s) (SecureElement.atecc s').

(** *** Enrollment *)

(** The preimage as [computeCommitment] assembles it. *)
Definition preimage_buffer (publicKey r : list Z) : list Z :=
  let domain := bytes_of Config.COMMITMENT_DOMAIN in
  firstn 128
    (memcpy (memcpy (memcpy (memset (repeat 0%Z 128) 0 0%Z 32) 0 domain (length domain))
                    32 publicKey 64)
            96 r 32).

(** A heap with the enrollment flag forced to [b]. *)
Definition mark (b : bool) (h : BraceClient.heap) : BraceClient.heap :=
  BraceClient.set_self (BraceClient.set_registered b (BraceClient.self h)) h.

(** *** The control loop *)

Section Loop.
Context `{Primitives}.

Import Main.

Definition log (l : Log) (d : Device) : Device := set_console (console d ++ [l]) d.

(** What [handleIncomingMessage] does with the frame [receive] returned. *)
Definition dispatch (len : nat) (buffer : list Z) (d : Device) : Device :=
  if Nat.ltb 0 len then
    let msgType := nth 0 buffer 0%Z in
    if (msgType =? 1)%Z then set_deviceRegistered true (log ReceivedRegistrationAck d)
    else if (msgType =? 2)%Z then
      if Nat.leb 5 len then
        let epoch :=
          to_uint32 (Z.lor (Z.lor (Z.lor (Z.shiftl (nth 1 buffer 0%Z) 24)
                                         (Z.shiftl (nth 2 buffer 0%Z) 16))
                                  (Z.shiftl (nth 3 buffer 0%Z) 8))
                           (nth 4 buffer 0%Z)) in
        log (EpochUpdated epoch) (set_currentEpoch epoch d)
      else d
    else if (msgType =? 3)%Z then log ProofConfirmationReceived d
    else log (UnknownMessageType msgType) d
  else d.

(** The packet as [collectAndTransmitData] fills it before signing. *)
Definition packet_buffer (e : Tick) (c nullifier : list Z) : list Z :=
  let data := reading e in
  let packet := repeat 0%Z DataPacket.size in
  let packet := memcpy packet DataPacket.commitment c 32 in
  let packet := memcpy packet DataPacket.temperature
                       (word_bytes (SensorData.temperature data)) 4 in
  let packet := memcpy packet DataPacket.humidity
                       (word_bytes (SensorData.humidity data)) 4 in
  let packet := memcpy packet DataPacket.soilMoisture
                       (word_bytes (SensorData.soilMoisture data)) 4 in
  let packet := memcpy packet DataPacket.timestamp (word_bytes (stamp e)) 4 in
  memcpy packet DataPacket.nullifier nullifier 32.

(** The signed region in the field order of the record. *)
Definition signed_fields (e : Tick) (c nullifier : list Z) : list Z :=
  c ++ word_bytes (SensorData.temperature (reading e))
    ++ word_bytes (SensorData.humidity (reading e))
    ++ word_bytes (SensorData.soilMoisture (reading e))
    ++ word_bytes (stamp e) ++ nullifier.

(** The console lines of a cycle up to the nullifier. *)
Definition cycle_head (e : Tick) : list Log :=
  CollectingSensorData
    :: (if SensorData.valid (reading e) then [] else [SensorReadError])
    ++ [Readings (reading e)].

(** The lines written to the radio so far. *)
Definition sent (d : Device) : list (list ascii) :=
  HardwareSerial.tx (LoRaComm._serial (loraComm d)).

(** The device once the characters of the turn have reached the UART. *)
Definition arrive (e : Tick) (d : Device) : Device :=
  set_loraComm
    (LoRaComm.set_serial
       (HardwareSerial.set_rx
          (HardwareSerial.rx (LoRaComm._serial (loraComm d)) ++ arrived e)
          (LoRaComm._serial (loraComm d)))
       (loraComm d)) d.

Definition pending (d : Device) : bool :=
  HardwareSerial.available (LoRaComm._serial (loraComm d)).

(** [now - lastReading >= SENSOR_INTERVAL_MS || lastReading == 0]. *)
Definition due (e : Tick) (d : Device) : bool :=
  (Config.SENSOR_INTERVAL_MS <=? to_uint32 (now e - lastReading d))%Z
  || (lastReading d =? 0)%Z.

(** The second half of [loop]: the scheduled cycle and its choice. *)
Definition scheduled_cycle (e : Tick) : M Device unit :=
  fun d =>
    if due e d then
      (if negb (deviceRegistered d) then attemptRegistration
       else collectAndTransmitData e) (set_lastReading (now e) d)
    else Some (tt, d).

(** The heap the enrollment client works on. *)
Definition heap_of (d : Device) : BraceClient.heap :=
  BraceClient.Heap (braceClient d) (secureElement d) (loraComm d).

End Loop.

End Spec.

(** ** A bench device *)

(** Concrete objects on which the properties are exercised: a stand-in for
    the chip's primitives (checksums of the right sizes), a provisioned
    chip, a radio module that acknowledges, and a sensor reading of
    21.3 degrees, 55 % humidity and 40 % soil moisture. *)
Module Bench.

Import Libc Spec.

Local Open Scope Z_scope.

Definition checksum (m : list Z) : Z :=
  fold_left (fun a b => (31 * a + b + 7) mod 256) m 0.

Definition primitives : Primitives :=
  {| SHA256 := fun m => repeat (checksum m) 32;
     MAC := fun m => repeat (checksum (1 :: m)) 32;
     ECDSA := fun h => repeat (checksum (2 :: h)) 64;
     SHA256_length := fun m => repeat_length (checksum m) 32;
     MAC_length := fun m => repeat_length (checksum (1 :: m)) 32;
     ECDSA_length := fun h => repeat_length (checksum (2 :: h)) 64 |}.

Definition public_key : list Z := map Z.of_nat (seq 1 64).
Definition fresh_random : list Z := map Z.of_nat (seq 100 32).

(** The device key sits in slot 0; no key answers for the other slots. *)
Definition chip (schedule : list bool) : ATECCX08A.t :=
  ATECCX08A.mk (repeat 0 64) (repeat 0 64) (repeat 0 32) (repeat 0 32) []
    (fun slot => if slot =? 0 then Some public_key else None)
    schedule [fresh_random].

Definition secure_element (schedule : list bool) : SecureElement.t :=
  SecureElement.mk true (chip schedule).

(** A radio with [q] pending that acknowledges the next two commands. *)
Definition lora (q : list ascii) : LoRaComm.t :=
  LoRaComm.mk (uart q [OK_line; OK_line]) 0 0.

Definition eol : list ascii := [CR; LF].

(** The client after [begin] found no blinding factor. *)
Definition fresh_client : BraceClient.t :=
  BraceClient.mk true true false (repeat 0 32) (repeat 0 32).

(** A client that [begin] found registered, with the commitment and the
    blinding factor it then held. *)
Definition registered_client : BraceClient.t :=
  BraceClient.mk true true true (repeat 7 32) (repeat 9 32).

Definition registered_heap : BraceClient.heap :=
  BraceClient.Heap registered_client (secure_element []) (lora []).

(** A client holding [fresh_random] as its blinding factor. *)
Definition blinded_heap : BraceClient.heap :=
  BraceClient.Heap (BraceClient.mk true true false (repeat 0 32) fresh_random)
                   (secure_element []) (lora []).

(** A device right after [setup], not enrolled. *)
Definition fresh_device : Main.Device :=
  Main.mk (secure_element []) (lora []) fresh_client false 0 (repeat 0 32) 0 [].

(** A device marked registered by the loop, holding [epoch]; [schedule] is
    the fate of the chip's next commands and [q] what waits on the UART. *)
Definition enrolled_device (epoch : Z) (schedule : list bool) (q : list ascii)
  : Main.Device :=
  Main.mk (secure_element schedule) (lora q) fresh_client true epoch (repeat 0 32)
          1000 [].

(** 21.3, 55.0 and 40.0 as binary32. *)
Definition reading : SensorData.t :=
  SensorData.mk 1101686374 1113325568 0 1109393408 0 true.

Definition tick (now : Z) (arrived : list ascii) : Main.Tick :=
  Main.Build_Tick now arrived reading (now + 5).

(** A device whose registration request is out and not yet acknowledged. *)
Definition awaiting_device : Main.Device :=
  Main.mk (secure_element []) (lora []) fresh_client false 0 (repeat 0 32) 1000 [].

Definition ack_frame : list ascii := chars "+RCV=1,2,01,-40,9" ++ eol.
Definition epoch_frame : list ascii := chars "+RCV=1,10,0200000003,-40,9" ++ eol.

End Bench.

(** ** The start-up path of the drivers *)

(** [LoRaComm::begin], [configure], [setNetworkId], [setAddress] and the
    getters, with [sendCommand] as they call it: without a response buffer. *)
Module LoRaSetup.

Import Libc LoRaComm.

(** The conversion loop of [printf] for [%lu] and [%d] of a value that is
    not negative: the digits of the quotient, then the last digit.  Ten
    turns hold any 32-bit value. *)
Fixpoint decimal_digits (fuel : nat) (z : Z) : list ascii :=
  match fuel with
  | O => []
  | S fuel' =>
      (if (z <? 10)%Z then [] else decimal_digits fuel' (z / 10))
        ++ [ascii_of_nat (48 + Z.to_nat (z mod 10))]
  end.

Definition decimalZ (z : Z) : list ascii := decimal_digits 10 z.

(** [bool waitForResponse(char* response, size_t maxLen, timeout)] in full:
    [None] is the null pointer, [Some maxLen] a buffer of [maxLen]
    characters.  Characters are kept while [idx < maxLen - 1], a test that
    [maxLen = 0] never fails; the buffer comes back NUL-terminated. *)
Definition waitForResponse (response : option nat)
  : M LoRaComm.t (bool * option (list ascii)) :=
  q <- gets (fun l => HardwareSerial.rx (_serial l)) ;;
  let (line, rest) := read_line (length q) q in
  serial (modify (HardwareSerial.set_rx rest)) ;;
  match response with
  | None => ret (false, None)
  | Some maxLen =>
      let kept := match maxLen with
                  | O => line
                  | S m => firstn m line
                  end in
      ret (negb (Nat.eqb (length kept) 0), Some (kept ++ [NUL]))
  end.

(** [bool sendCommand(const char* cmd, char* response = nullptr,
    size_t maxResponse = 0)]. *)
Definition sendCommand (cmd : list ascii) (response : option nat)
  : M LoRaComm.t (bool * option (list ascii)) :=
  serial HardwareSerial.drain ;;
  serial (HardwareSerial.println cmd) ;;
  waitForResponse response.

(** [bool LoRaComm::begin(int rxPin, int txPin)], the UART being the one
    the driver already holds. *)
Definition begin : M LoRaComm.t bool :=
  serial HardwareSerial.drain ;;
  '(ok, response) <- sendCommand (chars "AT") (Some 64) ;;
  if negb ok then ret false else
  match response with
  | Some r => ret (strstr r (chars "+OK"))
  | None => ret false
  end.

(** [void configure(uint32_t frequency, uint8_t spreadingFactor,
    uint16_t bandwidth)]; [cmd] holds 64 characters. *)
Definition configure (frequency spreadingFactor bandwidth : Z) : M LoRaComm.t unit :=
  let cmd := firstn 63 (chars "AT+BAND=" ++ decimalZ frequency) in
  sendCommand cmd None ;;
  let bwCode := if (500 <=? bandwidth)%Z then 2%Z
                else if (250 <=? bandwidth)%Z then 1%Z
                else 0%Z in
  let cmd := firstn 63 (chars "AT+PARAMETER=" ++ decimalZ spreadingFactor ++ chars ","
                          ++ decimalZ bwCode ++ chars "," ++ decimalZ 1
                          ++ chars ",12") in
  sendCommand cmd None ;;
  sendCommand (chars "AT+CRFOP=20") None ;;
  ret tt.

(** [void setNetworkId(uint8_t networkId)]; [cmd] holds 32 characters. *)
Definition setNetworkId (networkId : Z) : M LoRaComm.t unit :=
  sendCommand (firstn 31 (chars "AT+NETWORKID=" ++ decimalZ networkId)) None ;;
  ret tt.

(** [void setAddress(uint16_t address)]. *)
Definition setAddress (address : Z) : M LoRaComm.t unit :=
  sendCommand (firstn 31 (chars "AT+ADDRESS=" ++ decimalZ address)) None ;;
  ret tt.

Definition getRSSI : M LoRaComm.t Z := gets _rssi.
Definition getSNR : M LoRaComm.t Z := gets _snr.

End LoRaSetup.

(** [SecureElement::isKeyProvisioned]. *)
Module KeySlots.

Import SecureElement.

Section Methods.
Context `{Primitives}.

(** [bool isKeyProvisioned(uint8_t slot)]: the key read into [pubKey] is
    dropped. *)
Definition isKeyProvisioned (slot : Z) : M SecureElement.t bool :=
  init <- gets _initialized ;;
  if negb init then ret false else
  r <- getPublicKey slot ;;
  match r with
  | Some _ => ret true
  | None => ret false
  end.

End Methods.

End KeySlots.

(** ** sensors.cpp: initialisation and status *)

Module Sensors.

Record t := mk {
  _bme280Init : bool;
  _soilInit : bool
}.

(** [bool Sensors::begin()]; [at76] and [at77] say whether a BME280 answers
    at the two bus addresses, the second being tried when the first fails. *)
Definition begin (at76 at77 : bool) : M t bool :=
  modify (fun s => mk false (_soilInit s)) ;;
  modify (fun s => mk (_bme280Init s) false) ;;
  (if at76 || at77 then modify (fun s => mk true (_soilInit s)) else ret tt) ;;
  modify (fun s => mk (_bme280Init s) true) ;;
  gets _bme280Init.

(** [uint8_t Sensors::getStatus()]. *)
Definition getStatus : M t Z :=
  s <- get ;;
  let status := 0%Z in
  let status := if _bme280Init s then Z.lor status 1 else status in
  let status := if _soilInit s then Z.lor status 2 else status in
  ret status.

End Sensors.

(** ** SecureElement: start-up, provisioning and verification *)

Module Provisioning.

Import SecureElement.

Definition set_initialized (b : bool) (s : SecureElement.t) : SecureElement.t :=
  SecureElement.mk b (atecc s).

(** The chip once the private key of [slot] is one whose public key is
    [key]. *)
Definition set_slot_key (slot : Z) (key : list Z) (a : ATECCX08A.t) : ATECCX08A.t :=
  ATECCX08A.mk (ATECCX08A.publicKey64Bytes a) (ATECCX08A.signature a)
    (ATECCX08A.macBuffer a) (ATECCX08A.randomNumber a) (ATECCX08A.sha_absorbed a)
    (fun k => if (k =? slot)%Z then Some key else ATECCX08A.slot_key a k)
    (ATECCX08A.bus a) (ATECCX08A.entropy a).

(** [atecc.generatePrivateKey (slot)]; [fresh] is the public key of the
    private key the chip draws. *)
Definition generatePrivateKey (slot : Z) (fresh : list Z) : M ATECCX08A.t bool :=
  ok <- ATECCX08A.command ;;
  if ok then modify (set_slot_key slot fresh) ;; ret true else ret false.

(** [bool SecureElement::begin()]: [atecc.begin()], [atecc.wakeUp()] and
    [atecc.readSerialNumber()], the result of the last being dropped. *)
Definition begin : M SecureElement.t bool :=
  init <- gets _initialized ;;
  if init then ret true else
  ok <- chip ATECCX08A.command ;;
  if negb ok then ret false else
  ok <- chip ATECCX08A.command ;;
  if negb ok then ret false else
  chip ATECCX08A.command ;;
  modify (set_initialized true) ;;
  ret true.

(** [bool SecureElement::generateKey(uint8_t slot)]. *)
Definition generateKey (slot : Z) (fresh : list Z) : M SecureElement.t bool :=
  init <- gets _initialized ;;
  if negb init then ret false else
  chip (generatePrivateKey slot fresh).

Section Verification.
Context `{Primitives}.

(** The chip's check of a signature over a digest under a public key. *)
Variable VERIFY : list Z -> list Z -> list Z -> bool.

(** [atecc.verifySignature (hash, signature)], under the key loaded in
    [publicKey64Bytes]. *)
Definition verifySignature (hash signature : list Z) : M ATECCX08A.t bool :=
  ok <- ATECCX08A.command ;;
  a <- get ;;
  ret (ok && VERIFY (ATECCX08A.publicKey64Bytes a) hash signature).

(** [bool SecureElement::verify(publicKey, data, dataLen, signature)]. *)
Definition verify (publicKey data signature : list Z) : M SecureElement.t bool :=
  init <- gets _initialized ;;
  if negb init then ret false else
  h <- sha256 data ;;
  match h with
  | None => ret false
  | Some hash =>
      chip (modify (fun a => ATECCX08A.set_publicKey64Bytes
                               (memcpy (ATECCX08A.publicKey64Bytes a) 0 publicKey 64) a)) ;;
      let sigCopy := memcpy (repeat 0%Z 64) 0 signature 64 in
      chip (verifySignature hash sigCopy)
  end.

End Verification.

End Provisioning.

(** ** Frames on the air *)

Module Frames.

Import Libc Spec.

(** Character classes of the frame syntax: decimal digits, characters that
    do not end a line, and characters of a token that do not end a line. *)
Definition is_digit (c : ascii) : bool := ((48 <=? code c) && (code c <=? 57))%Z.
Definition inline (c : ascii) : bool := negb (Ascii.eqb c LF).
Definition word (c : ascii) : bool := plain c && inline c.

(** A signed decimal numeral. *)
Definition sdecimal (z : Z) : list ascii :=
  if (z <? 0)%Z then "-"%char :: LoRaComm.decimal (Z.to_nat (- z))
  else LoRaComm.decimal (Z.to_nat z).

(** The notification of the receiving module for a payload sent with
    [transmit]: [+RCV=<address>,<length>,<data>,<RSSI>,<SNR>] and CR LF,
    the data in the hexadecimal form [transmit] gives it and the length
    counting its characters. *)
Definition rcv_frame (address : nat) (payload : list Z) (rssi snr : Z) : list ascii :=
  chars "+RCV=" ++ LoRaComm.decimal address ++ chars ","
    ++ LoRaComm.decimal (length payload * 2) ++ chars ","
    ++ flat_map LoRaComm.hex_byte payload ++ chars ","
    ++ sdecimal rssi ++ chars "," ++ sdecimal snr ++ [CR; LF].

(** The first [n] bytes the chip's random generator will deliver. *)
Definition random_bytes (n : nat) (blocks : list (list Z)) : list Z :=
  firstn n (concat blocks).

(** The lines the enrollment client's radio has been given so far. *)
Definition radio_log (h : BraceClient.heap) : list (list ascii) :=
  HardwareSerial.tx (LoRaComm._serial (BraceClient.lora h)).

(** A line [transmit] writes: an [AT+SEND] command for some payload. *)
Definition send_line (line : list ascii) : Prop :=
  exists payload, line = send_command payload.

(** What a scheduled cycle may change: at most one command goes to the
    radio, the console grows, the flags and the schedule stay. *)
Definition cycle_effect (d d' : Main.Device) : Prop :=
  length (Main.commitmentBytes d') = 32 /\
  Main.deviceRegistered d' = Main.deviceRegistered d /\
  Main.currentEpoch d' = Main.currentEpoch d /\
  Main.lastReading d' = Main.lastReading d /\
  (exists more, sent d' = sent d ++ more /\ length more <= 1 /\ Forall send_line more) /\
  exists added, Main.console d' = Main.console d ++ added.

(** The driver after a command line and the module's answer to it. *)
Definition commanded (cmd : list ascii) (l : LoRaComm.t) : LoRaComm.t :=
  let u := LoRaComm._serial l in
  let answer := hd [] (HardwareSerial.peer u) in
  LoRaComm.set_serial
    (HardwareSerial.mk (snd (LoRaComm.read_line (length answer) answer))
                       (HardwareSerial.tx u ++ [cmd])
                       (tl (HardwareSerial.peer u))) l.

(** The bandwidth code [configure] derives. *)
Definition bandwidth_code (bandwidth : Z) : Z :=
  if (500 <=? bandwidth)%Z then 2%Z else if (250 <=? bandwidth)%Z then 1%Z else 0%Z.

(** Calls of the chip's generator that [n] random bytes take. *)
Definition blocks_needed (n : nat) : nat := (n + 31) / 32.

(** Milliseconds from [last] to [now] on the wrapping 32-bit clock. *)
Definition elapsed (now last : Z) : Z :=
  (if last <=? now then now - last else now + 2 ^ 32 - last)%Z.

End Frames.

(** ** Further bench objects *)

Module Rig.

Import Libc Spec Frames.

(** Two byte strings of one length with the same bytes. *)
Definition same_bytes (a b : list Z) : bool :=
  Nat.eqb (length a) (length b)
  && forallb (fun p => Z.eqb (fst p) (snd p)) (combine a b).

(** The stand-in for the chip's signature check: the signature is the one
    the stand-in signer gives for the digest, whatever the key. *)
Definition verifies (publicKey digest signature : list Z) : bool :=
  same_bytes signature (@ECDSA Bench.primitives digest).

(** A device that has [q] waiting on its UART and is not registered. *)
Definition listening_device (q : list ascii) : Main.Device :=
  Main.mk (Bench.secure_element []) (Bench.lora q) Bench.fresh_client false 0
          (repeat 0%Z 32) 1000 [].

(** An enrolled device whose last cycle ran [back] milliseconds before the
    clock wrapped. *)
Definition late_device (back : Z) : Main.Device :=
  Main.mk (Bench.secure_element []) (Bench.lora []) Bench.fresh_client true 5
          (repeat 0%Z 32) (2 ^ 32 - back) [].

(** A client whose chip fails the commands scheduled in [schedule]. *)
Definition faulty_heap (schedule : list bool) : BraceClient.heap :=
  BraceClient.Heap Bench.fresh_client (Bench.secure_element schedule) (Bench.lora []).

Definition ack : list ascii := rcv_frame 1 [1%Z] (-40) 9.
Definition epoch_update (e : Z) : list ascii := rcv_frame 1 (2%Z :: be32 e ++ []) (-40) 9.


(** A client whose chip holds a key in the device-key slot and in the
    blinding-factor slot. *)
Definition provisioned_heap : BraceClient.heap :=
  BraceClient.Heap Bench.fresh_client
    (SecureElement.mk true
       (Provisioning.set_slot_key Config.SLOT_BLINDING_FACTOR (repeat 3%Z 64)
                                  (Bench.chip [])))
    (Bench.lora []).

End Rig.

(** * Properties *)

(** ** Running monadic code *)

Section MonadFacts.
Variables S T A B : Type.

Lemma bind_run (m : M S A) (k : A -> M S B) s b s' :
  bind m k s = Some (b, s') ->
  exists a s1, m s = Some (a, s1) /\ k a s1 = Some (b, s').
Proof.
  unfold bind. destruct (m s) as [[a s1]|]; [|discriminate].
  intros Hk. now exists a, s1.
Qed.

Lemma bind_step (m : M S A) (k : A -> M S B) s a s1 :
  m s = Some (a, s1) -> bind m k s = k a s1.
Proof. unfold bind. now intros ->. Qed.

Lemma zoom_run (proj : S -> T) inj (m : M T A) s a s' :
  zoom proj inj m s = Some (a, s') ->
  exists t', m (proj s) = Some (a, t') /\ s' = inj t' s.
Proof.
  unfold zoom. destruct (m (proj s)) as [[a' t']|]; [|discriminate].
  intros E. inversion E; subst. now exists t'.
Qed.

Lemma zoom_step (proj : S -> T) inj (m : M T A) s a t' :
  m (proj s) = Some (a, t') -> zoom proj inj m s = Some (a, inj t' s).
Proof. unfold zoom. now intros ->. Qed.

End MonadFacts.

(** Name the elements of a list of known length. *)
Ltac explode l Hl :=
  repeat (destruct l as [|? l]; [discriminate Hl|]; cbn [length] in Hl;
          apply eq_add_S in Hl);
  destruct l; [clear Hl | discriminate Hl].

(** ** Inbound frames *)

Section Receive.

Import Libc LoRaComm Spec.

Lemma cstr_terminated s : cstr (s ++ [NUL]) = cstr s.
Proof.
  induction s as [|c s IH]; simpl; [reflexivity|].
  destruct (Ascii.eqb c NUL); [reflexivity | now rewrite IH].
Qed.


(** [receive] without the monad: what it returns and the driver it leaves. *)
Lemma receive_unfold (buffer : list Z) (maxLen : nat) (l : LoRaComm.t) :
  receive buffer maxLen l =
  match HardwareSerial.rx (_serial l) with
  | [] => Some ((0, buffer), l)
  | _ :: _ =>
      let (line, rest) := read_line 511 (HardwareSerial.rx (_serial l)) in
      let l1 := set_serial (HardwareSerial.set_rx rest (_serial l)) l in
      let rawResponse := line ++ [NUL] in
      if negb (strncmp_eq rawResponse (chars "+RCV=")) then Some ((0, buffer), l1) else
      match strtok (skipn 5 rawResponse) with
      | None => Some ((0, buffer), l1)
      | Some (_, save1) =>
      match strtok save1 with
      | None => Some ((0, buffer), l1)
      | Some (len_token, save2) =>
      match strtok save2 with
      | None => Some ((0, buffer), l1)
      | Some (data_token, save3) =>
      match hex_loop maxLen data_token (to_size_t (atoi len_token)) 0 0 buffer with
      | None => None
      | Some (buffer', outLen) =>
          let l2 := match strtok save3 with
                    | Some (token, _) => set_rssi (atoi token) l1
                    | None => l1
                    end in
          let l3 := match strtok save3 with
                    | Some (_, save4) =>
                        match strtok save4 with
                        | Some (token, _) => set_snr (atoi token) l2
                        | None => l2
                        end
                    | None => l2
                    end in
          Some ((outLen, buffer'), l3)
      end end end end
  end.
Proof.
  unfold receive, bind, available, gets, HardwareSerial.available.
  destruct (HardwareSerial.rx (_serial l)) as [|c q] eqn:Hq; [reflexivity|].
  change (negb true) with false. cbv beta iota. rewrite Hq.
  destruct (read_line 511 (c :: q)) as [line rest].
  unfold serial, zoom, modify. cbv beta iota.
  destruct (negb (strncmp_eq (line ++ [NUL]) (chars "+RCV="))); [reflexivity|].
  destruct (strtok (skipn 5 (line ++ [NUL]))) as [[? save1]|]; [|reflexivity].
  destruct (strtok save1) as [[len_token save2]|]; [|reflexivity].
  destruct (strtok save2) as [[data_token save3]|]; [|reflexivity].
  destruct (hex_loop maxLen data_token (to_size_t (atoi len_token)) 0 0 buffer)
    as [[buffer' outLen]|]; [|reflexivity].
  destruct (strtok save3) as [[token save4]|]; [|reflexivity].
  unfold ret. cbv beta iota.
  destruct (strtok save4) as [[token' ?]|]; reflexivity.
Qed.


(** *** [strtok] against the comma-separated tokens *)

Lemma span_token_spec s :
  let (tok, rest) := span_token s in
  s = tok ++ rest /\ forallb plain tok = true /\
  match rest with
  | [] => True
  | d :: _ => plain d = false
  end.
Proof.
  induction s as [|c s IH]; simpl; [auto|].
  destruct (Ascii.eqb c "," || Ascii.eqb c NUL) eqn:E.
  - simpl. unfold plain. rewrite E. auto.
  - destruct (span_token s) as [tok rest]. destruct IH as (-> & Htok & Hrest).
    simpl. unfold plain at 1. rewrite E. auto.
Qed.

Lemma cstr_plain_app tok s :
  forallb plain tok = true -> cstr (tok ++ s) = tok ++ cstr s.
Proof.
  induction tok as [|c tok IH]; simpl; [reflexivity|].
  intros Hc. apply andb_prop in Hc. destruct Hc as [Hc Htok].
  unfold plain in Hc. apply negb_true_iff, orb_false_iff in Hc.
  destruct Hc as [_ ->]. now rewrite IH.
Qed.

Lemma split_plain_comma tok s :
  forallb plain tok = true -> split (tok ++ "," :: s)%char = tok :: split s.
Proof.
  induction tok as [|c tok IH]; simpl; [reflexivity|].
  intros Hc. apply andb_prop in Hc. destruct Hc as [Hc Htok].
  unfold plain in Hc. apply negb_true_iff, orb_false_iff in Hc.
  destruct Hc as [-> _]. now rewrite IH.
Qed.

Lemma split_plain tok : forallb plain tok = true -> split tok = [tok].
Proof.
  induction tok as [|c tok IH]; simpl; [reflexivity|].
  intros Hc. apply andb_prop in Hc. destruct Hc as [Hc Htok].
  unfold plain in Hc. apply negb_true_iff, orb_false_iff in Hc.
  destruct Hc as [-> _]. now rewrite IH.
Qed.

Lemma tokens_skip_delim s : tokens (skip_delim s) = tokens s.
Proof.
  induction s as [|c s IH]; simpl; [reflexivity|].
  destruct (Ascii.eqb c ",") eqn:E; [|reflexivity].
  apply Ascii.eqb_eq in E. subst c. rewrite IH. reflexivity.
Qed.

Lemma strtok_none s : strtok s = None -> tokens s = [].
Proof.
  unfold strtok. rewrite <- (tokens_skip_delim s).
  destruct (skip_delim s) as [|c start]; [reflexivity|].
  destruct (Ascii.eqb c NUL) eqn:E.
  - intros _. unfold tokens. simpl. now rewrite E.
  - destruct (span_token (c :: start)) as [tok rest].
    destruct rest as [|d after]; [discriminate|].
    destruct (Ascii.eqb d NUL); discriminate.
Qed.

Lemma skip_delim_head s :
  match skip_delim s with
  | c :: _ => Ascii.eqb c "," = false
  | [] => True
  end.
Proof.
  induction s as [|c s IH]; simpl; [exact I|].
  destruct (Ascii.eqb c ",") eqn:E; [exact IH | exact E].
Qed.

Lemma cstr_plain tok : forallb plain tok = true -> cstr tok = tok.
Proof.
  intros Htok. rewrite <- (app_nil_r tok) at 1.
  rewrite cstr_plain_app by exact Htok. apply app_nil_r.
Qed.

(** A token returned by [strtok] is the first field; the saved pointer
    designates the others. *)
Lemma strtok_some s token save :
  strtok s = Some (token, save) -> tokens s = cstr token :: tokens save.
Proof.
  unfold strtok. rewrite <- (tokens_skip_delim s).
  pose proof (skip_delim_head s) as Hh.
  destruct (skip_delim s) as [|c start]; [discriminate|].
  destruct (Ascii.eqb c NUL) eqn:E; [discriminate|].
  simpl span_token. rewrite Hh, E. simpl orb. cbv iota.
  pose proof (span_token_spec start) as Hspan.
  destruct (span_token start) as [tok rest]. destruct Hspan as (-> & Htok & Hrest).
  assert (Hc : forallb plain (c :: tok) = true).
  { simpl. unfold plain at 1. rewrite Hh, E. exact Htok. }
  assert (Hf : filter nonempty [c :: tok] = [c :: tok]) by reflexivity.
  destruct rest as [|d after].
  - intros Hr. inversion Hr; subst. rewrite app_nil_r. unfold tokens.
    rewrite cstr_plain, split_plain by exact Hc. reflexivity.
  - change (c :: tok ++ d :: after) with ((c :: tok) ++ d :: after).
    unfold tokens at 1. rewrite cstr_plain_app by exact Hc.
    unfold plain in Hrest. apply negb_false_iff in Hrest.
    destruct (Ascii.eqb d NUL) eqn:Ed; intros Hr; inversion Hr; subst.
    + change (c :: tok ++ NUL :: after) with ((c :: tok) ++ NUL :: after).
      rewrite cstr_plain_app by exact Hc. unfold tokens. simpl cstr. rewrite Ed.
      rewrite !app_nil_r, split_plain by exact Hc. reflexivity.
    + rewrite orb_false_r in Hrest. apply Ascii.eqb_eq in Hrest. subst d.
      change (c :: tok ++ NUL :: save) with ((c :: tok) ++ NUL :: save).
      rewrite cstr_plain_app by exact Hc. simpl cstr at 2. rewrite app_nil_r.
      simpl cstr. rewrite split_plain_comma by exact Hc. reflexivity.
Qed.

Lemma tokens_terminated s : tokens (s ++ [NUL]) = tokens s.
Proof. unfold tokens. now rewrite cstr_terminated. Qed.

Lemma strncmp_eq_firstn lit s :
  strncmp_eq s lit = true <-> firstn (length lit) s = lit.
Proof.
  revert s. induction lit as [|c lit IH]; intros [|d s]; simpl;
    try (split; (reflexivity || discriminate)).
  rewrite andb_true_iff, Ascii.eqb_eq, IH. split.
  - intros [-> ->]. reflexivity.
  - intros E. inversion E. subst. rewrite H1. auto.
Qed.

Lemma prefix_terminated line :
  strncmp_eq (line ++ [NUL]) (chars "+RCV=") = true ->
  firstn 5 line = chars "+RCV=" /\ skipn 5 (line ++ [NUL]) = skipn 5 line ++ [NUL].
Proof.
  intros Hp. apply strncmp_eq_firstn in Hp.
  destruct line as [|a [|b [|c [|d [|e line]]]]]; simpl in Hp; try discriminate.
  split; [exact Hp | reflexivity].
Qed.

(** C1 (as amended): the length field of a receive notification counts
    hexadecimal characters.  On the line [+RCV=1,2,0102,-40,9], ended by
    CR LF or by the read window, [receive] stores the single byte 0x01 and
    returns 1, with rssi -40 and snr 9; the two bytes 0x01 0x02 are returned
    for [+RCV=1,4,0102,-40,9]. *)
Theorem receive_sample_frame (buffer : list Z) (maxLen : nat) (l : LoRaComm.t)
        (eol : list ascii) :
  2 <= maxLen ->
  eol = [] \/ eol = [CR; LF] ->
  (HardwareSerial.rx (_serial l) = chars "+RCV=1,2,0102,-40,9" ++ eol ->
   exists l', receive buffer maxLen l = Some ((1, store buffer 0 1%Z), l')
              /\ _rssi l' = (-40)%Z /\ _snr l' = 9%Z) /\
  (HardwareSerial.rx (_serial l) = chars "+RCV=1,4,0102,-40,9" ++ eol ->
   exists l', receive buffer maxLen l
              = Some ((2, store (store buffer 0 1%Z) 1 2%Z), l')
              /\ _rssi l' = (-40)%Z /\ _snr l' = 9%Z).
Proof.
  intros Hm Heol. destruct maxLen as [|[|[|m]]]; try lia.
  all: split; intros Hrx; rewrite receive_unfold, Hrx;
    destruct Heol as [-> | ->]; eexists; (split; [vm_compute; reflexivity|]);
    split; reflexivity.
Qed.

(** *** What [atoi] and the conversion loop look at *)

Lemma skip_space_cstr s : cstr (skip_space s) = skip_space (cstr s).
Proof.
  induction s as [|c s IH]; [reflexivity|]. cbn [skip_space cstr].
  destruct (Ascii.eqb c NUL) eqn:Hc.
  - apply Ascii.eqb_eq in Hc. subst c. change (isspace NUL) with false.
    cbn [cstr]. reflexivity.
  - cbn [skip_space]. destruct (isspace c); [exact IH|]. cbn [cstr]. rewrite Hc. reflexivity.
Qed.

Lemma take_sign_cstr s :
  take_sign (cstr s) = (fst (take_sign s), cstr (snd (take_sign s))).
Proof.
  destruct s as [|c s]; [reflexivity|]. cbn [cstr take_sign].
  destruct (Ascii.eqb c NUL) eqn:Hc.
  - apply Ascii.eqb_eq in Hc. subst c. reflexivity.
  - cbn [take_sign]. destruct (Ascii.eqb c "-"); [reflexivity|].
    destruct (Ascii.eqb c "+"); [reflexivity|]. cbn [fst snd cstr]. rewrite Hc. reflexivity.
Qed.

Lemma digits_cstr base s : forall acc, digits base acc (cstr s) = digits base acc s.
Proof.
  induction s as [|c s IH]; intros acc; [reflexivity|]. cbn [cstr digits].
  destruct (Ascii.eqb c NUL) eqn:Hc.
  - apply Ascii.eqb_eq in Hc. subst c. reflexivity.
  - cbn [digits]. destruct (digit_of c) as [d|]; [|reflexivity].
    destruct (d <? base)%Z; [apply IH | reflexivity].
Qed.

(** [atoi] reads the string at the pointer, not the memory behind its NUL. *)
Lemma atoi_cstr s : atoi (cstr s) = atoi s.
Proof.
  unfold atoi, strtol. rewrite <- skip_space_cstr, take_sign_cstr.
  destruct (take_sign (skip_space s)) as [neg s1]. cbn [fst snd].
  change (10 =? 16)%Z with false. cbv iota. rewrite digits_cstr. reflexivity.
Qed.

Lemma hex_loop_mono room : forall token dataLen i outLen buffer buffer' outLen',
  hex_loop room token dataLen i outLen buffer = Some (buffer', outLen') ->
  outLen <= outLen'.
Proof.
  induction room as [|room IH]; intros token dataLen i outLen buffer buffer' outLen' Hrun;
    cbn [hex_loop] in Hrun.
  - inversion Hrun. lia.
  - destruct (Z.of_nat i <? dataLen)%Z; [|inversion Hrun; lia].
    destruct (nth_error token i); [|discriminate].
    destruct (nth_error token (i + 1)); [|discriminate].
    apply IH in Hrun. lia.
Qed.

Lemma hex_loop_returns room : forall token dataLen i outLen buffer,
  (dataLen < Z.of_nat (length token))%Z ->
  exists r, hex_loop room token dataLen i outLen buffer = Some r.
Proof.
  induction room as [|room IH]; intros token dataLen i outLen buffer Hlen; cbn [hex_loop].
  - eexists. reflexivity.
  - destruct (Z.ltb_spec (Z.of_nat i) dataLen) as [Hi|_]; [|eexists; reflexivity].
    destruct (nth_error token i) as [a|] eqn:Ha;
      [|apply nth_error_None in Ha; lia].
    destruct (nth_error token (i + 1)) as [b|] eqn:Hb;
      [|apply nth_error_None in Hb; lia].
    apply IH. exact Hlen.
Qed.

Lemma skip_delim_nul s : In NUL s -> In NUL (skip_delim s).
Proof.
  induction s as [|c s IH]; [auto|]. cbn [skip_delim].
  destruct (Ascii.eqb c ",") eqn:Hc; [|auto].
  intros [Hn|Hn]; [|auto]. subst c. discriminate Hc.
Qed.

Lemma plain_no_nul tok : forallb plain tok = true -> ~ In NUL tok.
Proof.
  intros Htok Hin. rewrite forallb_forall in Htok. specialize (Htok _ Hin).
  discriminate Htok.
Qed.

(** In memory that holds a NUL, a token [strtok] returns is followed by a
    NUL, and so is what the saved pointer designates. *)
Lemma strtok_terminated s token save :
  strtok s = Some (token, save) -> In NUL s ->
  length (cstr token) < length token /\ In NUL save.
Proof.
  unfold strtok. intros Hrun Hin. apply skip_delim_nul in Hin.
  pose proof (skip_delim_head s) as Hh.
  destruct (skip_delim s) as [|c start]; [discriminate|].
  destruct (Ascii.eqb c NUL) eqn:E; [discriminate|].
  pose proof (span_token_spec (c :: start)) as Hspan.
  destruct (span_token (c :: start)) as [tok rest]. destruct Hspan as (Heq & Htok & Hrest).
  rewrite Heq in Hin. apply in_app_or in Hin.
  destruct Hin as [Hin|Hin]; [destruct (plain_no_nul _ Htok Hin)|].
  destruct rest as [|d after]; [destruct Hin|].
  assert (Hlen : length (cstr (tok ++ NUL :: after)) < length (tok ++ NUL :: after)).
  { rewrite cstr_plain_app by exact Htok. cbn [cstr]. rewrite Ascii.eqb_refl.
    rewrite !length_app. cbn [length]. lia. }
  destruct (Ascii.eqb d NUL) eqn:Ed; inversion Hrun; subst; (split; [exact Hlen|]).
  - exact Hin.
  - destruct Hin as [Hd|Hin]; [|exact Hin]. subst d. discriminate Ed.
Qed.

Lemma prefix_of_line line :
  firstn 5 line = chars "+RCV=" -> strncmp_eq (line ++ [NUL]) (chars "+RCV=") = true.
Proof.
  intros Hp. apply strncmp_eq_firstn.
  destruct line as [|a [|b [|c [|d [|e line]]]]]; try discriminate Hp. exact Hp.
Qed.

(** C3 (as amended).  [receive] returns 0, with the caller's buffer and the
    signal metadata as they were, for a line that does not start with
    [+RCV=] and for a line in which [strtok] finds fewer than three tokens
    after the prefix, the CR LF that ends the line counting as token text.
    Nothing else is validated: when the prefix is there, three tokens are
    found and the length announced is positive, a call with [maxLen >= 1]
    that returns reports at least one byte, whatever the data token holds,
    and it does return when the data token has at least the announced
    number of characters.  So the odd-length data of [+RCV=1,3,010,-40,9]
    is decoded to the two bytes 0x01 0x00; the line [+RCV=1,2,] CR LF, whose
    data field is empty, has three tokens, its CR LF taken as the data, and
    yields the byte 0x00; and data shorter than announced, as in
    [+RCV=1,4,01,-40,9] and in [+RCV=1,4,01] CR LF, yields 0x01 followed by
    a byte 0x00 made from what follows the data in the line. *)
Theorem receive_rejects_unframed_line (buffer : list Z) (maxLen : nat) (l : LoRaComm.t) :
  let line := fst (read_line 511 (HardwareSerial.rx (_serial l))) in
  (firstn 5 line <> chars "+RCV=" \/ length (tokens (skipn 5 line)) < 3 ->
   exists l', receive buffer maxLen l = Some ((0, buffer), l')
              /\ _rssi l' = _rssi l /\ _snr l' = _snr l) /\
  (forall eol, 2 <= maxLen -> eol = [] \/ eol = [CR; LF] ->
   HardwareSerial.rx (_serial l) = chars "+RCV=1,3,010,-40,9" ++ eol ->
   exists l', receive buffer maxLen l
              = Some ((2, store (store buffer 0 1%Z) 1 0%Z), l')) /\
  (forall len buffer' l',
     receive buffer maxLen l = Some ((len, buffer'), l') ->
     1 <= maxLen ->
     firstn 5 line = chars "+RCV=" -> 3 <= length (tokens (skipn 5 line)) ->
     (0 < announced line)%Z ->
     1 <= len) /\
  (1 <= maxLen ->
   firstn 5 line = chars "+RCV=" -> 3 <= length (tokens (skipn 5 line)) ->
   (0 < announced line <= Z.of_nat (length (nth 2 (tokens (skipn 5 line)) [])))%Z ->
   exists len buffer' l',
     receive buffer maxLen l = Some ((len, buffer'), l') /\ 1 <= len) /\
  (1 <= maxLen ->
   HardwareSerial.rx (_serial l) = chars "+RCV=1,2," ++ [CR; LF] ->
   length (tokens (skipn 5 line)) = 3 /\
   exists l', receive buffer maxLen l = Some ((1, store buffer 0 0%Z), l')) /\
  (forall eol, 2 <= maxLen -> eol = [] \/ eol = [CR; LF] ->
   HardwareSerial.rx (_serial l) = chars "+RCV=1,4,01,-40,9" ++ eol ->
   exists l', receive buffer maxLen l
              = Some ((2, store (store buffer 0 1%Z) 1 0%Z), l')) /\
  (2 <= maxLen ->
   HardwareSerial.rx (_serial l) = chars "+RCV=1,4,01" ++ [CR; LF] ->
   exists l', receive buffer maxLen l
              = Some ((2, store (store buffer 0 1%Z) 1 0%Z), l')).
Proof.
  intros line.
  assert (Hpartial : forall len buffer' l',
     receive buffer maxLen l = Some ((len, buffer'), l') ->
     1 <= maxLen ->
     firstn 5 line = chars "+RCV=" -> 3 <= length (tokens (skipn 5 line)) ->
     (0 < announced line)%Z ->
     1 <= len).
  { intros len buffer' l' Hrun Hm Hp Hthree Hlen. revert Hrun.
    rewrite receive_unfold. unfold announced in Hlen. subst line.
    destruct (HardwareSerial.rx (_serial l)) as [|c q] eqn:Hq; [discriminate Hp|].
    destruct (read_line 511 (c :: q)) as [line rest]. cbn [fst] in *. cbv zeta.
    pose proof (prefix_of_line line Hp) as Hpre. rewrite Hpre. cbn [negb].
    destruct (prefix_terminated _ Hpre) as [_ Hskip].
    rewrite <- tokens_terminated, <- Hskip in Hthree, Hlen.
    destruct (strtok (skipn 5 (line ++ [NUL]))) as [[t1 save1]|] eqn:H1.
    2:{ rewrite (strtok_none _ H1) in Hthree. cbn in Hthree. lia. }
    rewrite (strtok_some _ H1) in Hthree, Hlen.
    destruct (strtok save1) as [[t2 save2]|] eqn:H2.
    2:{ rewrite (strtok_none _ H2) in Hthree. cbn in Hthree. lia. }
    rewrite (strtok_some _ H2) in Hthree, Hlen.
    destruct (strtok save2) as [[t3 save3]|] eqn:H3.
    2:{ rewrite (strtok_none _ H3) in Hthree. cbn in Hthree. lia. }
    cbn [nth] in Hlen. rewrite atoi_cstr in Hlen.
    destruct maxLen as [|m]; [lia|]. cbn [hex_loop].
    change (Z.of_nat 0) with 0%Z. apply Z.ltb_lt in Hlen. rewrite Hlen.
    destruct (nth_error t3 0) as [a|]; [|discriminate].
    destruct (nth_error t3 (0 + 1)) as [b|]; [|discriminate].
    destruct (hex_loop m _ _ _ _ _) as [[b' o]|] eqn:Hloop; [|discriminate].
    apply hex_loop_mono in Hloop. intros Hrun. inversion Hrun; subst. exact Hloop. }
  split; [|split; [|split; [exact Hpartial|split; [|split; [|split]]]]].
  - intros Hbad. rewrite receive_unfold.
    destruct (HardwareSerial.rx (_serial l)) as [|c q] eqn:Hq; [now exists l|].
    subst line. destruct (read_line 511 (c :: q)) as [line rest]. simpl fst in Hbad.
    cbv zeta.
    destruct (strncmp_eq (line ++ [NUL]) (chars "+RCV=")) eqn:Hp; simpl negb; cbv iota;
      [|eexists; repeat split; reflexivity].
    apply prefix_terminated in Hp. destruct Hp as [Hp Hskip].
    destruct Hbad as [Hbad | Hbad]; [contradiction|].
    rewrite <- tokens_terminated, <- Hskip in Hbad.
    destruct (strtok (skipn 5 (line ++ [NUL]))) as [[t1 save1]|] eqn:H1;
      [|eexists; repeat split; reflexivity].
    rewrite (strtok_some _ H1) in Hbad.
    destruct (strtok save1) as [[t2 save2]|] eqn:H2;
      [|eexists; repeat split; reflexivity].
    rewrite (strtok_some _ H2) in Hbad.
    destruct (strtok save2) as [[t3 save3]|] eqn:H3;
      [|eexists; repeat split; reflexivity].
    rewrite (strtok_some _ H3) in Hbad. simpl in Hbad. lia.
  - intros eol Hm Heol Hrx. destruct maxLen as [|[|[|m]]]; try lia.
    all: rewrite receive_unfold, Hrx; destruct Heol as [-> | ->]; eexists;
      vm_compute; reflexivity.
  - intros Hm Hp Hthree [Hpos Hfits].
    assert (Hsome : exists r, receive buffer maxLen l = Some r).
    { rewrite receive_unfold. unfold announced in Hfits. subst line.
      destruct (HardwareSerial.rx (_serial l)) as [|c q] eqn:Hq; [discriminate Hp|].
      destruct (read_line 511 (c :: q)) as [line rest]. cbn [fst] in *. cbv zeta.
      pose proof (prefix_of_line line Hp) as Hpre. rewrite Hpre. cbn [negb].
      destruct (prefix_terminated _ Hpre) as [_ Hskip].
      rewrite <- tokens_terminated, <- Hskip in Hthree, Hfits.
      assert (Hnul : In NUL (skipn 5 (line ++ [NUL])))
        by (rewrite Hskip; apply in_or_app; right; left; reflexivity).
      destruct (strtok (skipn 5 (line ++ [NUL]))) as [[t1 save1]|] eqn:H1;
        [|eexists; reflexivity].
      destruct (strtok_terminated _ H1 Hnul) as [_ Hnul1].
      rewrite (strtok_some _ H1) in Hthree, Hfits.
      destruct (strtok save1) as [[t2 save2]|] eqn:H2; [|eexists; reflexivity].
      destruct (strtok_terminated _ H2 Hnul1) as [_ Hnul2].
      rewrite (strtok_some _ H2) in Hthree, Hfits.
      destruct (strtok save2) as [[t3 save3]|] eqn:H3; [|eexists; reflexivity].
      destruct (strtok_terminated _ H3 Hnul2) as [Hmem _].
      rewrite (strtok_some _ H3) in Hfits. cbn [nth] in Hfits. rewrite atoi_cstr in Hfits.
      assert (Hread : (to_size_t (atoi t2) < Z.of_nat (length t3))%Z) by lia.
      destruct (@hex_loop_returns maxLen t3 (to_size_t (atoi t2)) 0 0 buffer Hread)
        as [[b o] Hloop].
      rewrite Hloop. eexists. reflexivity. }
    destruct Hsome as [[[len buffer'] l'] Hrun].
    exists len, buffer', l'. split; [exact Hrun|].
    exact (Hpartial len buffer' l' Hrun Hm Hp Hthree Hpos).
  - intros Hm Hrx. subst line. rewrite receive_unfold, Hrx.
    destruct maxLen as [|[|m]]; try lia.
    all: split; [vm_compute; reflexivity | eexists; vm_compute; reflexivity].
  - intros eol Hm Heol Hrx. destruct maxLen as [|[|[|m]]]; try lia.
    all: rewrite receive_unfold, Hrx; destruct Heol as [-> | ->]; eexists;
      vm_compute; reflexivity.
  - intros Hm Hrx. destruct maxLen as [|[|[|m]]]; try lia.
    all: rewrite receive_unfold, Hrx; eexists; vm_compute; reflexivity.
Qed.

End Receive.

(** C1, the frame of the specification: [receive] does not return the two
    bytes 0x01 0x02. *)
Lemma receive_sample_frame_not_two_bytes :
  ~ exists buffer' l',
      LoRaComm.receive (repeat 0%Z 256) 256 (Spec.radio "+RCV=1,2,0102,-40,9")
      = Some ((2, buffer'), l') /\ firstn 2 buffer' = [1; 2]%Z.
Proof.
  intros (buffer' & l' & Hr & _). vm_compute in Hr. discriminate.
Qed.

(** The frame of the specification read into the 256-byte buffer of the
    control loop. *)
Lemma receive_sample_frame_witness :
  exists l',
    LoRaComm.receive (repeat 0%Z 256) 256 (Spec.radio "+RCV=1,2,0102,-40,9")
    = Some ((1, store (repeat 0%Z 256) 0 1%Z), l')
    /\ LoRaComm._rssi l' = (-40)%Z /\ LoRaComm._snr l' = 9%Z.
Proof.
  refine (proj1 (@receive_sample_frame (repeat 0%Z 256) 256
                   (Spec.radio "+RCV=1,2,0102,-40,9") [] _ _) _).
  - repeat constructor.
  - left. reflexivity.
  - reflexivity.
Defined.

(** C3, the odd-length frame of the specification: [receive] returns two bytes,
    0x01 and 0x00, written to the caller's buffer. *)
Lemma receive_odd_hex_not_rejected :
  (exists l',
     LoRaComm.receive (repeat 255%Z 256) 256 (Spec.radio "+RCV=1,3,010,-40,9")
     = Some ((2, [1; 0]%Z ++ repeat 255%Z 254), l')) /\
  ~ (exists l',
       LoRaComm.receive (repeat 255%Z 256) 256 (Spec.radio "+RCV=1,3,010,-40,9")
       = Some ((0, repeat 255%Z 256), l')).
Proof.
  split.
  - eexists. vm_compute. reflexivity.
  - intros (l' & Hr). vm_compute in Hr. discriminate.
Qed.

(** A notification cut after its length field. *)
Lemma receive_rejects_unframed_line_witness :
  exists l',
    LoRaComm.receive (repeat 255%Z 256) 256 (Spec.radio "+RCV=1,4")
    = Some ((0, repeat 255%Z 256), l')
    /\ LoRaComm._rssi l' = 0%Z /\ LoRaComm._snr l' = 0%Z.
Proof.
  apply (proj1 (@receive_rejects_unframed_line (repeat 255%Z 256) 256
                  (Spec.radio "+RCV=1,4"))).
  right. vm_compute. lia.
Defined.

(** ** The secure element *)

Section SecureElementFacts.
Context `{Primitives}.

Import ATECCX08A SecureElement Spec.

Lemma chip_kept_refl a : chip_kept a a.
Proof. split; reflexivity. Qed.

Lemma chip_kept_trans a b c : chip_kept a b -> chip_kept b c -> chip_kept a c.
Proof. intros [? ?] [? ?]. split; congruence. Qed.

Lemma kept_refl s : kept s s.
Proof. split; [reflexivity | apply chip_kept_refl]. Qed.

Lemma kept_trans s t u : kept s t -> kept t u -> kept s u.
Proof.
  intros [? ?] [? ?]. split; [congruence | eapply chip_kept_trans; eassumption].
Qed.

Lemma command_run a :
  command a = Some (hd true (bus a), set_bus (tl (bus a)) a).
Proof. reflexivity. Qed.

Lemma healthy_hd a : healthy a -> hd true (bus a) = true.
Proof. unfold healthy. destruct (bus a); [reflexivity|]. now inversion 1. Qed.

Lemma healthy_tl a : healthy a -> Forall (fun ok => ok = true) (tl (bus a)).
Proof. unfold healthy. destruct (bus a); [auto|]. now inversion 1. Qed.

Lemma sha256Update_run data a :
  sha256Update data a =
  Some (hd true (bus a),
        if hd true (bus a)
        then set_sha_absorbed (sha_absorbed a ++ data) (set_bus (tl (bus a)) a)
        else set_bus (tl (bus a)) a).
Proof.
  unfold sha256Update, bind. rewrite command_run. now destruct (hd true (bus a)).
Qed.

Lemma sha256_chunks_run turns : forall ptr a,
  length ptr <= turns ->
  exists r a',
    sha256_chunks turns ptr a = Some (r, a') /\ chip_kept a a' /\
    (healthy a -> healthy a' /\ r <> None) /\
    (forall rest, r = Some rest ->
       sha_absorbed a' ++ rest = sha_absorbed a ++ ptr /\ (ptr <> [] -> rest <> [])).
Proof.
  induction turns as [|turns IH]; intros ptr a Hlen.
  - destruct ptr; [|simpl in Hlen; lia]. exists (Some []), a.
    split; [reflexivity|]. split; [apply chip_kept_refl|].
    split; [intros Ha; split; [exact Ha | discriminate]|].
    intros rest Hr. inversion Hr; subst. auto.
  - cbn [sha256_chunks]. destruct (Nat.ltb 64 (length ptr)) eqn:Hlong.
    + apply Nat.ltb_lt in Hlong. unfold bind. rewrite sha256Update_run.
      destruct (hd true (bus a)) eqn:Hok; cbn [negb]; cbv beta iota.
      * set (a1 := set_sha_absorbed _ _).
        destruct (IH (skipn 64 ptr) a1) as (r & a' & Hrun & Hkept & Hhealthy & Hsome).
        { rewrite length_skipn. lia. }
        exists r, a'. rewrite Hrun. split; [reflexivity|]. split; [|split].
        -- eapply chip_kept_trans; [|exact Hkept]. split; reflexivity.
        -- intros Ha. apply Hhealthy. apply (healthy_tl Ha).
        -- intros rest Hr. destruct (Hsome rest Hr) as [Habs Hne]. split.
           ++ rewrite Habs. subst a1. unfold set_sha_absorbed. cbn [sha_absorbed].
              rewrite <- app_assoc.
              now rewrite firstn_skipn.
           ++ intros _. apply Hne. intros Hnil.
              apply (f_equal (@length Z)) in Hnil. rewrite length_skipn in Hnil.
              simpl in Hnil. lia.
      * eexists None, _. split; [reflexivity|]. split; [split; reflexivity|]. split.
        -- intros Ha. apply healthy_hd in Ha. congruence.
        -- discriminate.
    + exists (Some ptr), a. split; [reflexivity|].
      split; [apply chip_kept_refl|]. split; [split; [assumption|discriminate]|].
      intros rest Hr. inversion Hr; subst. auto.
Qed.

Lemma sha256Start_run a :
  sha256Start a =
  Some (hd true (bus a),
        if hd true (bus a)
        then set_sha_absorbed [] (set_bus (tl (bus a)) a)
        else set_bus (tl (bus a)) a).
Proof.
  unfold sha256Start, bind. rewrite command_run. now destruct (hd true (bus a)).
Qed.

Lemma sha256End_run a :
  sha256End a =
  Some (if hd true (bus a) then Some (SHA256 (sha_absorbed a)) else None,
        set_bus (tl (bus a)) a).
Proof.
  unfold sha256End, bind. rewrite command_run. now destruct (hd true (bus a)).
Qed.

Lemma createSignature_run hash a :
  createSignature hash a =
  Some (hd true (bus a),
        if hd true (bus a)
        then set_signature (ECDSA hash) (set_bus (tl (bus a)) a)
        else set_bus (tl (bus a)) a).
Proof.
  unfold createSignature, bind. rewrite command_run. now destruct (hd true (bus a)).
Qed.

Lemma macData_run message a :
  macData message a =
  Some (hd true (bus a),
        if hd true (bus a)
        then set_macBuffer (MAC message) (set_bus (tl (bus a)) a)
        else set_bus (tl (bus a)) a).
Proof.
  unfold macData, bind. rewrite command_run. now destruct (hd true (bus a)).
Qed.

Lemma generatePublicKey_run slot a :
  generatePublicKey slot a =
  match hd true (bus a), slot_key a slot with
  | true, Some pk => Some (true, set_publicKey64Bytes pk (set_bus (tl (bus a)) a))
  | _, _ => Some (false, set_bus (tl (bus a)) a)
  end.
Proof.
  unfold generatePublicKey, bind. rewrite command_run. cbv beta iota.
  unfold get. cbv beta iota. cbn [slot_key set_bus].
  destruct (hd true (bus a)); [|reflexivity]. now destruct (slot_key a slot).
Qed.

Lemma random_run a :
  ATECCX08A.random a =
  match hd true (bus a), entropy a with
  | true, r :: later =>
      Some (true, set_randomNumber r (set_entropy later (set_bus (tl (bus a)) a)))
  | _, _ => Some (false, set_bus (tl (bus a)) a)
  end.
Proof.
  unfold ATECCX08A.random, bind. rewrite command_run. cbv beta iota.
  unfold get. cbv beta iota. cbn [entropy set_bus].
  destruct (hd true (bus a)); [|reflexivity]. now destruct (entropy a).
Qed.

Lemma chip_run {A} (m : M ATECCX08A.t A) init a :
  chip m (SecureElement.mk init a) =
  match m a with
  | Some (v, a') => Some (v, SecureElement.mk init a')
  | None => None
  end.
Proof. reflexivity. Qed.

Lemma healthy_popped a : healthy a -> healthy (set_bus (tl (bus a)) a).
Proof. apply healthy_tl. Qed.

Ltac kept_now :=
  split; [reflexivity | split; cbn; first [assumption | reflexivity]].

(** [sha256] hashes exactly the bytes it is given. *)
Lemma sha256_run data s :
  exists r s',
    sha256 data s = Some (r, s') /\ kept s s' /\
    (forall d, r = Some d -> d = SHA256 data) /\
    (ready s -> r = Some (SHA256 data) /\ ready s').
Proof.
  destruct s as [init a]. unfold sha256, bind, gets. cbn [_initialized].
  destruct init; cbn [negb]; cbv beta iota.
  2:{ exists None, (SecureElement.mk false a). split; [reflexivity|].
      split; [apply kept_refl|]. split; [discriminate|].
      intros [Hi _]. discriminate. }
  rewrite chip_run, sha256Start_run.
  destruct (hd true (bus a)) eqn:Hstart; cbn [negb]; cbv beta iota.
  2:{ eexists None, _. split; [reflexivity|]. split; [kept_now|].
      split; [discriminate|]. intros [_ Ha]. apply healthy_hd in Ha.
      cbn [atecc] in Ha. congruence. }
  set (a1 := set_sha_absorbed [] _).
  destruct (sha256_chunks_run data a1 (le_n (length data)))
    as (r & a2 & Hrun & [Hk1 Hk2] & Hhealthy & Hsome).
  rewrite chip_run, Hrun.
  assert (Hh1 : healthy a -> healthy a1) by (intros Ha; exact (healthy_tl Ha)).
  assert (Habs1 : sha_absorbed a1 = []) by reflexivity.
  change (slot_key a1) with (slot_key a) in Hk1.
  change (entropy a1) with (entropy a) in Hk2.
  clearbody a1.
  destruct r as [rest|].
  2:{ eexists None, _. split; [reflexivity|]. split; [kept_now|].
      split; [discriminate|]. intros [_ Ha]. apply Hh1, Hhealthy in Ha.
      destruct Ha as [_ Ha]. congruence. }
  destruct (Hsome rest eq_refl) as [Habs Hne]. rewrite Habs1 in Habs.
  cbn [app] in Habs.
  destruct (Nat.ltb 0 (length rest)) eqn:Hrest.
  - rewrite chip_run, sha256Update_run.
    destruct (hd true (bus a2)) eqn:Hupd; cbn [negb]; cbv beta iota.
    + rewrite chip_run, sha256End_run. unfold set_sha_absorbed at 1 2.
      cbn [bus sha_absorbed]. unfold set_bus at 1 2. cbn [bus sha_absorbed].
      rewrite Habs.
      eexists _, _. split; [reflexivity|]. split; [kept_now|].
      split.
      * destruct (hd true (tl (bus a2))); [|discriminate]. now inversion 1.
      * intros [_ Ha]. cbn [atecc] in Ha. apply Hh1, Hhealthy in Ha.
        destruct Ha as [Ha _].
        pose proof (healthy_hd (healthy_popped Ha)) as Hend.
        cbn [bus set_bus] in Hend. rewrite Hend.
        split; [reflexivity|]. split; [reflexivity|].
        exact (healthy_tl (healthy_popped Ha)).
    + eexists None, _. split; [reflexivity|]. split; [kept_now|].
      split; [discriminate|]. intros [_ Ha]. cbn [atecc] in Ha.
      apply Hh1, Hhealthy in Ha. destruct Ha as [Ha _].
      apply healthy_hd in Ha. congruence.
  - apply Nat.ltb_ge in Hrest.
    assert (rest = []) by (destruct rest; [reflexivity | simpl in Hrest; lia]).
    subst rest. rewrite app_nil_r in Habs.
    unfold ret at 1. cbn [negb]. cbv beta iota.
    rewrite chip_run, sha256End_run. rewrite Habs.
    eexists _, _. split; [reflexivity|]. split; [kept_now|].
    split.
    + destruct (hd true (bus a2)); [|discriminate]. now inversion 1.
    + intros [_ Ha]. cbn [atecc] in Ha. apply Hh1, Hhealthy in Ha.
      destruct Ha as [Ha _]. rewrite (healthy_hd Ha).
      split; [reflexivity|]. split; [reflexivity|]. exact (healthy_tl Ha).
Qed.

(** [sign] signs the SHA-256 digest of exactly the bytes it is given. *)
Lemma sign_run data s :
  exists r s',
    sign data s = Some (r, s') /\ kept s s' /\
    (forall sg, r = Some sg -> sg = ECDSA (SHA256 data)) /\
    (ready s -> r = Some (ECDSA (SHA256 data)) /\ ready s').
Proof.
  unfold sign, bind, gets. destruct (_initialized s) eqn:Hinit; cbn [negb]; cbv beta iota.
  2:{ exists None, s. split; [reflexivity|]. split; [apply kept_refl|].
      split; [discriminate|]. intros [Hi _]. congruence. }
  destruct (sha256_run data s) as (h & s1 & Hrun & Hkept & Hsome & Hready).
  rewrite Hrun. destruct h as [hash|].
  2:{ exists None, s1. split; [reflexivity|]. split; [exact Hkept|].
      split; [discriminate|]. intros Hr. apply Hready in Hr. destruct Hr. discriminate. }
  rewrite (Hsome hash eq_refl) in *. clear Hsome.
  destruct s1 as [init1 a1]. rewrite chip_run, createSignature_run.
  assert (Hsig : firstn 64 (ECDSA (SHA256 data)) = ECDSA (SHA256 data)).
  { apply firstn_all2. rewrite ECDSA_length. apply le_n. }
  destruct (hd true (bus a1)) eqn:Hok; cbn [negb]; cbv beta iota.
  - cbn [atecc signature set_signature]. rewrite Hsig.
    eexists _, _. split; [reflexivity|]. split.
    { eapply kept_trans; [exact Hkept|]. kept_now. }
    split; [now inversion 1|]. intros Hr. split; [reflexivity|].
    apply Hready in Hr. destruct Hr as [_ [Hi Ha]]. split; [exact Hi|].
    exact (healthy_tl Ha).
  - eexists None, _. split; [reflexivity|]. split.
    { eapply kept_trans; [exact Hkept|]. kept_now. }
    split; [discriminate|]. intros Hr. apply Hready in Hr.
    destruct Hr as [_ [_ Ha]]. apply healthy_hd in Ha. cbn [atecc] in Ha. congruence.
Qed.

Lemma getPublicKey_run slot s :
  exists r s',
    getPublicKey slot s = Some (r, s') /\ kept s s' /\
    (forall pk, r = Some pk ->
       exists key, slot_key (atecc s) slot = Some key /\ pk = firstn 64 key) /\
    (ready s -> forall key, slot_key (atecc s) slot = Some key ->
       r = Some (firstn 64 key) /\ ready s').
Proof.
  destruct s as [init a]. unfold getPublicKey, bind, gets. cbn [_initialized].
  destruct init; cbn [negb]; cbv beta iota.
  2:{ eexists None, _. split; [reflexivity|]. split; [apply kept_refl|].
      split; [discriminate|]. intros [Hi _]. discriminate. }
  rewrite chip_run, generatePublicKey_run. cbn [atecc].
  destruct (hd true (bus a)) eqn:Hok.
  - destruct (slot_key a slot) as [key|] eqn:Hkey; cbn [negb]; cbv beta iota.
    + cbn [atecc publicKey64Bytes set_publicKey64Bytes].
      eexists _, _. split; [reflexivity|]. split; [kept_now|]. split.
      * inversion 1. now exists key.
      * intros [_ Ha] key' Hk. inversion Hk; subst. split; [reflexivity|].
        split; [reflexivity|]. exact (healthy_tl Ha).
    + eexists None, _. split; [reflexivity|]. split; [kept_now|].
      split; [discriminate|]. intros _ key Hk. discriminate.
  - cbn [negb]. cbv beta iota.
    eexists None, _. split; [reflexivity|]. split; [kept_now|].
    split; [discriminate|]. intros [_ Ha]. apply healthy_hd in Ha.
    cbn [atecc] in Ha. congruence.
Qed.

Lemma byte_of_shiftr e k :
  (0 <= k)%Z -> byte_of (Z.shiftr e k) = ((e / 2 ^ k) mod 256)%Z.
Proof.
  intros Hk. unfold byte_of. rewrite Z.shiftr_div_pow2 by exact Hk.
  change 255%Z with (Z.ones 8). rewrite Z.land_ones by lia. reflexivity.
Qed.

Lemma nullifier_message_layout b3 b2 b1 b0 :
  let domain := bytes_of Config.NULLIFIER_DOMAIN in
  let n := length domain in
  firstn (n + 4)
    (store (store (store (store (memcpy (repeat 0%Z 64) 0 domain n) (n + 0) b3)
                         (n + 1) b2) (n + 2) b1) (n + 3) b0)
  = domain ++ [b3; b2; b1; b0].
Proof. reflexivity. Qed.

(** [computeNullifier] takes the MAC of the domain tag followed by the
    epoch, most significant byte first. *)
Lemma computeNullifier_run epoch s :
  exists r s',
    computeNullifier epoch s = Some (r, s') /\ kept s s' /\
    (forall n, r = Some n -> n = MAC (Spec.nullifier_message epoch)) /\
    (ready s -> r = Some (MAC (Spec.nullifier_message epoch)) /\ ready s').
Proof.
  destruct s as [init a]. unfold computeNullifier, bind, gets. cbn [_initialized].
  destruct init; cbn [negb]; cbv beta iota.
  2:{ eexists None, _. split; [reflexivity|]. split; [apply kept_refl|].
      split; [discriminate|]. intros [Hi _]. discriminate. }
  cbv zeta. rewrite nullifier_message_layout.
  rewrite !byte_of_shiftr by lia.
  change (epoch / 2 ^ 0)%Z with (epoch / 1)%Z. rewrite Z.div_1_r.
  change (bytes_of Config.NULLIFIER_DOMAIN ++ _) with (Spec.nullifier_message epoch).
  rewrite chip_run, macData_run.
  assert (Hmac : firstn 32 (MAC (Spec.nullifier_message epoch))
                 = MAC (Spec.nullifier_message epoch)).
  { apply firstn_all2. rewrite MAC_length. apply le_n. }
  destruct (hd true (bus a)) eqn:Hok; cbn [negb]; cbv beta iota.
  - cbn [atecc macBuffer set_macBuffer]. rewrite Hmac.
    eexists _, _. split; [reflexivity|]. split; [kept_now|].
    split; [now inversion 1|]. intros [_ Ha]. split; [reflexivity|].
    split; [reflexivity|]. exact (healthy_tl Ha).
  - eexists None, _. split; [reflexivity|]. split; [kept_now|].
    split; [discriminate|]. intros [_ Ha]. apply healthy_hd in Ha.
    cbn [atecc] in Ha. congruence.
Qed.

Lemma random_loop_32 buffer a :
  random_loop 32 buffer 0 32 a =
  match ATECCX08A.random a with
  | Some (true, a') => Some ((true, memcpy buffer 0 (randomNumber a') 32), a')
  | Some (false, a') => Some ((false, buffer), a')
  | None => None
  end.
Proof.
  change (random_loop 32 buffer 0 32 a) with
    (bind ATECCX08A.random
       (fun ok => if negb ok then ret (false, buffer) else
          bind get (fun a' => ret (true, memcpy buffer 0 (randomNumber a') 32))) a).
  unfold bind. destruct (ATECCX08A.random a) as [[[|] a']|]; reflexivity.
Qed.

(** Drawing the 32 bytes of a blinding factor. *)
Lemma random_32_run buffer s :
  exists ok buffer' s',
    SecureElement.random buffer 32 s = Some ((ok, buffer'), s') /\
    _initialized s' = _initialized s /\ slot_key (atecc s') = slot_key (atecc s) /\
    (ready s -> forall r later, entropy (atecc s) = r :: later ->
       ok = true /\ buffer' = memcpy buffer 0 r 32 /\ ready s' /\
       entropy (atecc s') = later).
Proof.
  destruct s as [init a]. unfold SecureElement.random, bind, gets. cbn [_initialized].
  destruct init; cbn [negb]; cbv beta iota.
  2:{ eexists false, buffer, _. split; [reflexivity|]. split; [reflexivity|].
      split; [reflexivity|]. intros [Hi _]. discriminate. }
  rewrite chip_run, random_loop_32, random_run.
  destruct (hd true (bus a)) eqn:Hok.
  - destruct (entropy a) as [|r later] eqn:Hent.
    + eexists _, _, _. split; [reflexivity|]. split; [reflexivity|].
      split; [reflexivity|]. intros _ r later Hr. cbn [atecc] in Hr. congruence.
    + eexists _, _, _. split; [reflexivity|]. split; [reflexivity|].
      split; [reflexivity|]. intros [_ Ha] r' later' Hr. cbn [atecc] in Hr.
      rewrite Hent in Hr. inversion Hr; subst.
      split; [reflexivity|]. split; [reflexivity|].
      split; [|reflexivity]. split; [reflexivity|]. exact (healthy_tl Ha).
  - eexists _, _, _. split; [reflexivity|]. split; [reflexivity|].
    split; [reflexivity|]. intros [_ Ha]. apply healthy_hd in Ha.
    cbn [atecc] in Ha. congruence.
Qed.

End SecureElementFacts.

(** ** Outbound frames *)

Section Transmit.

Import Libc LoRaComm Spec.

Lemma hex_length data : length (flat_map hex_byte data) = 2 * length data.
Proof. induction data as [|b data IH]; simpl; [reflexivity | rewrite IH; lia]. Qed.

Lemma decimal_short n : n <= 240 -> length (decimal (n * 2)) <= 3.
Proof.
  intros Hn.
  assert (Hall : forallb (fun k => Nat.leb (length (decimal (k * 2))) 3) (seq 0 241) = true)
    by (vm_compute; reflexivity).
  rewrite forallb_forall in Hall. apply Nat.leb_le, Hall, in_seq. lia.
Qed.

(** A payload of at most 240 bytes is written as one [AT+SEND] line. *)
Lemma command_fits data :
  length data <= 240 -> firstn 559 (send_command data) = send_command data.
Proof.
  intros Hlen. apply firstn_all2. unfold send_command.
  rewrite !length_app, hex_length. pose proof (decimal_short Hlen).
  change (length (chars "AT+SEND=1,")) with 10. change (length (chars ",")) with 1. lia.
Qed.

Lemma transmit_run data l :
  length data <= 240 ->
  let u := _serial l in
  let answer := hd [] (HardwareSerial.peer u) in
  transmit data l =
  Some (acknowledged answer,
        set_serial (HardwareSerial.mk (snd (read_line (length answer) answer))
                      (HardwareSerial.tx u ++ [send_command data])
                      (tl (HardwareSerial.peer u))) l).
Proof.
  intros Hlen u answer. unfold transmit.
  apply Nat.leb_le in Hlen. unfold Nat.ltb.
  replace (Nat.leb 241 (length data)) with false
    by (symmetry; apply Nat.leb_gt; apply Nat.leb_le in Hlen; lia).
  apply Nat.leb_le in Hlen.
  change (chars "AT+SEND=1," ++ decimal (length data * 2) ++ chars "," ++ flat_map hex_byte data)
    with (send_command data).
  rewrite command_fits by exact Hlen.
  destruct l as [[q t p] rssi snr]. subst u answer. cbn [_serial HardwareSerial.peer].
  unfold sendCommand, waitForResponse, bind, serial, zoom, HardwareSerial.drain,
    HardwareSerial.println, modify, gets, ret.
  cbn [_serial set_serial HardwareSerial.rx HardwareSerial.tx HardwareSerial.peer
       HardwareSerial.set_rx app _rssi _snr].
  unfold acknowledged.
  destruct (read_line (length (hd [] p)) (hd [] p)) as [line rest].
  cbn [fst snd HardwareSerial.tx HardwareSerial.peer].
  destruct (firstn (64 - 1) line) as [|k kept] eqn:Hk;
    change (64 - 1) with 63 in Hk; rewrite Hk; reflexivity.
Qed.

Lemma transmit_oversized data l :
  240 < length data -> transmit data l = Some (false, l).
Proof.
  intros Hlen. unfold transmit. apply Nat.ltb_lt in Hlen. now rewrite Hlen.
Qed.

End Transmit.

(** ** Enrollment *)

Section BraceFacts.
Context `{Primitives}.

Import Config ATECCX08A SecureElement BraceClient Spec.

Lemma via_se_run {A} (m : M SecureElement.t A) c s l :
  BraceClient.via_se m (Heap c s l) =
  match m s with
  | Some (v, s') => Some (v, Heap c s' l)
  | None => None
  end.
Proof. reflexivity. Qed.

Lemma via_lora_run {A} (m : M LoRaComm.t A) c s l :
  BraceClient.via_lora m (Heap c s l) =
  match m l with
  | Some (v, l') => Some (v, Heap c s l')
  | None => None
  end.
Proof. reflexivity. Qed.

Lemma preimage_layout pk r :
  length pk = 64 -> length r = 32 ->
  preimage_buffer pk r = commitment_preimage pk r.
Proof.
  intros Hpk Hr. explode pk Hpk. explode r Hr. reflexivity.
Qed.

Lemma preimage_length pk r :
  length pk = 64 -> length r = 32 -> length (commitment_preimage pk r) = 128.
Proof.
  intros Hpk Hr. unfold commitment_preimage. rewrite !length_app, Hpk, Hr. reflexivity.
Qed.

Lemma computeCommitment_run h :
  exists ok h',
    computeCommitment h = Some (ok, h') /\
    lora h' = lora h /\ kept (se h) (se h') /\
    (ok = false -> self h' = self h) /\
    (ok = true ->
       exists key, slot_key (atecc (se h)) SLOT_DEVICE_KEY = Some key /\
         self h' = set_commitment
                     (SHA256 (preimage_buffer (firstn 64 key) (_blindingFactor (self h))))
                     (self h)) /\
    (ready (se h) -> forall key, slot_key (atecc (se h)) SLOT_DEVICE_KEY = Some key ->
       ok = true /\ ready (se h')).
Proof.
  destruct h as [c s l]. unfold computeCommitment, bind. rewrite via_se_run.
  destruct (getPublicKey_run SLOT_DEVICE_KEY s) as (pk & s1 & Hrun & Hk & Hsome & Hready).
  rewrite Hrun. cbn [se self lora]. destruct pk as [publicKey|].
  2:{ exists false, (Heap c s1 l). split; [reflexivity|]. split; [reflexivity|].
      split; [exact Hk|]. split; [reflexivity|]. split; [discriminate|].
      intros Hr key Hkey. destruct (Hready Hr key Hkey). discriminate. }
  destruct (Hsome publicKey eq_refl) as (key & Hkey & ->). clear Hsome.
  unfold gets at 1. cbv beta iota zeta. cbn [self].
  fold (preimage_buffer (firstn 64 key) (_blindingFactor c)).
  rewrite via_se_run.
  destruct (sha256_run (preimage_buffer (firstn 64 key) (_blindingFactor c)) s1)
    as (d & s2 & Hrun2 & Hk2 & Hsome2 & Hready2).
  rewrite Hrun2. destruct d as [digest|].
  - rewrite (Hsome2 digest eq_refl).
    eexists true, _. split; [reflexivity|]. cbn [se self lora].
    split; [reflexivity|]. split; [eapply kept_trans; eassumption|].
    split; [discriminate|]. split.
    + intros _. exists key. split; [exact Hkey | reflexivity].
    + intros Hr key' Hkey'. split; [reflexivity|].
      destruct (Hready Hr key' Hkey') as [_ Hr1]. now apply Hready2.
  - exists false, (Heap c s2 l). split; [reflexivity|]. split; [reflexivity|].
    split; [eapply kept_trans; eassumption|]. split; [reflexivity|].
    split; [discriminate|]. intros Hr key' Hkey'.
    destruct (Hready Hr key' Hkey') as [_ Hr1]. apply Hready2 in Hr1.
    destruct Hr1. discriminate.
Qed.

(** C5: with a working secure element, the commitment the client stores for
    the 64-byte public key [pk] of the device slot and the 32-byte blinding
    factor [r] is the SHA-256 digest of the 128 bytes
    pad32("msingi:commitment:v1") ‖ pk ‖ r; computing it again from the
    state reached stores the same 32 bytes. *)
Theorem commitment_is_domain_separated_hash (h : heap) (pk r : list Z) :
  ready (se h) ->
  slot_key (atecc (se h)) SLOT_DEVICE_KEY = Some pk ->
  length pk = 64 ->
  _blindingFactor (self h) = r ->
  length r = 32 ->
  exists h',
    computeCommitment h = Some (true, h') /\
    _commitment (self h') = SHA256 (commitment_preimage pk r) /\
    length (commitment_preimage pk r) = 128 /\
    length (_commitment (self h')) = 32 /\
    exists h'',
      computeCommitment h' = Some (true, h'') /\
      _commitment (self h'') = _commitment (self h').
Proof.
  intros Hready Hkey Hpk Hr Hlen.
  assert (Hfull : firstn 64 pk = pk) by (apply firstn_all2; lia).
  destruct (computeCommitment_run h)
    as (ok & h' & Hrun & Hlora & [Hinit [Hslot Hent]] & _ & Hsome & Hok).
  destruct (Hok Hready pk Hkey) as [-> Hready'].
  destruct (Hsome eq_refl) as (key & Hkey' & Hself).
  rewrite Hkey in Hkey'. inversion Hkey'; subst key. clear Hkey'.
  rewrite Hfull, Hr, preimage_layout in Hself by assumption.
  exists h'. split; [exact Hrun|]. rewrite Hself. cbn [_commitment set_commitment].
  split; [reflexivity|]. split; [now apply preimage_length|].
  split; [apply SHA256_length|].
  assert (Hkey2 : slot_key (atecc (se h')) SLOT_DEVICE_KEY = Some pk)
    by (rewrite Hslot; exact Hkey).
  destruct (computeCommitment_run h')
    as (ok2 & h'' & Hrun2 & _ & _ & _ & Hsome2 & Hok2).
  destruct (Hok2 Hready' pk Hkey2) as [-> _].
  destruct (Hsome2 eq_refl) as (key & Hkey' & Hself2).
  rewrite Hkey2 in Hkey'. inversion Hkey'; subst key. clear Hkey'.
  exists h''. split; [exact Hrun2|].
  rewrite Hself2, Hself. cbn [_commitment _blindingFactor set_commitment].
  rewrite Hfull, Hr, preimage_layout by assumption. reflexivity.
Qed.

Ltac heap_red :=
  cbn [self se lora set_self set_se set_lora set_registered set_commitment
       set_blindingFactor _se _lora _registered _commitment _blindingFactor negb];
  cbv beta iota.

(** The flag is neither read nor written by [registerDevice]. *)
Lemma registerDevice_mark b h :
  registerDevice (mark b h) =
  match registerDevice h with
  | Some (ok, h') => Some (ok, mark b h')
  | None => None
  end.
Proof.
  destruct h as [[s_ l_ reg c r] s l].
  unfold registerDevice, generateBlindingFactor, computeCommitment,
    sendRegistrationRequest, mark, bind, gets, this, BraceClient.via_se,
    BraceClient.via_lora, zoom, modify, ret.
  heap_red.
  destruct (negb s_ || negb l_); heap_red; [reflexivity|].
  destruct (SecureElement.random r 32 s) as [[[ok r'] s1]|]; heap_red; [|reflexivity].
  destruct ok; heap_red; [|reflexivity].
  destruct (getPublicKey SLOT_DEVICE_KEY s1) as [[[pk|] s2]|]; heap_red;
    [| reflexivity | reflexivity].
  match goal with
  | |- context [SecureElement.sha256 ?x s2] =>
      destruct (SecureElement.sha256 x s2) as [[[d|] s3]|]; heap_red;
        [| reflexivity | reflexivity]
  end.
  match goal with
  | |- context [LoRaComm.transmit ?x l] =>
      destruct (LoRaComm.transmit x l) as [[[|] l1]|]; reflexivity
  end.
Qed.

Lemma registerDevice_registered h ok h' :
  registerDevice h = Some (ok, h') -> _registered (self h') = _registered (self h).
Proof.
  intros Hrun.
  pose proof (registerDevice_mark (negb (_registered (self h))) h) as Hm.
  pose proof (registerDevice_mark (_registered (self h)) h) as Hs.
  rewrite Hrun in Hm, Hs.
  assert (Hid : mark (_registered (self h)) h = h)
    by (destruct h as [[? ? ? ? ?] ? ?]; reflexivity).
  rewrite Hid, Hrun in Hs. inversion Hs as [Hh']. rewrite Hh' at 1. reflexivity.
Qed.

Lemma memcpy_whole {A} (dst src : list A) n :
  length dst = n -> length src = n -> memcpy dst 0 src n = src.
Proof.
  intros Hd Hs. unfold memcpy. cbn [firstn app Nat.add].
  rewrite firstn_all2, skipn_all2 by lia. apply app_nil_r.
Qed.

Lemma registration_message c :
  length c = 32 -> memcpy (store (repeat 0%Z 33) 0 0%Z) 1 c 32 = 0%Z :: c.
Proof. intros Hc. explode c Hc. reflexivity. Qed.

(** C2 (as amended): [registerDevice] does not look at the enrollment state.
    Called while the client is Registered, with both driver handles set, a
    working secure element and a radio that acknowledges, it draws a fresh
    blinding factor, stores the commitment recomputed from it, transmits the
    registration message 0x00 ‖ commitment and returns success, exactly as
    it does with the flag cleared. *)
Theorem registerDevice_when_registered (h : heap) (pk r : list Z) (later : list (list Z)) :
  _registered (self h) = true ->
  _se (self h) = true -> _lora (self h) = true ->
  ready (se h) ->
  entropy (atecc (se h)) = r :: later -> length r = 32 ->
  slot_key (atecc (se h)) SLOT_DEVICE_KEY = Some pk -> length pk = 64 ->
  length (_blindingFactor (self h)) = 32 ->
  acknowledged (hd [] (HardwareSerial.peer (LoRaComm._serial (lora h)))) = true ->
  exists h',
    registerDevice h = Some (true, h') /\
    _blindingFactor (self h') = r /\
    _commitment (self h') = SHA256 (commitment_preimage pk r) /\
    HardwareSerial.tx (LoRaComm._serial (lora h'))
    = HardwareSerial.tx (LoRaComm._serial (lora h))
      ++ [send_command (0%Z :: SHA256 (commitment_preimage pk r))] /\
    _registered (self h') = true /\
    registerDevice (mark false h) = Some (true, mark false h').
Proof.
  intros Hreg Hse Hlora Hready Hent Hr Hkey Hpk Hbf Hack.
  assert (Hrun : exists h',
    registerDevice h = Some (true, h') /\
    _blindingFactor (self h') = r /\
    _commitment (self h') = SHA256 (commitment_preimage pk r) /\
    HardwareSerial.tx (LoRaComm._serial (lora h'))
    = HardwareSerial.tx (LoRaComm._serial (lora h))
      ++ [send_command (0%Z :: SHA256 (commitment_preimage pk r))]).
  { destruct h as [c s l]. cbn [self se lora] in *.
    unfold registerDevice, bind, gets. cbn [self]. rewrite Hse, Hlora.
    cbn [negb orb]. cbv beta iota.
    unfold generateBlindingFactor, bind, gets. cbn [self]. rewrite via_se_run.
    destruct (random_32_run (_blindingFactor c) s)
      as (ok & r' & s1 & Hrand & Hinit & Hslot & Hcoop).
    rewrite Hrand. destruct (Hcoop Hready r later Hent) as (-> & -> & Hready1 & Hent1).
    rewrite memcpy_whole by assumption.
    unfold this, zoom, modify, ret, set_self. cbn [self se lora negb]. cbv beta iota.
    set (c1 := set_blindingFactor r c).
    destruct (computeCommitment_run (Heap c1 s1 l))
      as (ok & h1 & Hcc & Hl1 & Hk1 & _ & Hsome & Hok).
    cbn [self se lora] in *. rewrite Hcc.
    assert (Hkey1 : slot_key (atecc s1) SLOT_DEVICE_KEY = Some pk)
      by (rewrite Hslot; exact Hkey).
    destruct (Hok Hready1 pk Hkey1) as [-> Hready2].
    destruct (Hsome eq_refl) as (key & Hkey' & Hself).
    rewrite Hkey1 in Hkey'. inversion Hkey'; subst key. clear Hkey'.
    subst c1. cbn [_blindingFactor set_blindingFactor] in Hself.
    rewrite firstn_all2, preimage_layout in Hself by (assumption || lia).
    cbn [negb]. cbv beta iota.
    destruct h1 as [c2 s2 l2]. cbn [self se lora] in *. subst c2 l2.
    unfold sendRegistrationRequest, bind, gets.
    cbn [self _commitment set_commitment]. cbv zeta.
    rewrite registration_message by apply SHA256_length.
    rewrite via_lora_run, transmit_run by (cbn [length]; rewrite SHA256_length; lia).
    rewrite Hack. cbn [negb]. cbv beta iota.
    eexists. split; [reflexivity|]. cbn [self lora]. repeat split. }
  destruct Hrun as (h' & Hrun & Hbf' & Hc' & Htx').
  exists h'. split; [exact Hrun|]. split; [exact Hbf'|]. split; [exact Hc'|].
  split; [exact Htx'|]. split.
  - rewrite (registerDevice_registered _ Hrun). exact Hreg.
  - rewrite registerDevice_mark, Hrun. reflexivity.
Qed.

End BraceFacts.

(** ** Big-endian words *)

Section Words.

Import Spec.

Local Open Scope Z_scope.

Lemma byte_bits b k :
  0 <= b < 256 -> 0 <= k -> bits_within k (k + 8) (Z.shiftl b k).
Proof.
  intros Hb Hk n Hn.
  destruct (Z.ltb_spec n 0) as [Hneg|Hpos].
  { rewrite Z.testbit_neg_r in Hn by exact Hneg. discriminate. }
  rewrite Z.shiftl_spec in Hn by exact Hpos.
  destruct (Z.ltb_spec (n - k) 0) as [Hlow|Hlow].
  { rewrite Z.testbit_neg_r in Hn by exact Hlow. discriminate. }
  destruct (Z.ltb_spec (n - k) 8) as [Hhigh|Hhigh]; [lia|].
  destruct (Z.eq_dec b 0) as [->|Hnz].
  { rewrite Z.bits_0 in Hn. discriminate. }
  rewrite Z.bits_above_log2 in Hn; [discriminate | lia |].
  apply Z.lt_le_trans with 8; [|exact Hhigh].
  apply Z.log2_lt_pow2; lia.
Qed.

Lemma lor_bits lo mid hi a b :
  lo <= mid <= hi ->
  bits_within mid hi a -> bits_within lo mid b ->
  bits_within lo hi (Z.lor a b) /\ Z.lor a b = a + b.
Proof.
  intros Hord Ha Hb. split.
  - intros n Hn. rewrite Z.lor_spec in Hn. apply orb_true_iff in Hn.
    destruct Hn as [Hn|Hn]; [apply Ha in Hn | apply Hb in Hn]; lia.
  - assert (Hdisjoint : Z.land a b = 0).
    { apply Z.bits_inj'. intros n _. rewrite Z.land_spec, Z.bits_0.
      destruct (Z.testbit a n) eqn:Hta; [|reflexivity].
      destruct (Z.testbit b n) eqn:Htb; [|reflexivity].
      apply Ha in Hta. apply Hb in Htb. lia. }
    rewrite <- Z.lxor_lor by exact Hdisjoint.
    symmetry. apply Z.add_nocarry_lxor. exact Hdisjoint.
Qed.

(** The expression of [handleIncomingMessage] for the epoch is the value of
    the four bytes read most significant first. *)
Lemma epoch_of_bytes b1 b2 b3 b4 :
  0 <= b1 < 256 -> 0 <= b2 < 256 -> 0 <= b3 < 256 -> 0 <= b4 < 256 ->
  Main.to_uint32 (Z.lor (Z.lor (Z.lor (Z.shiftl b1 24) (Z.shiftl b2 16))
                               (Z.shiftl b3 8)) b4)
  = Spec.of_be32 b1 b2 b3 b4.
Proof.
  intros H1 H2 H3 H4.
  pose proof (@byte_bits b1 24 H1 ltac:(lia)) as B1.
  pose proof (@byte_bits b2 16 H2 ltac:(lia)) as B2.
  pose proof (@byte_bits b3 8 H3 ltac:(lia)) as B3.
  pose proof (@byte_bits b4 0 H4 ltac:(lia)) as B4.
  rewrite Z.shiftl_0_r in B4.
  destruct (@lor_bits 16 24 32 _ _ ltac:(lia) B1 B2) as [B12 E12].
  destruct (@lor_bits 8 16 32 _ _ ltac:(lia) B12 B3) as [B123 E123].
  destruct (@lor_bits 0 8 32 _ _ ltac:(lia) B123 B4) as [_ E1234].
  rewrite E1234, E123, E12, !Z.shiftl_mul_pow2 by lia.
  unfold Main.to_uint32, Spec.of_be32. apply Z.mod_small. lia.
Qed.

End Words.

(** ** The bytes [receive] delivers *)

Section ReceivedBytes.

Import Libc LoRaComm Spec.

Lemma length_store {A} (a : list A) i v : i < length a -> length (store a i v) = length a.
Proof.
  intros Hi. unfold store. rewrite length_app, length_firstn. cbn [length].
  rewrite length_skipn. lia.
Qed.

Lemma nth_store_eq {A} (a : list A) i v d : i < length a -> nth i (store a i v) d = v.
Proof.
  intros Hi. unfold store. rewrite app_nth2; rewrite length_firstn; [|lia].
  replace (i - Nat.min i (length a)) with 0 by lia. reflexivity.
Qed.

Lemma nth_store_lt {A} (a : list A) i k v d :
  k < i -> i < length a -> nth k (store a i v) d = nth k a d.
Proof.
  intros Hk Hi. unfold store. rewrite app_nth1 by (rewrite length_firstn; lia).
  rewrite <- (firstn_skipn i a) at 2. rewrite app_nth1 by (rewrite length_firstn; lia).
  reflexivity.
Qed.

Lemma hex_loop_bytes room : forall token dataLen i outLen buffer buffer' outLen',
  hex_loop room token dataLen i outLen buffer = Some (buffer', outLen') ->
  outLen + room <= length buffer ->
  (forall k, k < outLen -> is_byte (nth k buffer 0%Z)) ->
  length buffer' = length buffer /\ outLen' <= outLen + room /\
  (forall k, k < outLen' -> is_byte (nth k buffer' 0%Z)).
Proof.
  induction room as [|room IH]; intros token dataLen i outLen buffer buffer' outLen' Hrun Hfit Hbytes.
  - cbn [hex_loop] in Hrun. inversion Hrun; subst. split; [reflexivity|]. split; [lia|assumption].
  - cbn [hex_loop] in Hrun. destruct (Z.of_nat i <? dataLen)%Z.
    + destruct (nth_error token i) as [a|]; [|discriminate].
      destruct (nth_error token (i + 1)) as [b|]; [|discriminate].
      apply IH in Hrun.
      * rewrite length_store in Hrun by lia. destruct Hrun as (Hl & Ho & Hb).
        split; [exact Hl|]. split; [lia | exact Hb].
      * rewrite length_store by lia. lia.
      * intros k Hk. destruct (Nat.eq_dec k outLen) as [->|Hne].
        -- rewrite nth_store_eq by lia. unfold to_uint8, is_byte.
           apply Z.mod_pos_bound. lia.
        -- rewrite nth_store_lt by lia. apply Hbytes. lia.
    + inversion Hrun; subst. split; [reflexivity|]. split; [lia|assumption].
Qed.

(** Every byte [receive] reports is one it decoded, hence below 256. *)
Lemma receive_bytes buffer maxLen l len buffer' l' :
  receive buffer maxLen l = Some ((len, buffer'), l') ->
  maxLen <= length buffer ->
  len <= maxLen /\ forall k, k < len -> is_byte (nth k buffer' 0%Z).
Proof.
  rewrite receive_unfold. intros Hrun Hfit.
  assert (Hzero : forall x : LoRaComm.t, Some ((0, buffer), x) = Some ((len, buffer'), l') ->
                  len <= maxLen /\ forall k, k < len -> is_byte (nth k buffer' 0%Z)).
  { intros x Hx. inversion Hx; subst. split; [lia|]. intros k Hk. lia. }
  destruct (HardwareSerial.rx (_serial l)); [eauto|].
  destruct (read_line 511 _) as [line rest]. cbv zeta in Hrun.
  destruct (negb _); [eauto|].
  destruct (strtok (skipn 5 _)) as [[? save1]|]; [|eauto].
  destruct (strtok save1) as [[len_token save2]|]; [|eauto].
  destruct (strtok save2) as [[data_token save3]|]; [|eauto].
  destruct (hex_loop _ _ _ _ _ _) as [[b o]|] eqn:Hloop; [|discriminate].
  inversion Hrun; subst.
  apply hex_loop_bytes in Hloop; [|lia|intros k Hk; lia].
  destruct Hloop as (_ & Ho & Hb). split; [lia | exact Hb].
Qed.

End ReceivedBytes.

(** ** The control loop *)

Section MainFacts.
Context `{Primitives}.

Import Config ATECCX08A SecureElement LoRaComm Main Spec.

Ltac dev_red :=
  unfold set_secureElement, set_loraComm, set_braceClient, set_deviceRegistered,
    set_currentEpoch, set_commitmentBytes, set_lastReading, set_console;
  cbn [secureElement loraComm braceClient deviceRegistered currentEpoch
       commitmentBytes lastReading console negb];
  cbv beta iota.

Lemma handleIncomingMessage_run d :
  handleIncomingMessage d =
  match receive (repeat 0%Z 256) 256 (loraComm d) with
  | Some ((len, buffer), l') => Some (tt, dispatch len buffer (set_loraComm l' d))
  | None => None
  end.
Proof.
  unfold handleIncomingMessage, bind, Main.via_lora, zoom.
  destruct (receive (repeat 0%Z 256) 256 (loraComm d)) as [[[len buffer] l']|];
    [|reflexivity].
  unfold dispatch. destruct (Nat.ltb 0 len); [|reflexivity].
  cbv zeta. destruct (nth 0 buffer 0 =? 1)%Z; [reflexivity|].
  destruct (nth 0 buffer 0 =? 2)%Z; [destruct (Nat.leb 5 len); reflexivity|].
  destruct (nth 0 buffer 0 =? 3)%Z; reflexivity.
Qed.

(** C9: a received message of type 0x02 and at least five bytes replaces
    the held epoch by the big-endian value of bytes 1 to 4, whatever the
    epoch held before; a shorter 0x02 message, any other message type, and
    an empty reception leave the epoch as it was. *)
Theorem epoch_update_replaces_epoch (d : Device) (len : nat) (buffer : list Z)
        (l' : LoRaComm.t) :
  receive (repeat 0%Z 256) 256 (loraComm d) = Some ((len, buffer), l') ->
  exists d',
    handleIncomingMessage d = Some (tt, d') /\
    (0 < len -> nth 0 buffer 0%Z = 2%Z -> 5 <= len ->
       currentEpoch d' = of_be32 (nth 1 buffer 0%Z) (nth 2 buffer 0%Z)
                                 (nth 3 buffer 0%Z) (nth 4 buffer 0%Z)) /\
    (0 < len -> nth 0 buffer 0%Z = 2%Z -> len < 5 -> currentEpoch d' = currentEpoch d) /\
    (len = 0 \/ nth 0 buffer 0%Z <> 2%Z -> currentEpoch d' = currentEpoch d).
Proof.
  intros Hrecv. rewrite handleIncomingMessage_run, Hrecv.
  eexists. split; [reflexivity|].
  apply receive_bytes in Hrecv; [|rewrite repeat_length; lia].
  destruct Hrecv as [_ Hbytes]. unfold dispatch.
  split; [|split].
  - intros Hlen Htype Hfive.
    apply Nat.ltb_lt in Hlen. rewrite Hlen, Htype. apply Nat.leb_le in Hfive.
    rewrite Hfive. cbn [Z.eqb Pos.eqb]. cbv zeta. unfold log. dev_red.
    apply Nat.leb_le in Hfive.
    apply epoch_of_bytes; apply Hbytes; lia.
  - intros Hlen Htype Hshort.
    apply Nat.ltb_lt in Hlen. rewrite Hlen, Htype.
    replace (Nat.leb 5 len) with false by (symmetry; apply Nat.leb_gt; lia).
    reflexivity.
  - intros [-> | Htype]; [reflexivity|].
    destruct (Nat.ltb 0 len); [|reflexivity]. cbv zeta.
    destruct (nth 0 buffer 0 =? 1)%Z; [reflexivity|].
    destruct (Z.eqb_spec (nth 0 buffer 0%Z) 2); [contradiction|].
    destruct (nth 0 buffer 0 =? 3)%Z; reflexivity.
Qed.

(** *** The telemetry cycle *)

Lemma packet_layout e c nullifier sig :
  length c = 32 -> length nullifier = 32 -> length sig = 64 ->
  firstn (DataPacket.size - 64) (packet_buffer e c nullifier)
  = signed_fields e c nullifier /\
  firstn DataPacket.size
    (memcpy (packet_buffer e c nullifier) DataPacket.signature sig 64)
  = signed_fields e c nullifier ++ sig.
Proof.
  intros Hc Hn Hs. unfold packet_buffer, signed_fields, word_bytes.
  generalize (SensorData.temperature (reading e)) (SensorData.humidity (reading e))
    (SensorData.soilMoisture (reading e)) (stamp e).
  intros t hu so ts.
  generalize (t mod 256)%Z (t / 256 mod 256)%Z (t / 65536 mod 256)%Z (t / 16777216 mod 256)%Z
    (hu mod 256)%Z (hu / 256 mod 256)%Z (hu / 65536 mod 256)%Z (hu / 16777216 mod 256)%Z
    (so mod 256)%Z (so / 256 mod 256)%Z (so / 65536 mod 256)%Z (so / 16777216 mod 256)%Z
    (ts mod 256)%Z (ts / 256 mod 256)%Z (ts / 65536 mod 256)%Z (ts / 16777216 mod 256)%Z.
  intros.
  explode c Hc. explode nullifier Hn. explode sig Hs.
  split; reflexivity.
Qed.

Lemma signed_fields_length e c nullifier :
  length c = 32 -> length nullifier = 32 ->
  length (signed_fields e c nullifier) = 80.
Proof.
  intros Hc Hn. unfold signed_fields, word_bytes. rewrite !length_app, Hc, Hn.
  reflexivity.
Qed.

(** One telemetry cycle, case by case. *)
Lemma collectAndTransmitData_run e d :
  length (commitmentBytes d) = 32 ->
  exists d',
    collectAndTransmitData e d = Some (tt, d') /\
    braceClient d' = braceClient d /\ deviceRegistered d' = deviceRegistered d /\
    currentEpoch d' = currentEpoch d /\ commitmentBytes d' = commitmentBytes d /\
    lastReading d' = lastReading d /\
    match computeNullifier (currentEpoch d) (secureElement d) with
    | Some (Some n, s1) =>
        let unsigned := signed_fields e (commitmentBytes d) n in
        match sign unsigned s1 with
        | Some (Some sig, s2) =>
            secureElement d' = s2 /\
            exists ok l',
              transmit (unsigned ++ sig) (loraComm d) = Some (ok, l') /\
              loraComm d' = l' /\
              console d' = console d ++ cycle_head e
                             ++ [Transmitting;
                                 if ok then DataTransmitted else TransmissionFailed]
        | Some (None, s2) =>
            secureElement d' = s2 /\ loraComm d' = loraComm d /\
            console d' = console d ++ cycle_head e ++ [SigningFailed]
        | None => False
        end
    | Some (None, s1) =>
        secureElement d' = s1 /\ loraComm d' = loraComm d /\
        console d' = console d ++ cycle_head e ++ [NullifierFailed]
    | None => False
    end.
Proof.
  intros Hc. destruct d as [s l b reg epoch c last con]. cbn [commitmentBytes] in Hc.
  cbn [currentEpoch secureElement commitmentBytes loraComm console braceClient
       deviceRegistered lastReading].
  destruct (computeNullifier_run epoch s) as (n & s1 & Hn & _ & Hsome & _).
  assert (Hhead : forall k : unit -> M Device unit,
    bind (println CollectingSensorData)
      (fun _ => bind (if negb (SensorData.valid (reading e))
                      then println SensorReadError else ret tt)
         (fun _ => bind (println (Readings (reading e))) k))
      (Main.mk s l b reg epoch c last con)
    = k tt (Main.mk s l b reg epoch c last (con ++ cycle_head e))).
  { intros k. unfold bind, println, modify, ret, cycle_head.
    destruct (SensorData.valid (reading e)); dev_red;
      cbn [app]; rewrite <- !app_assoc; reflexivity. }
  unfold collectAndTransmitData. rewrite Hhead. clear Hhead.
  unfold bind at 1. unfold gets at 1. cbv beta iota.
  unfold bind at 1. unfold Main.via_se at 1. unfold zoom. dev_red.
  rewrite Hn. destruct n as [n|].
  2:{ unfold println, modify. dev_red. eexists. split; [reflexivity|].
      dev_red. rewrite <- app_assoc. repeat split. }
  pose proof (Hsome n eq_refl) as Hmac.
  assert (Hnl : length n = 32) by (rewrite Hmac; apply MAC_length).
  unfold bind at 1. unfold gets at 1. cbv beta iota. dev_red.
  fold (packet_buffer e c n). cbv zeta.
  destruct (sign_run (signed_fields e c n) s1) as (sg & s2 & Hs & _ & Hsg & _).
  assert (Hl1 : firstn (DataPacket.size - 64) (packet_buffer e c n) = signed_fields e c n).
  { destruct (@packet_layout e c n (repeat 0%Z 64) Hc Hnl (repeat_length _ _)) as [Hl _].
    exact Hl. }
  rewrite Hl1. unfold bind at 1. unfold Main.via_se at 1. unfold zoom. dev_red.
  rewrite Hs. destruct sg as [sig|].
  2:{ unfold println, modify. dev_red. eexists. split; [reflexivity|].
      dev_red. rewrite <- app_assoc. repeat split. }
  pose proof (Hsg sig eq_refl) as Hsig.
  assert (Hsl : length sig = 64) by (rewrite Hsig; apply ECDSA_length).
  destruct (@packet_layout e c n sig Hc Hnl Hsl) as [_ Hl2]. rewrite Hl2.
  assert (Hfit : length (signed_fields e c n ++ sig) <= 240).
  { rewrite length_app, signed_fields_length, Hsl by assumption. lia. }
  pose proof (@transmit_run _ l Hfit) as Htx. cbv zeta in Htx.
  unfold bind, println, modify, Main.via_lora, zoom. dev_red. rewrite Htx.
  destruct (acknowledged _); dev_red; eexists; (split; [reflexivity|]); dev_red;
    repeat split; eexists _, _; (split; [reflexivity|]); split; try reflexivity;
    rewrite <- !app_assoc; reflexivity.
Qed.

(** A cycle writes nothing to the radio, or the one [AT+SEND] line of a
    packet whose nullifier and signature are the chip's. *)
Lemma cycle_transmission e d :
  length (commitmentBytes d) = 32 ->
  exists d',
    collectAndTransmitData e d = Some (tt, d') /\
    (sent d' = sent d \/
     exists n sig,
       n = MAC (nullifier_message (currentEpoch d)) /\
       sig = ECDSA (SHA256 (signed_fields e (commitmentBytes d) n)) /\
       sent d' = sent d ++ [send_command (signed_fields e (commitmentBytes d) n ++ sig)]) /\
    (ready (secureElement d) -> sent d' <> sent d).
Proof.
  intros Hc. destruct (collectAndTransmitData_run e d Hc)
    as (d' & Hrun & _ & _ & _ & _ & _ & Hcases).
  exists d'. split; [exact Hrun|].
  destruct (computeNullifier_run (currentEpoch d) (secureElement d))
    as (n & s1 & Hn & _ & Hsome & Hready).
  rewrite Hn in Hcases. destruct n as [n|].
  2:{ destruct Hcases as (_ & Hl & _). split.
      - left. unfold sent. now rewrite Hl.
      - intros Hr. apply Hready in Hr. destruct Hr. discriminate. }
  pose proof (Hsome n eq_refl) as Hmac. cbv zeta in Hcases.
  destruct (sign_run (signed_fields e (commitmentBytes d) n) s1)
    as (sg & s2 & Hs & _ & Hsg & Hready2).
  rewrite Hs in Hcases. destruct sg as [sig|].
  2:{ destruct Hcases as (_ & Hl & _). split.
      - left. unfold sent. now rewrite Hl.
      - intros Hr. apply Hready in Hr. destruct Hr as [_ Hr].
        apply Hready2 in Hr. destruct Hr. discriminate. }
  pose proof (Hsg sig eq_refl) as Hsig.
  destruct Hcases as (_ & ok & l' & Htx & Hl & _).
  assert (Hfit : length (signed_fields e (commitmentBytes d) n ++ sig) <= 240).
  { rewrite length_app, signed_fields_length, Hsig, ECDSA_length;
      [lia | exact Hc | rewrite Hmac; apply MAC_length]. }
  rewrite transmit_run in Htx by exact Hfit. inversion Htx as [[Hok Hl']].
  assert (Hsent : sent d' = sent d
                    ++ [send_command (signed_fields e (commitmentBytes d) n ++ sig)]).
  { unfold sent. rewrite Hl, <- Hl'. reflexivity. }
  split.
  - right. exists n, sig. rewrite <- Hmac, <- Hsig. repeat split. exact Hsent.
  - intros _. rewrite Hsent. intros Heq.
    apply (f_equal (@length _)) in Heq. rewrite length_app in Heq.
    cbn [length] in Heq. lia.
Qed.

Lemma sent_one (old : list (list ascii)) a b : old ++ [a] = old ++ [b] -> a = b.
Proof. intros E. apply app_inv_head in E. now inversion E. Qed.

Lemma sent_none (old : list (list ascii)) a : old <> old ++ [a].
Proof.
  intros E. apply (f_equal (@length _)) in E. rewrite length_app in E.
  cbn [length] in E. lia.
Qed.

(** C4 (as amended): the DataPacket is 144 bytes, 32+4+4+4+4+32+64, its
    members at offsets 0, 32, 36, 40, 44, 48 and 80 without padding, and
    the payload of the [AT+SEND] line a telemetry cycle writes is the whole
    record: commitment ‖ temperature ‖ humidity ‖ soilMoisture ‖ timestamp ‖
    nullifier ‖ signature. *)
Theorem data_packet_is_144_bytes (e : Tick) (d : Device) :
  length (commitmentBytes d) = 32 ->
  DataPacket.size = 144 /\
  Layout.offsets_from 0 DataPacket.members = [0; 32; 36; 40; 44; 48; 80] /\
  list_sum (map Layout.size_of DataPacket.members) = DataPacket.size /\
  exists d',
    collectAndTransmitData e d = Some (tt, d') /\
    forall line, sent d' = sent d ++ [line] ->
      exists nullifier signature,
        let packet :=
          commitmentBytes d
            ++ word_bytes (SensorData.temperature (reading e))
            ++ word_bytes (SensorData.humidity (reading e))
            ++ word_bytes (SensorData.soilMoisture (reading e))
            ++ word_bytes (stamp e)
            ++ nullifier ++ signature in
        length nullifier = 32 /\ length signature = 64 /\
        length packet = 144 /\ line = send_command packet.
Proof.
  intros Hc. split; [reflexivity|]. split; [reflexivity|]. split; [reflexivity|].
  destruct (cycle_transmission e d Hc) as (d' & Hrun & Hsent & _).
  exists d'. split; [exact Hrun|]. intros line Hline.
  destruct Hsent as [Hsame | (n & sig & Hn & Hsig & Hsent)].
  { rewrite Hsame in Hline. destruct (@sent_none _ _ Hline). }
  rewrite Hsent in Hline. apply sent_one in Hline. subst line.
  exists n, sig. cbv zeta.
  assert (Hnl : length n = 32) by (rewrite Hn; apply MAC_length).
  assert (Hsl : length sig = 64) by (rewrite Hsig; apply ECDSA_length).
  split; [exact Hnl|]. split; [exact Hsl|]. split.
  - unfold word_bytes. rewrite !length_app, Hc, Hnl, Hsl. reflexivity.
  - unfold signed_fields. rewrite <- !app_assoc. reflexivity.
Qed.

(** C6: the nullifier a telemetry cycle puts in the packet it sends is
    MAC(device key, "msingi:nullifier:v1" ‖ epoch as four big-endian bytes)
    of the epoch held; with epoch 5 the MAC is taken over the tag followed
    by 00 00 00 05.  With a working secure element the packet is sent. *)
Theorem telemetry_nullifier (e : Tick) (d : Device) :
  length (commitmentBytes d) = 32 ->
  exists d',
    collectAndTransmitData e d = Some (tt, d') /\
    (ready (secureElement d) -> sent d' <> sent d) /\
    forall line, sent d' = sent d ++ [line] ->
      exists packet,
        line = send_command packet /\ length packet = DataPacket.size /\
        firstn 32 (skipn DataPacket.nullifier packet)
        = MAC (bytes_of NULLIFIER_DOMAIN ++ be32 (currentEpoch d)) /\
        (currentEpoch d = 5%Z ->
         firstn 32 (skipn DataPacket.nullifier packet)
         = MAC (bytes_of "msingi:nullifier:v1" ++ [0; 0; 0; 5]%Z)).
Proof.
  intros Hc. destruct (cycle_transmission e d Hc) as (d' & Hrun & Hsent & Hready).
  exists d'. split; [exact Hrun|]. split; [exact Hready|]. intros line Hline.
  destruct Hsent as [Hsame | (n & sig & Hn & Hsig & Hsent)].
  { rewrite Hsame in Hline. destruct (@sent_none _ _ Hline). }
  rewrite Hsent in Hline. apply sent_one in Hline. subst line.
  assert (Hnl : length n = 32) by (rewrite Hn; apply MAC_length).
  assert (Hsl : length sig = 64) by (rewrite Hsig; apply ECDSA_length).
  assert (Hfield : firstn 32 (skipn DataPacket.nullifier
                     (signed_fields e (commitmentBytes d) n ++ sig)) = n).
  { unfold signed_fields, word_bytes.
    change DataPacket.nullifier with (16 + 32).
    rewrite <- !app_assoc, <- skipn_skipn.
    rewrite skipn_app, Hc, Nat.sub_diag, (skipn_all2 (commitmentBytes d)) by lia.
    cbn [app skipn].
    rewrite firstn_app, Hnl, Nat.sub_diag, (firstn_all2 n) by lia.
    cbn [firstn]. apply app_nil_r. }
  exists (signed_fields e (commitmentBytes d) n ++ sig).
  split; [reflexivity|]. split.
  - rewrite length_app, signed_fields_length, Hsl by assumption. reflexivity.
  - rewrite Hfield. split; [exact Hn|]. intros H5. rewrite Hn, H5. reflexivity.
Qed.

(** C8: in a telemetry cycle whose nullifier was computed, the bytes given
    to [sign] are the record's members before the signature, commitment
    through nullifier, [sizeof(DataPacket) - 64] of them.  If that call
    fails, the cycle ends with the radio driver and its UART untouched; if
    it succeeds, the signature is the chip's signature of the SHA-256 digest
    of exactly those bytes, and what is then sent is those bytes followed by
    the signature. *)
Theorem signing_guards_transmission (e : Tick) (d : Device) (n : list Z)
        (s1 s2 : SecureElement.t) (r : option (list Z)) :
  length (commitmentBytes d) = 32 ->
  computeNullifier (currentEpoch d) (secureElement d) = Some (Some n, s1) ->
  sign (firstn (DataPacket.size - 64) (packet_buffer e (commitmentBytes d) n)) s1
  = Some (r, s2) ->
  let signed := signed_fields e (commitmentBytes d) n in
  firstn (DataPacket.size - 64) (packet_buffer e (commitmentBytes d) n) = signed /\
  length signed = DataPacket.size - 64 /\
  exists d',
    collectAndTransmitData e d = Some (tt, d') /\
    match r with
    | None => loraComm d' = loraComm d
    | Some sig =>
        sig = ECDSA (SHA256 signed) /\
        sent d' = sent d ++ [send_command (signed ++ sig)]
    end.
Proof.
  intros Hc Hn Hs signed.
  destruct (computeNullifier_run (currentEpoch d) (secureElement d))
    as (n' & s1' & Hn' & _ & Hsome & _).
  rewrite Hn in Hn'. inversion Hn'; subst n' s1'.
  assert (Hnl : length n = 32) by (rewrite (Hsome n eq_refl); apply MAC_length).
  destruct (@packet_layout e (commitmentBytes d) n (repeat 0%Z 64) Hc Hnl
              (repeat_length _ _)) as [Hl _].
  rewrite Hl in Hs. split; [exact Hl|].
  split; [apply signed_fields_length; assumption|].
  destruct (collectAndTransmitData_run e d Hc)
    as (d' & Hrun & _ & _ & _ & _ & _ & Hcases).
  exists d'. split; [exact Hrun|].
  rewrite Hn in Hcases. cbv zeta in Hcases. fold signed in Hcases.
  subst signed. rewrite Hs in Hcases.
  destruct (sign_run (signed_fields e (commitmentBytes d) n) s1)
    as (r' & s2' & Hs' & _ & Hsg & _).
  rewrite Hs in Hs'. inversion Hs'; subst r' s2'.
  destruct r as [sig|].
  - pose proof (Hsg sig eq_refl) as Hsig. split; [exact Hsig|].
    destruct Hcases as (_ & ok & l' & Htx & Hl' & _).
    assert (Hfit : length (signed_fields e (commitmentBytes d) n ++ sig) <= 240).
    { rewrite length_app, signed_fields_length, Hsig, ECDSA_length by assumption. lia. }
    rewrite transmit_run in Htx by exact Hfit. inversion Htx as [[Hok Hl'']].
    unfold sent. rewrite Hl', <- Hl''. reflexivity.
  - destruct Hcases as (_ & Hl' & _). exact Hl'.
Qed.

(** *** One turn of the loop *)

Lemma loop_run e d :
  loop e d =
  if pending (arrive e d) then
    match handleIncomingMessage (arrive e d) with
    | Some (_, d1) => scheduled_cycle e d1
    | None => None
    end
  else scheduled_cycle e (arrive e d).
Proof.
  unfold loop. unfold bind at 1. unfold Main.via_lora at 1, serial, zoom, modify.
  cbv beta iota. fold (arrive e d). generalize (arrive e d). clear d. intros d.
  unfold bind at 1. unfold Main.via_lora at 1, zoom, LoRaComm.available, gets.
  cbv beta iota. fold (pending d).
  assert (Htail : forall d1 : Device,
    bind (gets lastReading)
      (fun last =>
         if (SENSOR_INTERVAL_MS <=? to_uint32 (now e - last))%Z || (last =? 0)%Z
         then bind (modify (set_lastReading (now e)))
                (fun _ => bind (gets deviceRegistered)
                   (fun registered =>
                      if negb registered then attemptRegistration
                      else collectAndTransmitData e))
         else ret tt) d1
    = scheduled_cycle e d1).
  { intros d1. unfold scheduled_cycle, due, bind, gets, modify, ret. cbv beta iota.
    destruct (_ || _); [|reflexivity].
    destruct d1 as [s l b reg ep c last con]. dev_red. now destruct reg. }
  assert (Hsame : set_loraComm (loraComm d) d = d) by (now destruct d).
  rewrite Hsame. unfold bind at 1.
  destruct (pending d).
  - destruct (handleIncomingMessage d) as [[[] d1]|]; [apply Htail | reflexivity].
  - unfold ret at 1. apply Htail.
Qed.

Lemma dispatch_frame len buffer d :
  let d' := dispatch len buffer d in
  secureElement d' = secureElement d /\ loraComm d' = loraComm d /\
  braceClient d' = braceClient d /\ commitmentBytes d' = commitmentBytes d /\
  lastReading d' = lastReading d.
Proof.
  unfold dispatch. destruct d as [s l b reg ep c last con].
  destruct (Nat.ltb 0 len); [|repeat split]. cbv zeta.
  destruct (nth 0 buffer 0 =? 1)%Z; [repeat split|].
  destruct (nth 0 buffer 0 =? 2)%Z; [destruct (Nat.leb 5 len); repeat split|].
  destruct (nth 0 buffer 0 =? 3)%Z; repeat split.
Qed.

Lemma handleIncomingMessage_frame d d' :
  handleIncomingMessage d = Some (tt, d') ->
  secureElement d' = secureElement d /\ braceClient d' = braceClient d /\
  commitmentBytes d' = commitmentBytes d /\ lastReading d' = lastReading d.
Proof.
  rewrite handleIncomingMessage_run.
  destruct (receive _ _ _) as [[[len buffer] l']|]; [|discriminate].
  intros E. inversion E; subst.
  destruct (dispatch_frame len buffer (set_loraComm l' d)) as (Hs & _ & Hb & Hc & Hl).
  rewrite Hs, Hb, Hc, Hl. now destruct d.
Qed.

Lemma getCommitment_run c h :
  BraceClient.getCommitment c h =
  Some (if negb (BraceClient._registered (BraceClient.self h)) then (false, c)
        else (true, memcpy c 0 (BraceClient._commitment (BraceClient.self h)) 32),
        h).
Proof.
  unfold BraceClient.getCommitment, bind, gets, ret. cbv beta iota.
  now destruct (negb _).
Qed.

Lemma attemptRegistration_frame d d' :
  attemptRegistration d = Some (tt, d') ->
  BraceClient._registered (braceClient d') = BraceClient._registered (braceClient d) /\
  (BraceClient._registered (braceClient d) = false ->
   commitmentBytes d' = commitmentBytes d) /\
  exists rest, console d' = console d ++ AttemptingRegistration :: rest.
Proof.
  unfold attemptRegistration, bind, println, modify, Main.via_brace, zoom.
  destruct d as [s l b reg ep c last con]. dev_red.
  destruct (BraceClient.registerDevice _) as [[ok h1]|] eqn:Hreg; [|discriminate].
  apply registerDevice_registered in Hreg. cbn [BraceClient.self] in Hreg.
  destruct ok; dev_red.
  - unfold gets at 1. dev_red. rewrite getCommitment_run.
    cbn [BraceClient.self BraceClient.se BraceClient.lora]. dev_red.
    destruct h1 as [b1 s1 l1]. cbn [BraceClient.self BraceClient.se BraceClient.lora] in *.
    destruct (BraceClient._registered b1) eqn:Hflag; dev_red;
      intros E; inversion E; subst; dev_red.
    + split; [congruence|]. split; [congruence|]. rewrite <- app_assoc. eexists. reflexivity.
    + split; [congruence|]. split; [reflexivity|]. rewrite <- app_assoc. eexists. reflexivity.
  - intros E. inversion E; subst. dev_red.
    split; [exact Hreg|]. split; [reflexivity|]. rewrite <- app_assoc. eexists. reflexivity.
Qed.

Lemma collectAndTransmitData_frame e d d' :
  collectAndTransmitData e d = Some (tt, d') ->
  braceClient d' = braceClient d /\ commitmentBytes d' = commitmentBytes d.
Proof.
  unfold collectAndTransmitData, bind, println, modify, gets, ret,
    Main.via_se, Main.via_lora, zoom.
  destruct d as [s l b reg ep c last con]. dev_red.
  destruct (negb (SensorData.valid (reading e))); dev_red.
  all: destruct (computeNullifier ep s) as [[[n|] s1]|]; dev_red;
    [| intros E; inversion E; subst; split; reflexivity | discriminate].
  all: match goal with
       | |- context [sign ?x ?y] =>
           destruct (sign x y) as [[[sig|] s2]|]; dev_red;
             [| intros E; inversion E; subst; split; reflexivity | discriminate]
       end.
  all: match goal with
       | |- context [transmit ?x ?y] =>
           destruct (transmit x y) as [[[|] l1]|]; dev_red;
             [| | discriminate]
       end.
  all: intros E; inversion E; subst; split; reflexivity.
Qed.

Lemma loop_frame e d d' :
  loop e d = Some (tt, d') ->
  BraceClient._registered (braceClient d') = BraceClient._registered (braceClient d) /\
  (BraceClient._registered (braceClient d) = false ->
   commitmentBytes d' = commitmentBytes d).
Proof.
  rewrite loop_run.
  assert (Hcycle : forall d1, scheduled_cycle e d1 = Some (tt, d') ->
    BraceClient._registered (braceClient d') = BraceClient._registered (braceClient d1) /\
    (BraceClient._registered (braceClient d1) = false ->
     commitmentBytes d' = commitmentBytes d1)).
  { intros d1. unfold scheduled_cycle. destruct (due e d1).
    - destruct (negb (deviceRegistered d1)); intros Hrun.
      + apply attemptRegistration_frame in Hrun. destruct Hrun as (Hr & Hc & _).
        destruct d1; exact (conj Hr Hc).
      + apply collectAndTransmitData_frame in Hrun. destruct Hrun as [Hb Hc].
        rewrite Hb, Hc. destruct d1; split; reflexivity.
    - intros E. inversion E; subst. split; reflexivity. }
  assert (Harrive : braceClient (arrive e d) = braceClient d /\
                    commitmentBytes (arrive e d) = commitmentBytes d)
    by (destruct d; split; reflexivity).
  destruct Harrive as [Hb0 Hc0].
  destruct (pending (arrive e d)).
  - destruct (handleIncomingMessage (arrive e d)) as [[[] d1]|] eqn:Hh; [|discriminate].
    apply handleIncomingMessage_frame in Hh. destruct Hh as (_ & Hb & Hc & _).
    intros Hrun. apply Hcycle in Hrun. rewrite Hb, Hc, Hb0, Hc0 in Hrun. exact Hrun.
  - intros Hrun. apply Hcycle in Hrun. rewrite Hb0, Hc0 in Hrun. exact Hrun.
Qed.

Lemma cycle_console e d :
  length (commitmentBytes d) = 32 ->
  exists d' rest,
    collectAndTransmitData e d = Some (tt, d') /\
    braceClient d' = braceClient d /\
    console d' = console d ++ CollectingSensorData :: rest.
Proof.
  intros Hc. destruct (collectAndTransmitData_run e d Hc)
    as (d' & Hrun & Hb & _ & _ & _ & _ & Hcases).
  exists d'.
  assert (Hcon : exists tail, console d' = console d ++ cycle_head e ++ tail).
  { destruct (computeNullifier _ _) as [[[n|] s1]|]; [| | contradiction].
    - cbv zeta in Hcases. destruct (sign _ _) as [[[sig|] s2]|]; [| | contradiction].
      + destruct Hcases as (_ & ok & l' & _ & _ & Hcon). eauto.
      + destruct Hcases as (_ & _ & Hcon). eauto.
    - destruct Hcases as (_ & _ & Hcon). eauto. }
  destruct Hcon as [tail Hcon]. unfold cycle_head in Hcon. cbn [app] in Hcon.
  eexists. split; [exact Hrun|]. split; [exact Hb|]. exact Hcon.
Qed.

(** [begin] is where the flag is raised, and only when the chip yields a
    key for the blinding-factor slot. *)
Lemma begin_registered h h' :
  BraceClient.begin h = Some (tt, h') ->
  BraceClient._registered (BraceClient.self h') = true ->
  exists key,
    slot_key (atecc (BraceClient.se h)) SLOT_BLINDING_FACTOR = Some key.
Proof.
  destruct h as [c s l]. unfold BraceClient.begin, bind, BraceClient.this, zoom, modify.
  cbn [BraceClient.self BraceClient.set_self BraceClient.se BraceClient.lora].
  unfold BraceClient.set_self. cbn [BraceClient.se BraceClient.lora].
  rewrite via_se_run.
  destruct (getPublicKey_run SLOT_BLINDING_FACTOR s) as (r & s1 & Hrun & _ & Hsome & _).
  rewrite Hrun. destruct r as [testKey|].
  - intros _ _. destruct (Hsome testKey eq_refl) as (key & Hkey & _). now exists key.
  - unfold ret. intros E. inversion E; subst. discriminate.
Qed.

Lemma run_frame ticks : forall d d',
  run ticks d = Some (tt, d') ->
  BraceClient._registered (braceClient d') = BraceClient._registered (braceClient d) /\
  (BraceClient._registered (braceClient d) = false ->
   commitmentBytes d' = commitmentBytes d).
Proof.
  induction ticks as [|e ticks IH]; intros d d' Hrun.
  - inversion Hrun; subst. split; reflexivity.
  - cbn [run] in Hrun. apply bind_run in Hrun.
    destruct Hrun as ([] & d1 & Hloop & Hrest).
    apply loop_frame in Hloop. apply IH in Hrest.
    destruct Hloop as [Hr1 Hc1]. destruct Hrest as [Hr2 Hc2].
    split; [congruence|]. intros Hfalse.
    rewrite Hc2, Hc1 by congruence. reflexivity.
Qed.

(** C7: the client's [_registered] flag is raised by [begin] alone;
    [registerDevice], [getCommitment] and the turns of the control loop,
    registration acknowledgments included, leave it as it is.  For a device
    whose client left [begin] unregistered, however many turns run,
    [isRegistered] answers false, [getCommitment] fails without writing, and
    the commitment bytes held by the control loop are never updated. *)
Theorem registered_flag_only_set_by_begin (ticks : list Tick) (d d' : Device) :
  BraceClient._registered (braceClient d) = false ->
  run ticks d = Some (tt, d') ->
  BraceClient._registered (braceClient d') = false /\
  BraceClient.isRegistered (heap_of d') = Some (false, heap_of d') /\
  (forall c, BraceClient.getCommitment c (heap_of d') = Some ((false, c), heap_of d')) /\
  commitmentBytes d' = commitmentBytes d /\
  (forall h ok h', BraceClient.registerDevice h = Some (ok, h') ->
     BraceClient._registered (BraceClient.self h')
     = BraceClient._registered (BraceClient.self h)) /\
  (forall c h r h', BraceClient.getCommitment c h = Some (r, h') -> h' = h).
Proof.
  intros Hfalse Hrun. apply run_frame in Hrun. destruct Hrun as [Hreg Hc].
  rewrite Hfalse in Hreg. split; [exact Hreg|]. split.
  - unfold BraceClient.isRegistered, gets, heap_of. cbn [BraceClient.self].
    now rewrite Hreg.
  - split.
    + intros c. rewrite getCommitment_run. unfold heap_of at 1.
      cbn [BraceClient.self]. now rewrite Hreg.
    + split; [exact (Hc Hfalse)|]. split.
      * intros h ok h'. apply registerDevice_registered.
      * intros c h r h' Hget. rewrite getCommitment_run in Hget. now inversion Hget.
Qed.

End MainFacts.

(** ** The properties on the bench device *)

Section OnTheBench.

Import Libc Spec Main.

#[local] Existing Instance Bench.primitives.

Lemma bench_ready : ready (Bench.secure_element []).
Proof. split; [reflexivity | constructor]. Qed.

(** C2, as the specification has it: on a Registered client [registerDevice]
    succeeds, replaces the blinding factor and the commitment, and writes a
    command to the radio. *)
Lemma registerDevice_registered_acts :
  BraceClient._registered (BraceClient.self Bench.registered_heap) = true /\
  BraceClient.registerDevice Bench.registered_heap
  <> Some (false, Bench.registered_heap) /\
  exists h',
    BraceClient.registerDevice Bench.registered_heap = Some (true, h') /\
    BraceClient._blindingFactor (BraceClient.self h')
    <> BraceClient._blindingFactor (BraceClient.self Bench.registered_heap) /\
    BraceClient._commitment (BraceClient.self h')
    <> BraceClient._commitment (BraceClient.self Bench.registered_heap) /\
    HardwareSerial.tx (LoRaComm._serial (BraceClient.lora h'))
    <> HardwareSerial.tx (LoRaComm._serial (BraceClient.lora Bench.registered_heap)).
Proof.
  split; [reflexivity|]. split.
  - intros E. vm_compute in E. discriminate.
  - eexists. split; [vm_compute; reflexivity|].
    repeat split; intros E; vm_compute in E; discriminate.
Qed.

(** The Registered client of the bench registers again. *)
Lemma registerDevice_when_registered_witness :
  exists h',
    BraceClient.registerDevice Bench.registered_heap = Some (true, h') /\
    BraceClient._blindingFactor (BraceClient.self h') = Bench.fresh_random /\
    BraceClient._registered (BraceClient.self h') = true.
Proof.
  destruct (@registerDevice_when_registered Bench.primitives Bench.registered_heap
              Bench.public_key Bench.fresh_random [])
    as (h' & Hrun & Hr & _ & _ & Hreg & _);
    try reflexivity.
  - exact bench_ready.
  - exists h'. split; [exact Hrun|]. split; [exact Hr | exact Hreg].
Defined.

(** The commitment of the bench key and blinding factor. *)
Lemma commitment_is_domain_separated_hash_witness :
  exists h',
    BraceClient.computeCommitment Bench.blinded_heap = Some (true, h') /\
    BraceClient._commitment (BraceClient.self h')
    = SHA256 (commitment_preimage Bench.public_key Bench.fresh_random).
Proof.
  destruct (@commitment_is_domain_separated_hash Bench.primitives Bench.blinded_heap
              Bench.public_key Bench.fresh_random)
    as (h' & Hrun & Hc & _);
    try reflexivity.
  - exact bench_ready.
  - exists h'. split; [exact Hrun | exact Hc].
Defined.

(** C4, as the specification has it: the record is not 168 bytes long, and neither
    is the payload of a telemetry cycle. *)
Lemma data_packet_not_168_bytes :
  DataPacket.size <> 168 /\
  let e := Bench.tick 2000000 [] in
  let d := Bench.enrolled_device 5 [] [] in
  let signed := signed_fields e (commitmentBytes d) (MAC (nullifier_message 5)) in
  let payload := signed ++ ECDSA (SHA256 signed) in
  exists d',
    collectAndTransmitData e d = Some (tt, d') /\
    sent d' = [send_command payload] /\
    length payload = 144 /\ length payload <> 168.
Proof.
  split; [vm_compute; discriminate|]. cbv zeta. eexists.
  split; [vm_compute; reflexivity|]. split; [vm_compute; reflexivity|].
  split; [reflexivity | vm_compute; discriminate].
Qed.

(** A telemetry cycle of the bench device at epoch 5. *)
Lemma data_packet_is_144_bytes_witness :
  DataPacket.size = 144 /\
  Layout.offsets_from 0 DataPacket.members = [0; 32; 36; 40; 44; 48; 80].
Proof.
  destruct (@data_packet_is_144_bytes Bench.primitives (Bench.tick 2000000 [])
              (Bench.enrolled_device 5 [] []) eq_refl)
    as (Hsize & Hoffsets & _).
  exact (conj Hsize Hoffsets).
Defined.

(** The same cycle sends its packet. *)
Lemma telemetry_nullifier_witness :
  exists d',
    collectAndTransmitData (Bench.tick 2000000 []) (Bench.enrolled_device 5 [] [])
    = Some (tt, d') /\
    sent d' <> sent (Bench.enrolled_device 5 [] []).
Proof.
  destruct (@telemetry_nullifier Bench.primitives (Bench.tick 2000000 [])
              (Bench.enrolled_device 5 [] []) eq_refl)
    as (d' & Hrun & Hsent & _).
  exists d'. split; [exact Hrun|]. apply Hsent. exact bench_ready.
Defined.

(** A chip that computes the MAC and then fails the first command of the
    digest: the cycle leaves the radio alone. *)
Lemma signing_guards_transmission_witness :
  exists d',
    collectAndTransmitData (Bench.tick 2000000 [])
      (Bench.enrolled_device 5 [true; false] [])
    = Some (tt, d') /\
    loraComm d' = loraComm (Bench.enrolled_device 5 [true; false] []).
Proof.
  pose (e := Bench.tick 2000000 []).
  pose (d := Bench.enrolled_device 5 [true; false] []).
  eassert (Hn : SecureElement.computeNullifier (currentEpoch d) (secureElement d)
                = Some (Some _, _)) by (vm_compute; reflexivity).
  match type of Hn with
  | _ = Some (Some ?n, ?s1) =>
      eassert (Hs : SecureElement.sign
                      (firstn (DataPacket.size - 64)
                         (packet_buffer e (commitmentBytes d) n)) s1
                    = Some (None, _)) by (vm_compute; reflexivity)
  end.
  destruct (@signing_guards_transmission Bench.primitives e d _ _ _ _ eq_refl Hn Hs)
    as (_ & _ & d' & Hrun & Hradio).
  exists d'. split; [exact Hrun | exact Hradio].
Defined.

(** An epoch update that lowers the epoch from 5 to 3. *)
Lemma epoch_update_replaces_epoch_witness :
  exists d',
    handleIncomingMessage (Bench.enrolled_device 5 [] Bench.epoch_frame) = Some (tt, d') /\
    currentEpoch d' = 3%Z /\
    (currentEpoch d' < currentEpoch (Bench.enrolled_device 5 [] Bench.epoch_frame))%Z.
Proof.
  pose (d := Bench.enrolled_device 5 [] Bench.epoch_frame).
  eassert (Hrecv : LoRaComm.receive (repeat 0%Z 256) 256 (loraComm d)
                   = Some ((5, _), _)) by (vm_compute; reflexivity).
  destruct (@epoch_update_replaces_epoch d _ _ _ Hrecv)
    as (d' & Hrun & Hset & _).
  assert (Hepoch : currentEpoch d' = 3%Z).
  { rewrite Hset; [reflexivity | repeat constructor | reflexivity | repeat constructor]. }
  exists d'. split; [exact Hrun|]. split; [exact Hepoch|].
  rewrite Hepoch. reflexivity.
Defined.

(** A device that enrolls in its first turn, is acknowledged in the second
    and transmits in the third: the loop considers it registered, the
    client does not. *)
Lemma registered_flag_only_set_by_begin_witness :
  exists d',
    run [Bench.tick 1000 []; Bench.tick 1100 Bench.ack_frame; Bench.tick 1801100 []]
        Bench.fresh_device
    = Some (tt, d') /\
    deviceRegistered d' = true /\
    BraceClient._registered (braceClient d') = false /\
    commitmentBytes d' = repeat 0%Z 32.
Proof.
  destruct (run [Bench.tick 1000 []; Bench.tick 1100 Bench.ack_frame;
                 Bench.tick 1801100 []] Bench.fresh_device)
    as [[[] d']|] eqn:Hrun; [|vm_compute in Hrun; discriminate].
  destruct (@registered_flag_only_set_by_begin Bench.primitives
              [Bench.tick 1000 []; Bench.tick 1100 Bench.ack_frame; Bench.tick 1801100 []]
              Bench.fresh_device d' eq_refl Hrun)
    as (Hflag & _ & _ & Hc & _).
  exists d'. split; [reflexivity|]. split; [|split; [exact Hflag | exact Hc]].
  vm_compute in Hrun. inversion Hrun. reflexivity.
Defined.

End OnTheBench.

(** ** Numerals and tokens of a frame *)

Section Numerals.

Import Libc LoRaComm Spec Frames.

Lemma uint_digits d : forallb is_digit (chars (NilEmpty.string_of_uint d)) = true.
Proof. induction d; cbn; auto. Qed.

Lemma digits_uint d : forall acc rest,
  digits 10 (Z.of_nat acc) (chars (NilEmpty.string_of_uint d) ++ rest)
  = digits 10 (Z.of_nat (Nat.of_uint_acc d acc)) rest.
Proof.
  induction d; intros acc rest; [reflexivity | ..];
    cbn [NilEmpty.string_of_uint chars list_ascii_of_string app digits Nat.of_uint_acc];
    rewrite Nat.tail_mul_spec;
    match goal with
    | |- context [digit_of ?c] =>
        let v := eval vm_compute in (digit_of c) in
        change (digit_of c) with v
    end;
    cbv beta iota;
    match goal with
    | |- context [(?k <? 10)%Z] => change (k <? 10)%Z with true
    end;
    cbv beta iota; rewrite <- IHd; f_equal; lia.
Qed.

Lemma is_digit_facts c :
  is_digit c = true ->
  word c = true /\ isspace c = false /\ Ascii.eqb c "-" = false /\
  Ascii.eqb c "+" = false.
Proof.
  destruct c as [[] [] [] [] [] [] [] []]; intros Hd; try discriminate Hd;
    repeat split; reflexivity.
Qed.

Lemma forallb_impl {A} (p q : A -> bool) l :
  (forall a, p a = true -> q a = true) -> forallb p l = true -> forallb q l = true.
Proof.
  intros Hpq. induction l as [|a l IH]; cbn; [reflexivity|].
  intros Hl. apply andb_prop in Hl as [Ha Hl]. rewrite (Hpq _ Ha). rewrite IH by exact Hl. reflexivity.
Qed.

Lemma decimal_nonempty n : decimal n <> [].
Proof.
  unfold decimal. intros Hnil.
  assert (Hd : Nat.to_uint n = Decimal.Nil).
  { destruct (Nat.to_uint n); [reflexivity | discriminate Hnil ..]. }
  apply (DecimalFacts.unorm_nonnil (Nat.to_uint n)).
  rewrite <- DecimalNat.Unsigned.to_of, DecimalNat.Unsigned.of_to. exact Hd.
Qed.

Lemma decimal_digits n : forallb is_digit (decimal n) = true.
Proof. apply uint_digits. Qed.

Lemma decimal_word n : forallb word (decimal n) = true.
Proof.
  apply (forallb_impl is_digit); [|apply decimal_digits].
  intros c Hc. apply (@is_digit_facts c Hc).
Qed.

Lemma digits_decimal n c rest :
  digit_of c = None -> digits 10 0 (decimal n ++ c :: rest) = Z.of_nat n.
Proof.
  intros Hc. unfold decimal.
  change 0%Z with (Z.of_nat 0).
  rewrite (digits_uint (Nat.to_uint n) 0 (c :: rest)).
  change (Nat.of_uint_acc (Nat.to_uint n) 0) with (Nat.of_uint (Nat.to_uint n)).
  rewrite DecimalNat.Unsigned.of_to. cbn [digits]. rewrite Hc. reflexivity.
Qed.

Lemma strtol_decimal n c rest :
  digit_of c = None ->
  strtol (decimal n ++ c :: rest) 10 = Z.max LONG_MIN (Z.min LONG_MAX (Z.of_nat n)).
Proof.
  intros Hc. unfold strtol.
  pose proof (@digits_decimal n c rest Hc) as Hd.
  pose proof (decimal_digits n) as Hall.
  destruct (decimal n) as [|d ds] eqn:Hn; [destruct (@decimal_nonempty n Hn)|].
  cbn [forallb] in Hall. apply andb_prop in Hall as [Hd0 _].
  destruct (@is_digit_facts d Hd0) as (_ & Hsp & Hm & Hp).
  cbn [app skip_space take_sign] in *. rewrite Hsp. cbn [take_sign]. rewrite Hm, Hp.
  change (10 =? 16)%Z with false. cbv iota. rewrite Hd. reflexivity.
Qed.

Lemma atoi_sdecimal z c rest :
  digit_of c = None -> (LONG_MIN <= z <= LONG_MAX)%Z ->
  atoi (sdecimal z ++ c :: rest) = z.
Proof.
  intros Hc Hz. unfold atoi, sdecimal. destruct (z <? 0)%Z eqn:Hneg.
  - apply Z.ltb_lt in Hneg.
    pose proof (@digits_decimal (Z.to_nat (- z)) c rest Hc) as Hd.
    unfold strtol. cbn [app skip_space]. change (isspace "-") with false. cbv iota.
    cbn [take_sign]. change (Ascii.eqb "-" "-") with true. cbv iota.
    change (10 =? 16)%Z with false. cbv iota. rewrite Hd.
    unfold LONG_MIN, LONG_MAX in *. lia.
  - apply Z.ltb_ge in Hneg. rewrite strtol_decimal by exact Hc.
    unfold LONG_MIN, LONG_MAX in *. lia.
Qed.

Lemma sdecimal_word z : forallb word (sdecimal z) = true.
Proof.
  unfold sdecimal. destruct (z <? 0)%Z; cbn [forallb]; rewrite decimal_word; reflexivity.
Qed.

Lemma sdecimal_nonempty z : sdecimal z <> [].
Proof.
  unfold sdecimal. destruct (z <? 0)%Z; [discriminate | apply decimal_nonempty].
Qed.

End Numerals.

Section Tokens.

Import Libc LoRaComm Spec Frames.

Lemma word_plain tok : forallb word tok = true -> forallb plain tok = true.
Proof.
  apply forallb_impl. intros c Hc. apply andb_prop in Hc as [Hc _]. exact Hc.
Qed.

Lemma span_token_plain tok d after :
  forallb plain tok = true -> plain d = false ->
  span_token (tok ++ d :: after) = (tok, d :: after).
Proof.
  intros Htok Hd. induction tok as [|c tok IH]; cbn [app span_token].
  - unfold plain in Hd. apply negb_false_iff in Hd. rewrite Hd. reflexivity.
  - cbn [forallb] in Htok. apply andb_prop in Htok as [Hc Htok].
    unfold plain in Hc. apply negb_true_iff in Hc. rewrite Hc. rewrite IH by exact Htok. reflexivity.
Qed.

Lemma strtok_start tok rest :
  forallb plain tok = true -> tok <> [] ->
  exists c tl, tok = c :: tl /\ skip_delim (tok ++ rest) = tok ++ rest /\
               Ascii.eqb c NUL = false.
Proof.
  intros Htok Hne. destruct tok as [|c tl]; [destruct (Hne eq_refl)|].
  exists c, tl. cbn [forallb] in Htok. apply andb_prop in Htok as [Hc _].
  unfold plain in Hc. apply negb_true_iff, orb_false_iff in Hc as [Hcomma Hnul].
  cbn [app skip_delim]. rewrite Hcomma. auto.
Qed.

Lemma strtok_field tok after :
  forallb plain tok = true -> tok <> [] ->
  strtok (tok ++ ","%char :: after) = Some (tok ++ NUL :: after, after).
Proof.
  intros Htok Hne.
  destruct (@strtok_start tok (","%char :: after) Htok Hne) as (c & tl & -> & Hskip & Hnul).
  unfold strtok. rewrite Hskip. cbn [app]. rewrite Hnul.
  change (c :: tl ++ ","%char :: after) with ((c :: tl) ++ ","%char :: after).
  rewrite (@span_token_plain (c :: tl) ","%char after Htok eq_refl).
  reflexivity.
Qed.

Lemma strtok_last tok after :
  forallb plain tok = true -> tok <> [] ->
  strtok (tok ++ NUL :: after) = Some (tok ++ NUL :: after, NUL :: after).
Proof.
  intros Htok Hne.
  destruct (@strtok_start tok (NUL :: after) Htok Hne) as (c & tl & -> & Hskip & Hnul).
  unfold strtok. rewrite Hskip. cbn [app]. rewrite Hnul.
  change (c :: tl ++ NUL :: after) with ((c :: tl) ++ NUL :: after).
  rewrite (@span_token_plain (c :: tl) NUL after Htok eq_refl).
  reflexivity.
Qed.

(** Every value of [uint8_t] satisfies a test that holds for 0 .. 255. *)
Lemma byte_cases (P : Z -> bool) :
  forallb (fun n => P (Z.of_nat n)) (seq 0 256) = true ->
  forall v, is_byte v -> P v = true.
Proof.
  intros Hall v [Hlo Hhi]. rewrite forallb_forall in Hall.
  rewrite <- (Z2Nat.id v Hlo). apply Hall, in_seq. lia.
Qed.

Lemma hex_byte_value v :
  is_byte v -> to_uint8 (strtol (hex_byte v ++ [NUL]) 16) = v.
Proof.
  intros Hv.
  apply Z.eqb_eq, (byte_cases (fun v => to_uint8 (strtol (hex_byte v ++ [NUL]) 16) =? v)%Z);
    [vm_compute; reflexivity | exact Hv].
Qed.

Lemma hex_byte_word v : is_byte v -> forallb word (hex_byte v) = true.
Proof.
  intros Hv. apply (byte_cases (fun v => forallb word (hex_byte v)));
    [vm_compute; reflexivity | exact Hv].
Qed.

Lemma hex_word data : Forall is_byte data -> forallb word (flat_map hex_byte data) = true.
Proof.
  induction 1 as [|v data Hv _ IH]; [reflexivity|].
  cbn [flat_map]. rewrite forallb_app, IH. rewrite hex_byte_word by exact Hv. reflexivity.
Qed.

End Tokens.

(** ** From [transmit] to [receive] *)

Section FrameRoundTrip.

Import Libc LoRaComm Spec Frames.

Lemma hex_loop_payload data : forall room pre after i outLen buffer,
  Forall is_byte data ->
  i = length pre ->
  outLen + Nat.min room (length data) <= length buffer ->
  hex_loop room (pre ++ flat_map hex_byte data ++ NUL :: after)
           (Z.of_nat (i + 2 * length data)) i outLen buffer
  = Some (firstn outLen buffer ++ firstn room data
            ++ skipn (outLen + Nat.min room (length data)) buffer,
          outLen + Nat.min room (length data)).
Proof.
  induction data as [|v data IH]; intros room pre after i outLen buffer Hall Hi Hfit.
  - cbn [length] in *.
    replace (i + 2 * 0) with i by lia.
    replace (outLen + Nat.min room 0) with outLen by lia.
    rewrite firstn_nil. cbn [app]. rewrite firstn_skipn.
    destruct room; cbn [hex_loop]; [reflexivity|].
    rewrite Z.ltb_irrefl. reflexivity.
  - destruct room as [|room].
    + cbn [hex_loop Nat.min firstn app]. rewrite Nat.add_0_r, firstn_skipn. reflexivity.
    + inversion Hall as [|? ? Hv Hdata]; subst.
      cbn [length Nat.min] in Hfit.
      cbn [hex_loop flat_map length Nat.min firstn].
      assert (Hlt : (Z.of_nat (length pre) <? Z.of_nat (length pre + 2 * S (length data)))%Z
                    = true) by (apply Z.ltb_lt; lia).
      rewrite Hlt.
      change (hex_byte v) with [hex_digit (v / 16); hex_digit (v mod 16)]%Z.
      cbn [app].
      rewrite nth_error_app2 by lia.
      rewrite (nth_error_app2 pre) by lia.
      replace (length pre - length pre) with 0 by lia.
      replace (length pre + 1 - length pre) with 1 by lia.
      cbn [nth_error].
      change [hex_digit (v / 16); hex_digit (v mod 16); NUL] with (hex_byte v ++ [NUL]).
      rewrite hex_byte_value by exact Hv.
      replace (pre ++ hex_digit (v / 16) :: hex_digit (v mod 16)
                 :: flat_map hex_byte data ++ NUL :: after)
        with ((pre ++ hex_byte v) ++ flat_map hex_byte data ++ NUL :: after)
        by (rewrite <- app_assoc; reflexivity).
      replace (length pre + 2 * S (length data))
        with ((length pre + 2) + 2 * length data) by lia.
      assert (Hlen : length (store buffer outLen v) = length buffer).
      { unfold store. rewrite length_app. cbn [length].
        rewrite length_firstn, length_skipn. lia. }
      rewrite IH;
        [| exact Hdata
         | rewrite length_app; reflexivity
         | rewrite Hlen; lia].
      f_equal. f_equal; [|lia].
      unfold store.
      rewrite firstn_app, length_firstn.
      rewrite (firstn_all2 (n := S outLen)) by (rewrite length_firstn; lia).
      replace (S outLen - Nat.min outLen (length buffer)) with 1 by lia.
      rewrite skipn_app, length_firstn.
      rewrite (skipn_all2 (n := S outLen + Nat.min room (length data)))
        by (rewrite length_firstn; lia).
      replace (S outLen + Nat.min room (length data) - Nat.min outLen (length buffer))
        with (S (Nat.min room (length data))) by lia.
      cbn [firstn app]. rewrite skipn_cons, skipn_skipn, <- app_assoc. cbn [app].
      do 3 f_equal. f_equal. lia.
Qed.


Lemma word_inline tok : forallb word tok = true -> forallb inline tok = true.
Proof.
  apply forallb_impl. intros c Hc. apply andb_prop in Hc as [_ Hc]. exact Hc.
Qed.

Lemma read_line_body body rest room :
  forallb inline body = true -> length body < room ->
  read_line room (body ++ LF :: rest) = (body ++ [LF], rest).
Proof.
  revert room. induction body as [|c body IH]; intros room Hbody Hroom.
  - destruct room; [inversion Hroom|]. reflexivity.
  - destruct room; [inversion Hroom|].
    cbn [forallb] in Hbody. apply andb_prop in Hbody as [Hc Hbody].
    apply negb_true_iff in Hc.
    cbn [app read_line length] in *. change "010"%char with LF. rewrite Hc.
    rewrite (IH room) by (assumption || lia). reflexivity.
Qed.

Lemma receive_pending buffer maxLen l :
  HardwareSerial.rx (_serial l) <> [] ->
  receive buffer maxLen l =
  let (line, rest) := read_line 511 (HardwareSerial.rx (_serial l)) in
  let l1 := set_serial (HardwareSerial.set_rx rest (_serial l)) l in
  let rawResponse := line ++ [NUL] in
  if negb (strncmp_eq rawResponse (chars "+RCV=")) then Some ((0, buffer), l1) else
  match strtok (skipn 5 rawResponse) with
  | None => Some ((0, buffer), l1)
  | Some (_, save1) =>
  match strtok save1 with
  | None => Some ((0, buffer), l1)
  | Some (len_token, save2) =>
  match strtok save2 with
  | None => Some ((0, buffer), l1)
  | Some (data_token, save3) =>
  match hex_loop maxLen data_token (to_size_t (atoi len_token)) 0 0 buffer with
  | None => None
  | Some (buffer', outLen) =>
      let l2 := match strtok save3 with
                | Some (token, _) => set_rssi (atoi token) l1
                | None => l1
                end in
      let l3 := match strtok save3 with
                | Some (_, save4) =>
                    match strtok save4 with
                    | Some (token, _) => set_snr (atoi token) l2
                    | None => l2
                    end
                | None => l2
                end in
      Some ((outLen, buffer'), l3)
  end end end end.
Proof.
  intros Hne. rewrite receive_unfold.
  destruct (HardwareSerial.rx (_serial l)); [destruct (Hne eq_refl) | reflexivity].
Qed.

Lemma hex_nonempty payload : payload <> [] -> flat_map hex_byte payload <> [].
Proof. destruct payload; [intros Hne; destruct (Hne eq_refl) | discriminate]. Qed.

Lemma receive_frame buffer maxLen l address payload rssi snr rest :
  Forall is_byte payload -> payload <> [] ->
  Nat.min maxLen (length payload) <= length buffer ->
  length (rcv_frame address payload rssi snr) <= 511 ->
  (LONG_MIN <= rssi <= LONG_MAX)%Z -> (LONG_MIN <= snr <= LONG_MAX)%Z ->
  HardwareSerial.rx (_serial l) = rcv_frame address payload rssi snr ++ rest ->
  receive buffer maxLen l
  = Some ((Nat.min maxLen (length payload),
           firstn maxLen payload ++ skipn (Nat.min maxLen (length payload)) buffer),
          set_snr snr
            (set_rssi rssi (set_serial (HardwareSerial.set_rx rest (_serial l)) l))).
Proof.
  intros Hbytes Hne Hfit Hlen Hrssi Hsnr Hrx.
  pose proof (decimal_word address) as HA.
  pose proof (decimal_word (length payload * 2)) as HL.
  pose proof (hex_word Hbytes) as HH.
  pose proof (sdecimal_word rssi) as HR.
  pose proof (sdecimal_word snr) as HS.
  pose proof (@decimal_nonempty address) as HAne.
  pose proof (@decimal_nonempty (length payload * 2)) as HLne.
  pose proof (hex_nonempty Hne) as HHne.
  pose proof (@sdecimal_nonempty rssi) as HRne.
  pose proof (@sdecimal_nonempty snr) as HSne.
  pose proof (hex_length payload) as HHlen.
  pose proof (@atoi_sdecimal rssi NUL) as Hrssi_atoi.
  pose proof (@atoi_sdecimal snr CR) as Hsnr_atoi.
  pose proof (@strtol_decimal (length payload * 2) NUL) as Hlen_atoi.
  revert Hlen Hrx. unfold rcv_frame.
  set (A := decimal address) in *. set (L := decimal (length payload * 2)) in *.
  set (H := flat_map hex_byte payload) in *.
  set (R := sdecimal rssi) in *. set (S := sdecimal snr) in *.
  intros Hlen Hrx.
  pose (Y4 := (S ++ [CR; LF]) ++ NUL :: []).
  pose (Y3 := R ++ ","%char :: Y4).
  pose (Y2 := H ++ ","%char :: Y3).
  pose (Y1 := L ++ ","%char :: Y2).
  pose (Y0 := A ++ ","%char :: Y1).
  pose (body := chars "+RCV=" ++ A ++ ","%char :: L ++ ","%char :: H ++ ","%char
                  :: R ++ ","%char :: S ++ [CR]).
  assert (Hframe : chars "+RCV=" ++ A ++ chars "," ++ L ++ chars "," ++ H ++ chars ","
                     ++ R ++ chars "," ++ S ++ [CR; LF] = body ++ [LF]).
  { unfold body. change (chars ",") with [","%char].
    repeat (rewrite <- app_assoc; cbn [app]). reflexivity. }
  assert (Hraw : (body ++ [LF]) ++ [NUL] = chars "+RCV=" ++ Y0).
  { unfold body, Y0, Y1, Y2, Y3, Y4.
    repeat (rewrite <- app_assoc; cbn [app]). reflexivity. }
  rewrite Hframe in Hlen, Hrx.
  assert (Hbody : length body < 511) by (rewrite length_app in Hlen; cbn [length] in Hlen; lia).
  assert (Hsmall : length payload * 2 <= 510).
  { unfold body in Hbody. rewrite !length_app in Hbody. cbn [length] in Hbody.
    rewrite !length_app in Hbody. cbn [length] in Hbody.
    rewrite !length_app in Hbody. cbn [length] in Hbody.
    rewrite !length_app in Hbody. lia. }
  assert (Hin : forallb inline body = true).
  { unfold body. repeat (rewrite forallb_app; cbn [forallb]).
    rewrite (word_inline _ HA), (word_inline _ HL), (word_inline _ HH),
      (word_inline _ HR), (word_inline _ HS). reflexivity. }
  rewrite receive_pending by (rewrite Hrx; unfold body; discriminate).
  rewrite Hrx, <- app_assoc. cbn [app].
  rewrite (read_line_body body rest Hin Hbody).
  cbv zeta. rewrite Hraw.
  assert (Hpre : strncmp_eq (chars "+RCV=" ++ Y0) (chars "+RCV=") = true)
    by (apply strncmp_eq_firstn; reflexivity).
  rewrite Hpre. cbn [negb].
  change (skipn 5 (chars "+RCV=" ++ Y0)) with Y0.
  unfold Y0. rewrite (strtok_field Y1 (word_plain _ HA) HAne).
  unfold Y1. rewrite (strtok_field Y2 (word_plain _ HL) HLne).
  unfold Y2. rewrite (strtok_field Y3 (word_plain _ HH) HHne).
  unfold atoi at 1. rewrite Hlen_atoi by reflexivity.
  replace (to_size_t (Z.max LONG_MIN (Z.min LONG_MAX (Z.of_nat (length payload * 2)))))
    with (Z.of_nat (0 + 2 * length payload)).
  2:{ unfold to_size_t, LONG_MIN, LONG_MAX. rewrite Z.mod_small; lia. }
  pose proof (@hex_loop_payload payload maxLen [] Y3 0 0 buffer Hbytes eq_refl Hfit)
    as Hhex.
  cbn [app firstn] in Hhex. fold H in Hhex. rewrite Hhex.
  unfold Y3. rewrite (strtok_field Y4 (word_plain _ HR) HRne).
  rewrite Hrssi_atoi by (reflexivity || assumption).
  unfold Y4.
  assert (HSeol : forallb plain (S ++ [CR; LF]) = true).
  { rewrite forallb_app, (word_plain _ HS). reflexivity. }
  rewrite (@strtok_last (S ++ [CR; LF]) [] HSeol)
    by (intros Hnil; apply app_eq_nil in Hnil as [_ Hnil]; discriminate Hnil).
  replace ((S ++ [CR; LF]) ++ [NUL]) with (S ++ CR :: [LF; NUL])
    by (rewrite <- app_assoc; reflexivity).
  rewrite Hsnr_atoi by (reflexivity || assumption).
  reflexivity.
Qed.

End FrameRoundTrip.

Section FrameTheorems.

Import Libc LoRaComm Spec Frames.

(** X1: a payload sent with [transmit] comes back from [receive].  For a
    frame [+RCV=<address>,<2n>,<hex>,<rssi>,<snr>] whose data field is the
    hexadecimal text [transmit] writes for a non-empty payload of [n]
    bytes, [receive] returns the first [maxLen] bytes of the payload (all of
    them when they fit), leaves the rest of the caller's buffer as it was,
    records the two signal values for [getRSSI] and [getSNR], and takes
    exactly the frame from the UART. *)
Theorem receive_decodes_transmitted_payload (buffer : list Z) (maxLen : nat)
        (l : LoRaComm.t) (address : nat) (payload : list Z) (rssi snr : Z)
        (rest : list ascii) :
  Forall is_byte payload -> payload <> [] ->
  maxLen <= length buffer ->
  length (rcv_frame address payload rssi snr) <= 511 ->
  (LONG_MIN <= rssi <= LONG_MAX)%Z -> (LONG_MIN <= snr <= LONG_MAX)%Z ->
  HardwareSerial.rx (_serial l) = rcv_frame address payload rssi snr ++ rest ->
  exists buffer' l',
    receive buffer maxLen l = Some ((Nat.min maxLen (length payload), buffer'), l') /\
    buffer' = firstn maxLen payload ++ skipn (Nat.min maxLen (length payload)) buffer /\
    (length payload <= maxLen -> firstn (length payload) buffer' = payload) /\
    LoRaSetup.getRSSI l' = Some (rssi, l') /\
    LoRaSetup.getSNR l' = Some (snr, l') /\
    HardwareSerial.rx (_serial l') = rest /\
    HardwareSerial.tx (_serial l') = HardwareSerial.tx (_serial l) /\
    HardwareSerial.peer (_serial l') = HardwareSerial.peer (_serial l).
Proof.
  intros Hbytes Hne Hfit Hlen Hrssi Hsnr Hrx.
  eexists. eexists. split.
  - apply (@receive_frame buffer maxLen l address payload rssi snr rest); try assumption.
    lia.
  - split; [reflexivity|]. split; [|repeat split].
    intros Hall. rewrite (@firstn_all2 _ maxLen payload Hall).
    rewrite firstn_app, firstn_all. replace (length payload - length payload) with 0 by lia.
    cbn [firstn]. apply app_nil_r.
Qed.

Lemma receive_decodes_transmitted_payload_witness :
  exists l',
    receive (repeat 0%Z 8) 8
      (LoRaComm.mk (uart (rcv_frame 7 [2; 0; 0; 1; 44]%Z (-40) 9 ++ chars "+OK") []) 0 0)
    = Some ((5, [2; 0; 0; 1; 44; 0; 0; 0]%Z), l') /\
    HardwareSerial.rx (_serial l') = chars "+OK".
Proof.
  destruct (@receive_decodes_transmitted_payload (repeat 0%Z 8) 8
              (LoRaComm.mk (uart (rcv_frame 7 [2; 0; 0; 1; 44]%Z (-40) 9 ++ chars "+OK") []) 0 0)
              7 [2; 0; 0; 1; 44]%Z (-40)%Z 9%Z (chars "+OK"))
    as (buffer' & l' & Hrun & Hbuf & _ & _ & _ & Hrx & _).
  - repeat constructor; unfold is_byte; lia.
  - discriminate.
  - cbn; lia.
  - apply Nat.leb_le. vm_compute. reflexivity.
  - unfold LONG_MIN, LONG_MAX; lia.
  - unfold LONG_MIN, LONG_MAX; lia.
  - reflexivity.
  - exists l'. split; [|exact Hrx]. rewrite Hrun, Hbuf. reflexivity.
Defined.

End FrameTheorems.

(** ** Control frames end to end *)

Section ControlFrames.

Import Libc LoRaComm Main Spec Frames.

Local Open Scope Z_scope.

Lemma be32_value e :
  0 <= e < 2 ^ 32 ->
  of_be32 ((e / 2 ^ 24) mod 256) ((e / 2 ^ 16) mod 256) ((e / 2 ^ 8) mod 256) (e mod 256)
  = e.
Proof.
  intros He. unfold of_be32.
  change (2 ^ 24) with 16777216. change (2 ^ 16) with 65536. change (2 ^ 8) with 256.
  change (2 ^ 32) with 4294967296 in He.
  Z.div_mod_to_equations. lia.
Qed.

Lemma be32_bytes e : Forall is_byte (be32 e).
Proof.
  unfold be32, is_byte. repeat constructor; apply Z.mod_pos_bound; lia.
Qed.

Local Close Scope Z_scope.

(** The radio driver once a frame is taken from its UART. *)
Lemma handle_frame (d : Device) address payload rssi snr rest :
  Forall is_byte payload -> payload <> [] -> (length payload <= 256)%nat ->
  (length (rcv_frame address payload rssi snr) <= 511)%nat ->
  (LONG_MIN <= rssi <= LONG_MAX)%Z -> (LONG_MIN <= snr <= LONG_MAX)%Z ->
  HardwareSerial.rx (_serial (loraComm d)) = rcv_frame address payload rssi snr ++ rest ->
  handleIncomingMessage d
  = Some (tt, dispatch (length payload)
                (payload ++ skipn (length payload) (repeat 0%Z 256))
                (set_loraComm
                   (set_snr snr
                      (set_rssi rssi
                         (set_serial (HardwareSerial.set_rx rest (_serial (loraComm d)))
                                     (loraComm d)))) d)).
Proof.
  intros Hbytes Hne Hlen Hframe Hrssi Hsnr Hrx.
  rewrite handleIncomingMessage_run.
  rewrite (@receive_frame (repeat 0%Z 256) 256 (loraComm d) address payload rssi snr rest)
    by (try assumption; rewrite repeat_length; lia).
  rewrite Nat.min_r by exact Hlen.
  rewrite (@firstn_all2 _ 256 payload Hlen). reflexivity.
Qed.

Ltac device_red :=
  unfold log, set_secureElement, set_loraComm, set_braceClient, set_deviceRegistered,
    set_currentEpoch, set_commitmentBytes, set_lastReading, set_console;
  cbn [secureElement loraComm braceClient deviceRegistered currentEpoch
       commitmentBytes lastReading console negb];
  cbv beta iota.

(** X2: an epoch-update frame sets the epoch end to end.  When the frame
    on the UART carries the payload [0x02], the four big-endian bytes of a
    32-bit epoch [e] and any further bytes, [handleIncomingMessage] sets
    [currentEpoch] to [e], logs the update, and leaves the registration
    flag alone. *)
Theorem epoch_frame_sets_epoch (d : Device) (address : nat) (e : Z) (extra : list Z)
        (rssi snr : Z) (rest : list ascii) :
  (0 <= e < 2 ^ 32)%Z -> Forall is_byte extra -> length extra <= 251 ->
  length (rcv_frame address (2%Z :: be32 e ++ extra) rssi snr) <= 511 ->
  (LONG_MIN <= rssi <= LONG_MAX)%Z -> (LONG_MIN <= snr <= LONG_MAX)%Z ->
  HardwareSerial.rx (_serial (loraComm d))
  = rcv_frame address (2%Z :: be32 e ++ extra) rssi snr ++ rest ->
  exists d',
    handleIncomingMessage d = Some (tt, d') /\
    currentEpoch d' = e /\
    console d' = console d ++ [EpochUpdated e] /\
    deviceRegistered d' = deviceRegistered d /\
    HardwareSerial.rx (_serial (loraComm d')) = rest.
Proof.
  intros He Hextra Hlen Hframe Hrssi Hsnr Hrx.
  assert (Hbytes : Forall is_byte (2%Z :: be32 e ++ extra)).
  { constructor; [unfold is_byte; lia|]. apply Forall_app. split; [apply be32_bytes | exact Hextra]. }
  rewrite (@handle_frame d address (2%Z :: be32 e ++ extra) rssi snr rest Hbytes)
    by first [assumption | discriminate | (cbn [length be32 app]; lia)].
  eexists. split; [reflexivity|].
  unfold dispatch, be32. cbn [app length nth Nat.ltb Nat.leb].
  change (2 =? 1)%Z with false. change (2 =? 2)%Z with true. cbv beta iota zeta.
  rewrite epoch_of_bytes by (apply Z.mod_pos_bound; lia).
  rewrite be32_value by exact He.
  destruct d. device_red. repeat split.
Qed.

(** X3: how [handleIncomingMessage] treats a well-formed frame, by its
    first payload byte: [0x01] sets the registration flag, a [0x02] frame
    with fewer than four further bytes changes nothing but the UART, [0x03]
    is only logged, every other type is logged as unknown; in no case are
    the secure element, the enrollment client, the commitment or the
    schedule touched. *)
Theorem control_frame_dispatch (d : Device) (address : nat) (msgType : Z)
        (extra : list Z) (rssi snr : Z) (rest : list ascii) :
  is_byte msgType -> Forall is_byte extra -> length extra <= 255 ->
  length (rcv_frame address (msgType :: extra) rssi snr) <= 511 ->
  (LONG_MIN <= rssi <= LONG_MAX)%Z -> (LONG_MIN <= snr <= LONG_MAX)%Z ->
  HardwareSerial.rx (_serial (loraComm d))
  = rcv_frame address (msgType :: extra) rssi snr ++ rest ->
  exists d',
    handleIncomingMessage d = Some (tt, d') /\
    secureElement d' = secureElement d /\ braceClient d' = braceClient d /\
    commitmentBytes d' = commitmentBytes d /\ lastReading d' = lastReading d /\
    HardwareSerial.rx (_serial (loraComm d')) = rest /\
    (msgType = 1%Z ->
       deviceRegistered d' = true /\ currentEpoch d' = currentEpoch d /\
       console d' = console d ++ [ReceivedRegistrationAck]) /\
    (msgType = 2%Z -> length extra < 4 ->
       deviceRegistered d' = deviceRegistered d /\ currentEpoch d' = currentEpoch d /\
       console d' = console d) /\
    (msgType = 3%Z ->
       deviceRegistered d' = deviceRegistered d /\ currentEpoch d' = currentEpoch d /\
       console d' = console d ++ [ProofConfirmationReceived]) /\
    (msgType <> 1%Z -> msgType <> 2%Z -> msgType <> 3%Z ->
       deviceRegistered d' = deviceRegistered d /\ currentEpoch d' = currentEpoch d /\
       console d' = console d ++ [UnknownMessageType msgType]).
Proof.
  intros Hm Hextra Hlen Hframe Hrssi Hsnr Hrx.
  rewrite (@handle_frame d address (msgType :: extra) rssi snr rest)
    by first [assumption | discriminate | (constructor; assumption) | (cbn [length]; lia)].
  eexists. split; [reflexivity|].
  match goal with |- context [dispatch ?len ?buffer ?d0] =>
    destruct (dispatch_frame len buffer d0) as (Hs & Hl & Hb & Hc & Hlast)
  end.
  rewrite Hs, Hl, Hb, Hc, Hlast.
  unfold dispatch. cbn [app length nth Nat.ltb Nat.leb]. cbv zeta.
  destruct d as [s l b reg epoch c last con]. device_red.
  repeat match goal with |- _ /\ _ => split end; try reflexivity.
  - intros ->. repeat split.
  - intros -> Hshort. change (2 =? 1)%Z with false. change (2 =? 2)%Z with true.
    cbv iota. destruct extra as [|? [|? [|? [|? ?]]]];
      [repeat split .. | cbn [length] in Hshort; lia].
  - intros ->. repeat split.
  - intros H1 H2 H3.
    destruct (Z.eqb_spec msgType 1); [contradiction|].
    destruct (Z.eqb_spec msgType 2); [contradiction|].
    destruct (Z.eqb_spec msgType 3); [contradiction|].
    repeat split.
Qed.

End ControlFrames.

(** ** What [receive] and [transmit] touch *)

Section ReceiveEffect.

Import Libc LoRaComm Spec Frames.

Lemma skipn_store {A} (a : list A) i n v :
  i < n -> i < length a -> skipn n (store a i v) = skipn n a.
Proof.
  intros Hin Hi. unfold store. rewrite skipn_app, length_firstn.
  rewrite (skipn_all2 (n := n)) by (rewrite length_firstn; lia).
  replace (n - Nat.min i (length a)) with (S (n - S i)) by lia.
  rewrite skipn_cons, skipn_skipn. cbn [app]. f_equal. lia.
Qed.

Lemma firstn_store {A} (a : list A) i n v :
  n <= i -> i < length a -> firstn n (store a i v) = firstn n a.
Proof.
  intros Hni Hi. unfold store. rewrite firstn_app, length_firstn.
  replace (n - Nat.min i (length a)) with 0 by lia.
  rewrite firstn_firstn, Nat.min_l by lia. cbn [firstn]. apply app_nil_r.
Qed.

Lemma hex_loop_rest room : forall token dataLen i outLen buffer buffer' outLen',
  hex_loop room token dataLen i outLen buffer = Some (buffer', outLen') ->
  outLen + room <= length buffer ->
  outLen <= outLen' /\
  skipn outLen' buffer' = skipn outLen' buffer /\
  firstn outLen buffer' = firstn outLen buffer.
Proof.
  induction room as [|room IH];
    intros token dataLen i outLen buffer buffer' outLen' Hrun Hfit.
  - cbn [hex_loop] in Hrun. inversion Hrun; subst. auto.
  - cbn [hex_loop] in Hrun. destruct (Z.of_nat i <? dataLen)%Z.
    + destruct (nth_error token i) as [a|]; [|discriminate].
      destruct (nth_error token (i + 1)) as [b|]; [|discriminate].
      apply IH in Hrun; [|rewrite length_store by lia; lia].
      destruct Hrun as (Hle & Hskip & Hfirst).
      split; [lia|]. split.
      * rewrite Hskip. apply skipn_store; lia.
      * assert (Hcut : forall b0 : list Z,
                  firstn outLen b0 = firstn outLen (firstn (S outLen) b0)).
        { intros b0. rewrite firstn_firstn, Nat.min_l by lia. reflexivity. }
        rewrite (Hcut buffer'), Hfirst, <- Hcut. apply firstn_store; lia.
    + inversion Hrun; subst. auto.
Qed.

Lemma read_line_split room : forall q line rest,
  read_line room q = (line, rest) ->
  q = line ++ rest /\ length line <= room /\ forallb inline (removelast line) = true /\
  (q <> [] -> 0 < room -> line <> []).
Proof.
  induction room as [|room IH]; intros q line rest Hrun.
  - cbn [read_line] in Hrun. inversion Hrun; subst.
    repeat split; [cbn; lia | intros _ Hpos; inversion Hpos].
  - destruct q as [|c q]; cbn [read_line] in Hrun.
    + inversion Hrun; subst. repeat split; [cbn; lia | intros Hne; destruct (Hne eq_refl)].
    + destruct (Ascii.eqb c "010") eqn:Hc.
      * inversion Hrun; subst. repeat split; [cbn; lia | discriminate].
      * destruct (read_line room q) as [line0 rest0] eqn:Hq.
        inversion Hrun; subst.
        destruct (IH _ _ _ Hq) as (Heq & Hlen & Hin & _).
        split; [cbn [app]; f_equal; exact Heq|]. split; [cbn [length]; lia|].
        split; [|discriminate].
        destruct line0 as [|c0 line0]; [reflexivity|].
        change (removelast (c :: c0 :: line0)) with (c :: removelast (c0 :: line0)).
        cbn [forallb]. rewrite Hin. unfold inline. change LF with "010"%char.
        rewrite Hc. reflexivity.
Qed.

Lemma receive_effect buffer maxLen l len buffer' l' :
  receive buffer maxLen l = Some ((len, buffer'), l') ->
  maxLen <= length buffer ->
  (len <= maxLen /\ length buffer' = length buffer /\
   skipn len buffer' = skipn len buffer /\
   forall k, k < len -> is_byte (nth k buffer' 0%Z)) /\
  exists line,
    HardwareSerial.rx (_serial l) = line ++ HardwareSerial.rx (_serial l') /\
    length line <= 511 /\
    forallb inline (removelast line) = true /\
    (HardwareSerial.rx (_serial l) <> [] -> line <> []) /\
    HardwareSerial.tx (_serial l') = HardwareSerial.tx (_serial l) /\
    HardwareSerial.peer (_serial l') = HardwareSerial.peer (_serial l).
Proof.
  intros Hrun Hfit.
  destruct (@receive_bytes _ _ _ _ _ _ Hrun Hfit) as (Hlen & Hbytes).
  revert Hrun. rewrite receive_unfold. intros Hrun.
  destruct (HardwareSerial.rx (_serial l)) as [|c q] eqn:Hrx.
  { inversion Hrun; subst. split; [auto|]. exists []. rewrite Hrx.
    repeat split; [cbn; lia | intros Hne; destruct (Hne eq_refl)]. }
  destruct (read_line 511 (c :: q)) as [line rest] eqn:Hline.
  destruct (@read_line_split _ _ _ _ Hline) as (Hq & Hll & Hin & Hnonempty).
  cbv zeta in Hrun.
  assert (Hserial : forall x : LoRaComm.t,
            _serial x = HardwareSerial.set_rx rest (_serial l) ->
            exists line0,
              c :: q = line0 ++ HardwareSerial.rx (_serial x) /\
              length line0 <= 511 /\
              forallb inline (removelast line0) = true /\
              (c :: q <> [] -> line0 <> []) /\
              HardwareSerial.tx (_serial x) = HardwareSerial.tx (_serial l) /\
              HardwareSerial.peer (_serial x) = HardwareSerial.peer (_serial l)).
  { intros x Hx. exists line. rewrite Hx. cbn.
    repeat split; try assumption. intros Hne. apply Hnonempty; [exact Hne | lia]. }
  assert (Hzero : forall x : LoRaComm.t,
            _serial x = HardwareSerial.set_rx rest (_serial l) ->
            Some ((0, buffer), x) = Some ((len, buffer'), l') ->
            (len <= maxLen /\ length buffer' = length buffer /\
             skipn len buffer' = skipn len buffer /\
             forall k, k < len -> is_byte (nth k buffer' 0%Z)) /\
            exists line0,
              c :: q = line0 ++ HardwareSerial.rx (_serial l') /\
              length line0 <= 511 /\
              forallb inline (removelast line0) = true /\
              (c :: q <> [] -> line0 <> []) /\
              HardwareSerial.tx (_serial l') = HardwareSerial.tx (_serial l) /\
              HardwareSerial.peer (_serial l') = HardwareSerial.peer (_serial l)).
  { intros x Hx Heq. inversion Heq; subst. split; [auto|]. apply Hserial. exact Hx. }
  destruct (negb _); [eapply Hzero; [|exact Hrun]; reflexivity|].
  destruct (strtok (skipn 5 _)) as [[? save1]|]; [|eapply Hzero; [|exact Hrun]; reflexivity].
  destruct (strtok save1) as [[len_token save2]|]; [|eapply Hzero; [|exact Hrun]; reflexivity].
  destruct (strtok save2) as [[data_token save3]|]; [|eapply Hzero; [|exact Hrun]; reflexivity].
  destruct (hex_loop _ _ _ _ _ _) as [[b o]|] eqn:Hloop; [|discriminate].
  inversion Hrun; subst.
  pose proof Hloop as Hloop'.
  apply hex_loop_bytes in Hloop; [|lia | intros k Hk; lia].
  destruct Hloop as (Hl & _ & _).
  apply hex_loop_rest in Hloop'; [|lia].
  destruct Hloop' as (_ & Hskip & _).
  split; [auto|]. apply Hserial.
  destruct (strtok save3) as [[t4 save4]|]; [|reflexivity].
  destruct (strtok save4) as [[t5 save5]|]; reflexivity.
Qed.

End ReceiveEffect.

Section RadioTheorems.

Import Libc LoRaComm Spec Frames.



(** X5: [transmit] either refuses or sends the whole payload.  More than
    240 bytes are refused with the driver untouched; otherwise exactly one
    [AT+SEND] line goes out, never cut by the 560-character command buffer,
    the result says whether the module's answer was an acknowledgment, and
    whatever was waiting unread on the UART before the call is discarded:
    the outcome does not depend on it. *)
Theorem transmit_sends_whole_payload (data : list Z) (l : LoRaComm.t) :
  exists ok l',
    transmit data l = Some (ok, l') /\
    _rssi l' = _rssi l /\ _snr l' = _snr l /\
    (240 < length data -> ok = false /\ l' = l) /\
    (length data <= 240 ->
       let answer := hd [] (HardwareSerial.peer (_serial l)) in
       HardwareSerial.tx (_serial l') = HardwareSerial.tx (_serial l) ++ [send_command data] /\
       length (send_command data) <= 559 /\
       HardwareSerial.peer (_serial l') = tl (HardwareSerial.peer (_serial l)) /\
       HardwareSerial.rx (_serial l') = snd (read_line (length answer) answer) /\
       ok = acknowledged answer /\
       forall q, transmit data (set_serial (HardwareSerial.set_rx q (_serial l)) l)
                 = Some (ok, l')).
Proof.
  destruct (Nat.lt_ge_cases 240 (length data)) as [Hbig|Hfit].
  - exists false, l. rewrite transmit_oversized by exact Hbig.
    split; [reflexivity|]. split; [reflexivity|]. split; [reflexivity|].
    split; [intros _; split; reflexivity | intros Hle; lia].
  - rewrite transmit_run by exact Hfit. cbv zeta. eexists. eexists.
    split; [reflexivity|]. split; [reflexivity|]. split; [reflexivity|].
    split; [intros Hbig; lia|]. intros _.
    split; [reflexivity|]. split.
    { rewrite <- command_fits by exact Hfit. rewrite length_firstn. lia. }
    split; [reflexivity|]. split; [reflexivity|]. split; [reflexivity|].
    intros q. rewrite transmit_run by exact Hfit. reflexivity.
Qed.

End RadioTheorems.

(** ** Random numbers, digests and nullifier inputs *)

Section ChipFacts.
Context `{Primitives}.

Import Config ATECCX08A SecureElement Spec Frames.

Lemma firstn_over {A} (x y : list A) n k :
  length x = n -> firstn (n + k) (x ++ y) = x ++ firstn k y.
Proof. intros <-. apply firstn_app_2. Qed.

Lemma skipn_over {A} (x y : list A) n k :
  length x = n -> skipn (n + k) (x ++ y) = skipn k y.
Proof.
  intros <-. rewrite skipn_app, skipn_all2 by lia.
  replace (length x + k - length x) with k by lia. reflexivity.
Qed.

Lemma blocks_needed_step remaining :
  0 < remaining ->
  blocks_needed remaining
  = S (blocks_needed (remaining - (if Nat.ltb remaining 32 then remaining else 32))).
Proof.
  intros Hpos. unfold blocks_needed. destruct (Nat.ltb_spec remaining 32) as [Hlt|Hge].
  - replace (remaining - remaining + 31) with 31 by lia.
    change (31 / 32) with 0.
    assert (Hq : (remaining + 31) / 32 = 1); [|exact Hq].
    symmetry. apply Nat.div_unique with (r := remaining - 1); lia.
  - replace (remaining + 31) with (1 * 32 + (remaining - 32 + 31)) by lia.
    rewrite Nat.div_add_l by lia. reflexivity.
Qed.

Lemma random_loop_run turns : forall buffer done remaining a,
  remaining <= turns -> healthy a ->
  blocks_needed remaining <= length (entropy a) ->
  Forall (fun r => length r = 32) (entropy a) ->
  done + remaining <= length buffer ->
  exists a',
    random_loop turns buffer done remaining a
    = Some ((true, firstn done buffer ++ firstn remaining (concat (entropy a))
                     ++ skipn (done + remaining) buffer), a') /\
    healthy a' /\ slot_key a' = slot_key a /\
    entropy a' = skipn (blocks_needed remaining) (entropy a).
Proof.
  induction turns as [|turns IH]; intros buffer done remaining a Hturns Hh Hblocks Hall Hfit.
  - assert (remaining = 0) as -> by lia. exists a. cbn [random_loop Nat.ltb Nat.leb].
    unfold ret. rewrite Nat.add_0_r. cbn [firstn app]. rewrite firstn_skipn.
    repeat split; assumption.
  - destruct (Nat.eq_dec remaining 0) as [->|Hpos].
    { exists a. cbn [random_loop Nat.ltb Nat.leb].
      unfold ret. rewrite Nat.add_0_r. cbn [firstn app]. rewrite firstn_skipn.
      repeat split; assumption. }
    rewrite (blocks_needed_step (remaining := remaining)) in * by lia.
    cbn [random_loop]. destruct (Nat.ltb_spec 0 remaining) as [_|Hz]; [|lia].
    unfold bind. rewrite random_run, (healthy_hd Hh).
    destruct (entropy a) as [|r later] eqn:He; [cbn [length] in Hblocks; lia|].
    inversion Hall as [|? ? Hr Hlater]; subst.
    change (negb true) with false. cbv iota. unfold get.
    set (toCopy := if Nat.ltb remaining 32 then remaining else 32) in *.
    assert (Hcopy : toCopy <= 32 /\ toCopy <= remaining /\ 0 < toCopy
                    /\ toCopy = Nat.min remaining 32).
    { unfold toCopy. destruct (Nat.ltb_spec remaining 32); lia. }
    unfold set_randomNumber at 1. cbn [randomNumber].
    assert (Hlen : length (memcpy buffer done r toCopy) = length buffer).
    { unfold memcpy. rewrite !length_app, !length_firstn, length_skipn. lia. }
    destruct (IH (memcpy buffer done r toCopy) (done + toCopy) (remaining - toCopy)
                 (set_randomNumber r (set_entropy later (set_bus (tl (bus a)) a))))
      as (a' & Hrun & Hh' & Hslot & Hent).
    + lia.
    + exact (healthy_tl Hh).
    + cbn [entropy set_randomNumber set_entropy]. cbn [length] in Hblocks. lia.
    + exact Hlater.
    + rewrite Hlen. lia.
    + exists a'. rewrite Hrun. split; [|split; [exact Hh' | split; [exact Hslot | exact Hent]]].
      f_equal. f_equal. f_equal.
      cbn [entropy set_randomNumber set_entropy concat].
      unfold memcpy.
      rewrite (app_assoc (firstn done buffer)).
      rewrite <- (Nat.add_0_r (done + toCopy)) at 1.
      rewrite (firstn_over (firstn done buffer ++ firstn toCopy r))
        by (rewrite length_app, !length_firstn; lia).
      cbn [firstn]. rewrite app_nil_r.
      rewrite (skipn_over (firstn done buffer ++ firstn toCopy r))
        by (rewrite length_app, !length_firstn; lia).
      rewrite skipn_skipn.
      replace (remaining - toCopy + (done + toCopy)) with (done + remaining) by lia.
      rewrite <- app_assoc. f_equal.
      rewrite (firstn_app remaining r), Hr, app_assoc. f_equal.
      destruct Hcopy as (_ & _ & _ & Hmin). rewrite Hmin.
      destruct (Nat.le_ge_cases remaining 32).
      * rewrite Nat.min_l by lia.
        replace (remaining - remaining) with 0 by lia.
        replace (remaining - 32) with 0 by lia. reflexivity.
      * rewrite Nat.min_r by lia.
        rewrite (@firstn_all2 _ remaining r) by lia.
        rewrite (@firstn_all2 _ 32 r) by lia. reflexivity.
Qed.


(** X6: [SecureElement::random] for any length.  With a working chip that
    delivers 32-byte blocks, the first [length] bytes of the buffer become
    the first [length] bytes of the blocks in order, the rest of the buffer
    is untouched, and [ceil (length / 32)] blocks are used up; for a length
    of zero the chip is not addressed at all. *)
Theorem random_fills_buffer (buffer : list Z) (length : nat) (s : SecureElement.t) :
  ready s ->
  length <= List.length buffer ->
  blocks_needed length <= List.length (entropy (atecc s)) ->
  Forall (fun r => List.length r = 32) (entropy (atecc s)) ->
  exists s',
    SecureElement.random buffer length s
    = Some ((true, random_bytes length (entropy (atecc s)) ++ skipn length buffer), s') /\
    ready s' /\
    slot_key (atecc s') = slot_key (atecc s) /\
    entropy (atecc s') = skipn (blocks_needed length) (entropy (atecc s)) /\
    (length = 0 -> s' = s).
Proof.
  intros [Hinit Hh] Hfit Hblocks Hall. destruct s as [init a]. cbn in Hinit, Hh. subst init.
  cbn [atecc] in *.
  destruct (@random_loop_run length buffer 0 length a (le_n _) Hh Hblocks Hall Hfit)
    as (a' & Hrun & Hh' & Hslot & Hent).
  exists (SecureElement.mk true a').
  unfold SecureElement.random, bind, gets. cbn [_initialized negb].
  rewrite chip_run, Hrun. cbn [firstn app Nat.add] .
  split; [reflexivity|]. split; [split; [reflexivity | exact Hh']|].
  split; [exact Hslot|]. split; [exact Hent|].
  intros ->. cbn [random_loop Nat.ltb Nat.leb] in Hrun. inversion Hrun. reflexivity.
Qed.

(** X7: [SecureElement::sha256] digests the whole message.  Whatever the
    length, a returned digest is [SHA256] of all of [data] (the 64-byte
    chunks fed to the chip add up to the message) and has 32 bytes; a
    working chip always returns one; an uninitialised wrapper fails without
    addressing the chip. *)
Theorem sha256_digests_whole_message (data : list Z) (s : SecureElement.t) :
  exists r s',
    sha256 data s = Some (r, s') /\ kept s s' /\
    (forall d, r = Some d -> d = SHA256 data /\ length d = 32) /\
    (ready s -> r = Some (SHA256 data) /\ ready s') /\
    (_initialized s = false -> r = None /\ s' = s).
Proof.
  destruct (sha256_run data s) as (r & s' & Hrun & Hkept & Hsome & Hready).
  exists r, s'. split; [exact Hrun|]. split; [exact Hkept|].
  split; [|split; [exact Hready|]].
  - intros d Hd. rewrite (Hsome d Hd). split; [reflexivity | apply SHA256_length].
  - intros Hinit. revert Hrun. unfold sha256, bind, gets. rewrite Hinit.
    cbn [negb]. unfold ret. intros Hrun. inversion Hrun. split; reflexivity.
Qed.

(** X8: [isKeyProvisioned] is [getPublicKey] with the key dropped.  A
    positive answer means the slot holds a key; with a working chip the
    answer is positive exactly when it does; an uninitialised wrapper
    answers no without addressing the chip, and a failed command gives a
    negative answer whatever the slot holds. *)
Theorem isKeyProvisioned_reflects_slot (slot : Z) (s : SecureElement.t) :
  exists ok s',
    KeySlots.isKeyProvisioned slot s = Some (ok, s') /\ kept s s' /\
    (ok = true -> exists key, slot_key (atecc s) slot = Some key) /\
    (ready s -> (ok = true <-> slot_key (atecc s) slot <> None) /\ ready s') /\
    (_initialized s = false -> ok = false /\ s' = s) /\
    (_initialized s = true -> hd true (bus (atecc s)) = false -> ok = false) /\
    (_initialized s = true ->
     exists r, getPublicKey slot s = Some (r, s') /\ (ok = true <-> r <> None)).
Proof.
  destruct (getPublicKey_run slot s) as (r & s' & Hrun & Hkept & Hsome & Hready).
  unfold KeySlots.isKeyProvisioned, bind, gets.
  destruct (_initialized s) eqn:Hinit; cbn [negb].
  - rewrite Hrun. exists (match r with Some _ => true | None => false end), s'.
    split; [destruct r; reflexivity|]. split; [exact Hkept|].
    split; [|split; [|split; [|split]]].
    + destruct r as [pk|]; [|discriminate]. intros _.
      destruct (Hsome pk eq_refl) as (key & Hkey & _). exists key. exact Hkey.
    + intros Hr. destruct (slot_key (atecc s) slot) as [key|] eqn:Hkey.
      * destruct (Hready Hr key eq_refl) as [-> Hr']. split; [|exact Hr'].
        split; [discriminate | reflexivity].
      * split.
        -- destruct r as [pk|]; [|split; [discriminate | intros Hn; destruct (Hn eq_refl)]].
           destruct (Hsome pk eq_refl) as (key & Hkey' & _). discriminate Hkey'.
        -- revert Hrun. unfold getPublicKey, bind, gets. rewrite Hinit. cbn [negb].
           destruct s as [init a]. rewrite chip_run, generatePublicKey_run.
           cbn [atecc] in *. rewrite Hkey. destruct Hr as [_ Hh]. cbn [atecc] in Hh.
           rewrite (healthy_hd Hh). cbn [negb]. unfold ret. intros Hrun.
           inversion Hrun; subst. split; [exact Hinit|]. apply healthy_popped. exact Hh.
    + discriminate.
    + intros _ Hbus. revert Hrun. unfold getPublicKey, bind, gets. rewrite Hinit.
      cbn [negb]. destruct s as [init a]. rewrite chip_run, generatePublicKey_run.
      cbn [atecc] in *. rewrite Hbus. cbn [negb]. unfold ret. intros Hrun.
      inversion Hrun. reflexivity.
    + intros _. exists r. split; [reflexivity|].
      destruct r; split; try discriminate; try reflexivity.
      intros Hn. destruct (Hn eq_refl).
  - exists false, s. unfold ret. split; [reflexivity|]. split; [apply kept_refl|].
    split; [discriminate|]. split; [intros [Hi _]; congruence|].
    split; [intros _; split; reflexivity|]. split; discriminate.
Qed.

Lemma be32_injective e1 e2 :
  (0 <= e1 < 2 ^ 32)%Z -> (0 <= e2 < 2 ^ 32)%Z -> be32 e1 = be32 e2 -> e1 = e2.
Proof.
  intros H1 H2 Heq.
  pose proof (@be32_value e1 H1) as V1. pose proof (@be32_value e2 H2) as V2.
  assert (A : nth 0 (be32 e1) 0%Z = nth 0 (be32 e2) 0%Z) by (rewrite Heq; reflexivity).
  assert (B : nth 1 (be32 e1) 0%Z = nth 1 (be32 e2) 0%Z) by (rewrite Heq; reflexivity).
  assert (C : nth 2 (be32 e1) 0%Z = nth 2 (be32 e2) 0%Z) by (rewrite Heq; reflexivity).
  assert (D : nth 3 (be32 e1) 0%Z = nth 3 (be32 e2) 0%Z) by (rewrite Heq; reflexivity).
  unfold be32 in A, B, C, D. cbn [nth] in A, B, C, D.
  rewrite A, B, C, D in V1. congruence.
Qed.

(** X9: the MAC input of the nullifier.  The nullifier [computeNullifier]
    delivers for an epoch is the chip's MAC of exactly 23 bytes: the 19
    bytes of the domain tag [msingi:nullifier:v1] followed by the four
    bytes of the epoch, most significant first (bits 31-24, 23-16, 15-8,
    7-0), so that bytes 19 to 22 read as a big-endian number give the
    epoch back.  Hence for 32-bit epochs two such inputs are equal only if
    the epochs are. *)
Theorem nullifier_input_separates_epochs (e1 e2 : Z) (s s1 s2 : SecureElement.t)
        (n1 n2 : list Z) :
  (0 <= e1 < 2 ^ 32)%Z -> (0 <= e2 < 2 ^ 32)%Z ->
  computeNullifier e1 s = Some (Some n1, s1) ->
  computeNullifier e2 s = Some (Some n2, s2) ->
  let input := fun e : Z =>
    (bytes_of NULLIFIER_DOMAIN
       ++ [(e / 2 ^ 24) mod 256; (e / 2 ^ 16) mod 256; (e / 2 ^ 8) mod 256; e mod 256])%Z in
  n1 = MAC (input e1) /\ n2 = MAC (input e2) /\
  length (bytes_of NULLIFIER_DOMAIN) = 19 /\
  length (input e1) = 23 /\ Forall is_byte (input e1) /\
  of_be32 (nth 19 (input e1) 0%Z) (nth 20 (input e1) 0%Z)
          (nth 21 (input e1) 0%Z) (nth 22 (input e1) 0%Z) = e1 /\
  (input e1 = input e2 <-> e1 = e2).
Proof.
  intros H1 H2 Hrun1 Hrun2 input.
  destruct (computeNullifier_run e1 s) as (r1 & t1 & Hr1 & _ & Hsome1 & _).
  destruct (computeNullifier_run e2 s) as (r2 & t2 & Hr2 & _ & Hsome2 & _).
  rewrite Hrun1 in Hr1. rewrite Hrun2 in Hr2. inversion Hr1; inversion Hr2; subst.
  split; [apply Hsome1; reflexivity|]. split; [apply Hsome2; reflexivity|].
  split; [reflexivity|]. split; [reflexivity|]. split; [|split; [|split]].
  - subst input. cbv beta. apply Forall_app. split; [|apply be32_bytes].
    unfold is_byte. vm_compute. repeat constructor; intros E; discriminate E.
  - exact (be32_value H1).
  - subst input. cbv beta. intros Heq. apply app_inv_head in Heq.
    apply be32_injective; assumption.
  - intros ->. reflexivity.
Qed.

End ChipFacts.

(** ** Enrollment under every outcome *)

Section EnrollmentFacts.
Context `{Primitives}.

Import Config ATECCX08A SecureElement BraceClient Spec Frames.

Lemma generateBlindingFactor_run c s l :
  exists ok r' s',
    SecureElement.random (_blindingFactor c) 32 s = Some ((ok, r'), s') /\
    generateBlindingFactor (Heap c s l) = Some (ok, Heap (set_blindingFactor r' c) s' l) /\
    _initialized s' = _initialized s /\
    slot_key (atecc s') = slot_key (atecc s).
Proof.
  destruct (random_32_run (_blindingFactor c) s) as (ok & r' & s' & Hrun & Hinit & Hslot & _).
  exists ok, r', s'. split; [exact Hrun|]. split; [|split; assumption].
  unfold generateBlindingFactor, bind, gets. cbn [self]. rewrite via_se_run, Hrun.
  reflexivity.
Qed.

Lemma sendRegistrationRequest_run c s l :
  length (_commitment c) = 32 ->
  sendRegistrationRequest (Heap c s l) =
  match LoRaComm.transmit (0%Z :: _commitment c) l with
  | Some (ok, l') => Some (ok, Heap c s l')
  | None => None
  end.
Proof.
  intros Hlen. unfold sendRegistrationRequest, bind, gets. cbn [self]. cbv zeta.
  rewrite registration_message by exact Hlen. apply via_lora_run.
Qed.

Lemma registerDevice_run h :
  exists ok h',
    registerDevice h = Some (ok, h') /\
    _registered (self h') = _registered (self h) /\
    (_se (self h) = false \/ _lora (self h) = false -> ok = false /\ h' = h) /\
    ((ok = false /\ lora h' = lora h) \/
     exists key,
       slot_key (atecc (se h)) SLOT_DEVICE_KEY = Some key /\
       _commitment (self h')
       = SHA256 (preimage_buffer (firstn 64 key) (_blindingFactor (self h'))) /\
       radio_log h' = radio_log h ++ [send_command (0%Z :: _commitment (self h'))] /\
       ok = acknowledged (hd [] (HardwareSerial.peer (LoRaComm._serial (lora h))))).
Proof.
  destruct h as [c s l]. unfold registerDevice, bind, gets. cbn [self se lora].
  destruct (_se c) eqn:Hse; cbn [negb orb].
  2:{ exists false, (Heap c s l). unfold ret. split; [reflexivity|]. split; [reflexivity|].
      split; [intros _; split; reflexivity|]. left. split; reflexivity. }
  destruct (_lora c) eqn:Hlora; cbn [negb].
  2:{ exists false, (Heap c s l). unfold ret. split; [reflexivity|]. split; [reflexivity|].
      split; [intros _; split; reflexivity|]. left. split; reflexivity. }
  destruct (generateBlindingFactor_run c s l) as (ok & r' & s1 & _ & Hgen & _ & Hslot).
  rewrite Hgen. destruct ok; cbn [negb].
  2:{ eexists false, _. unfold ret. split; [reflexivity|]. split; [reflexivity|].
      split; [intros [Hf|Hf]; discriminate Hf|]. left. split; reflexivity. }
  destruct (computeCommitment_run (Heap (set_blindingFactor r' c) s1 l))
    as (ok & h1 & Hcc & Hl1 & _ & Hno & Hyes & _).
  rewrite Hcc. destruct h1 as [c1 s2 l1]. cbn [self se lora] in *. subst l1.
  destruct ok; cbn [negb].
  2:{ eexists false, _. unfold ret. split; [reflexivity|]. cbn [self].
      rewrite (Hno eq_refl). split; [reflexivity|].
      split; [intros [Hf|Hf]; discriminate Hf|]. left. split; reflexivity. }
  destruct (Hyes eq_refl) as (key & Hkey & ->). clear Hyes Hno.
  rewrite sendRegistrationRequest_run by apply SHA256_length.
  cbn [_commitment set_commitment].
  rewrite transmit_run by (cbn [length]; rewrite SHA256_length; lia). cbv zeta.
  destruct (acknowledged _) eqn:Hack; cbn [negb]; unfold ret;
    (eexists; eexists; split; [reflexivity|]);
    cbn [self se lora];
    (split; [reflexivity|]);
    (split; [intros [Hf|Hf]; discriminate Hf|]);
    right; exists key; rewrite <- Hslot;
    (split; [exact Hkey|]); (split; [reflexivity|]); split; reflexivity.
Qed.


(** X10: what [registerDevice] can do to the radio.  It never changes the
    registration flag; without both driver handles it fails and changes
    nothing; otherwise either it fails with the radio untouched, or it
    writes exactly one line, the registration message [0x00 || commitment]
    for the commitment it has just stored, which is the hash of the
    preimage built from the device key and the blinding factor it has just
    stored, and its result is whether the module acknowledged. *)
Theorem registerDevice_sends_stored_commitment (h : heap) :
  exists ok h',
    registerDevice h = Some (ok, h') /\
    _registered (self h') = _registered (self h) /\
    (_se (self h) = false \/ _lora (self h) = false -> ok = false /\ h' = h) /\
    ((ok = false /\ lora h' = lora h) \/
     exists key,
       slot_key (atecc (se h)) SLOT_DEVICE_KEY = Some key /\
       _commitment (self h')
       = SHA256 (preimage_buffer (firstn 64 key) (_blindingFactor (self h'))) /\
       radio_log h' = radio_log h ++ [send_command (0%Z :: _commitment (self h'))] /\
       ok = acknowledged (hd [] (HardwareSerial.peer (LoRaComm._serial (lora h))))).
Proof. apply registerDevice_run. Qed.

Lemma random_32_fails buffer s rest :
  _initialized s = true -> bus (atecc s) = false :: rest ->
  SecureElement.random buffer 32 s
  = Some ((false, buffer), SecureElement.mk true (set_bus rest (atecc s))).
Proof.
  intros Hinit Hbus. destruct s as [init a]. cbn [_initialized atecc] in *. subst init.
  unfold SecureElement.random, bind, gets. cbn [_initialized negb].
  rewrite chip_run, random_loop_32, random_run, Hbus. reflexivity.
Qed.

Lemma random_32_succeeds buffer s rest r later :
  _initialized s = true -> bus (atecc s) = true :: rest ->
  entropy (atecc s) = r :: later ->
  SecureElement.random buffer 32 s
  = Some ((true, memcpy buffer 0 r 32),
          SecureElement.mk true
            (set_randomNumber r (set_entropy later (set_bus rest (atecc s))))).
Proof.
  intros Hinit Hbus Hent. destruct s as [init a]. cbn [_initialized atecc] in *. subst init.
  unfold SecureElement.random, bind, gets. cbn [_initialized negb].
  rewrite chip_run, random_loop_32, random_run, Hbus, Hent. reflexivity.
Qed.

(** X11: [registerDevice] when the chip fails.  If the first command (the
    random generator) fails, the call fails with the client and the radio
    unchanged.  If the generator succeeds and the next command fails, the
    call fails and nothing is sent, but the blinding factor is already
    replaced while the commitment is still the old one. *)
Theorem registerDevice_chip_failure (h : heap) (rest : list bool) :
  _se (self h) = true -> _lora (self h) = true ->
  _initialized (se h) = true ->
  (bus (atecc (se h)) = false :: rest ->
   exists h',
     registerDevice h = Some (false, h') /\
     self h' = self h /\ lora h' = lora h /\ bus (atecc (se h')) = rest) /\
  (forall r later,
     bus (atecc (se h)) = true :: false :: rest ->
     entropy (atecc (se h)) = r :: later -> length r = 32 ->
     length (_blindingFactor (self h)) = 32 ->
     exists h',
       registerDevice h = Some (false, h') /\
       _blindingFactor (self h') = r /\
       _commitment (self h') = _commitment (self h) /\
       lora h' = lora h /\ bus (atecc (se h')) = rest).
Proof.
  intros Hse Hlora Hinit. destruct h as [c s l]. cbn [self se lora] in *. split.
  - intros Hbus. unfold registerDevice, bind, gets. cbn [self]. rewrite Hse, Hlora.
    cbn [negb orb].
    unfold generateBlindingFactor, bind, gets. cbn [self].
    rewrite via_se_run, (random_32_fails _ _ Hinit Hbus).
    unfold this, zoom, modify, ret, set_self. cbn [self se lora negb]. cbv beta iota.
    eexists. split; [reflexivity|]. cbn [self se lora atecc].
    destruct c; repeat split.
  - intros r later Hbus Hent Hr Hbf.
    unfold registerDevice, bind, gets. cbn [self]. rewrite Hse, Hlora.
    cbn [negb orb].
    unfold generateBlindingFactor, bind, gets. cbn [self].
    rewrite via_se_run, (random_32_succeeds _ _ Hinit Hbus Hent).
    rewrite memcpy_whole by assumption.
    unfold this, zoom, modify, ret, set_self. cbn [self se lora negb]. cbv beta iota.
    unfold computeCommitment, bind. rewrite via_se_run.
    unfold getPublicKey, bind, gets. cbn [_initialized negb].
    rewrite chip_run, generatePublicKey_run.
    cbn [bus set_randomNumber set_entropy set_bus hd tl negb]. unfold ret.
    cbn [negb]. cbv beta iota.
    eexists. split; [reflexivity|]. cbn [self se lora atecc].
    repeat split.
Qed.

Lemma begin_run h :
  exists h',
    BraceClient.begin h = Some (tt, h') /\
    lora h' = lora h /\ kept (se h) (se h') /\
    _se (self h') = true /\ _lora (self h') = true /\
    _blindingFactor (self h') = _blindingFactor (self h) /\
    (_registered (self h') = true ->
       (exists key1, slot_key (atecc (se h)) SLOT_BLINDING_FACTOR = Some key1) /\
       exists key, slot_key (atecc (se h)) SLOT_DEVICE_KEY = Some key /\
         _commitment (self h')
         = SHA256 (preimage_buffer (firstn 64 key) (_blindingFactor (self h)))) /\
    (_registered (self h') = false -> _commitment (self h') = _commitment (self h)) /\
    (ready (se h) ->
       (_registered (self h') = true <->
        slot_key (atecc (se h)) SLOT_BLINDING_FACTOR <> None /\
        slot_key (atecc (se h)) SLOT_DEVICE_KEY <> None)).
Proof.
  destruct h as [c s l]. unfold BraceClient.begin, bind, this, zoom, modify, set_self.
  cbn [self se lora]. rewrite via_se_run.
  destruct (getPublicKey_run SLOT_BLINDING_FACTOR s) as (t & s1 & Hrun & Hk & Hsome & Hready).
  rewrite Hrun. destruct t as [testKey|].
  - destruct (Hsome testKey eq_refl) as (key1 & Hkey1 & _).
    set (c0 := mk true true false (_commitment c) (_blindingFactor c)).
    destruct (computeCommitment_run (Heap c0 s1 l))
      as (ok & h1 & Hcc & Hl1 & Hk1 & Hno & Hyes & Hok).
    rewrite Hcc. destruct h1 as [c1 s2 l1]. cbn [self se lora] in *. subst l1.
    assert (Hslot : slot_key (atecc s1) = slot_key (atecc s)) by apply Hk.
    destruct ok.
    + destruct (Hyes eq_refl) as (key & Hkey & ->).
      eexists. split; [reflexivity|]. cbn [self se lora set_self].
      split; [reflexivity|]. split; [eapply kept_trans; eassumption|].
      split; [reflexivity|]. split; [reflexivity|]. split; [reflexivity|].
      rewrite Hslot in Hkey.
      split; [intros _; split; [exists key1; exact Hkey1 | exists key; split; [exact Hkey | reflexivity]]|].
      split; [discriminate|].
      intros _. split; [intros _; rewrite Hkey1, Hkey; split; discriminate | reflexivity].
    + rewrite (Hno eq_refl). unfold ret.
      eexists. split; [reflexivity|]. cbn [self se lora].
      split; [reflexivity|]. split; [eapply kept_trans; eassumption|].
      split; [reflexivity|]. split; [reflexivity|]. split; [reflexivity|].
      split; [discriminate|]. split; [reflexivity|].
      intros Hr. split; [discriminate|]. intros [_ Hdev].
      destruct (slot_key (atecc s) SLOT_DEVICE_KEY) as [key|] eqn:Hkey;
        [|destruct (Hdev eq_refl)].
      destruct (Hready Hr key1 Hkey1) as [_ Hr1].
      rewrite <- Hslot in Hkey. destruct (Hok Hr1 key Hkey) as [Hf _]. discriminate Hf.
  - unfold ret. eexists. split; [reflexivity|]. cbn [self se lora].
    split; [reflexivity|]. split; [exact Hk|].
    split; [reflexivity|]. split; [reflexivity|]. split; [reflexivity|].
    split; [discriminate|]. split; [reflexivity|].
    intros Hr. split; [discriminate|]. intros [Hbf _].
    destruct (slot_key (atecc s) SLOT_BLINDING_FACTOR) as [key1|] eqn:Hkey1;
      [|destruct (Hbf eq_refl)].
    destruct (Hready Hr key1 eq_refl) as [Hf _]. discriminate Hf.
Qed.

(** X12: [BraceClient::begin].  It sets both driver handles, never
    touches the radio or the blinding factor held in memory, and ends
    registered only if slot 1 and slot 0 both answer, in which case the
    commitment is the hash of the preimage built from the slot-0 key and the
    blinding factor that was in memory before the call; otherwise the
    commitment is unchanged.  With a working chip it ends registered
    exactly when both slots hold a key. *)
Theorem begin_restores_registration (h : heap) :
  exists h',
    BraceClient.begin h = Some (tt, h') /\
    lora h' = lora h /\ kept (se h) (se h') /\
    _se (self h') = true /\ _lora (self h') = true /\
    _blindingFactor (self h') = _blindingFactor (self h) /\
    (_registered (self h') = true ->
       (exists key1, slot_key (atecc (se h)) SLOT_BLINDING_FACTOR = Some key1) /\
       exists key, slot_key (atecc (se h)) SLOT_DEVICE_KEY = Some key /\
         _commitment (self h')
         = SHA256 (preimage_buffer (firstn 64 key) (_blindingFactor (self h)))) /\
    (_registered (self h') = false -> _commitment (self h') = _commitment (self h)) /\
    (ready (se h) ->
       (_registered (self h') = true <->
        slot_key (atecc (se h)) SLOT_BLINDING_FACTOR <> None /\
        slot_key (atecc (se h)) SLOT_DEVICE_KEY <> None)).
Proof. apply begin_run. Qed.

End EnrollmentFacts.

(** ** Invariants of the control loop *)

Section LoopFacts.
Context `{Primitives}.

Import Config ATECCX08A SecureElement LoRaComm Main Spec Frames.

Ltac device_red :=
  unfold log, set_secureElement, set_loraComm, set_braceClient, set_deviceRegistered,
    set_currentEpoch, set_commitmentBytes, set_lastReading, set_console;
  cbn [secureElement loraComm braceClient deviceRegistered currentEpoch
       commitmentBytes lastReading console negb];
  cbv beta iota.

Lemma attemptRegistration_run d :
  exists ok h',
    BraceClient.registerDevice (heap_of d) = Some (ok, h') /\
    let c' := if ok && BraceClient._registered (BraceClient.self h')
              then memcpy (commitmentBytes d) 0
                          (BraceClient._commitment (BraceClient.self h')) 32
              else commitmentBytes d in
    attemptRegistration d
    = Some (tt, Main.mk (BraceClient.se h') (BraceClient.lora h') (BraceClient.self h')
                  (deviceRegistered d) (currentEpoch d) c' (lastReading d)
                  (console d ++ [AttemptingRegistration;
                                 if ok then RegistrationRequestSent (firstn 8 c')
                                 else RegistrationFailed])).
Proof.
  destruct (registerDevice_run (heap_of d)) as (ok & h' & Hrun & _).
  exists ok, h'. split; [exact Hrun|]. cbv zeta.
  unfold attemptRegistration, bind, println, modify, Main.via_brace, zoom.
  destruct d as [s l b reg ep c last con]. unfold heap_of in Hrun. device_red.
  cbn [secureElement loraComm braceClient] in Hrun. rewrite Hrun.
  destruct h' as [b1 s1 l1]. cbn [BraceClient.self BraceClient.se BraceClient.lora].
  destruct ok; device_red; cbn [andb].
  - unfold gets at 1. device_red. rewrite getCommitment_run.
    cbn [BraceClient.self BraceClient.se BraceClient.lora]. device_red.
    destruct (BraceClient._registered b1); device_red; rewrite <- app_assoc; reflexivity.
  - rewrite <- app_assoc. reflexivity.
Qed.

Lemma arrive_fields e d :
  sent (arrive e d) = sent d /\ console (arrive e d) = console d /\
  deviceRegistered (arrive e d) = deviceRegistered d /\
  commitmentBytes (arrive e d) = commitmentBytes d /\
  lastReading (arrive e d) = lastReading d /\
  currentEpoch (arrive e d) = currentEpoch d /\
  secureElement (arrive e d) = secureElement d /\
  braceClient (arrive e d) = braceClient d.
Proof. destruct d. repeat split. Qed.

Lemma handle_step d0 d1 :
  handleIncomingMessage d0 = Some (tt, d1) ->
  sent d1 = sent d0 /\ commitmentBytes d1 = commitmentBytes d0 /\
  lastReading d1 = lastReading d0 /\
  (deviceRegistered d0 = true -> deviceRegistered d1 = true) /\
  exists added,
    console d1 = console d0 ++ added /\ length added <= 1 /\
    (deviceRegistered d1 = true ->
     deviceRegistered d0 = true \/ In ReceivedRegistrationAck added).
Proof.
  rewrite handleIncomingMessage_run.
  destruct (receive (repeat 0%Z 256) 256 (loraComm d0)) as [[[len buffer] l']|] eqn:Hrecv;
    [|discriminate].
  apply receive_effect in Hrecv; [|rewrite repeat_length; lia].
  destruct Hrecv as (_ & line & _ & _ & _ & _ & Htx & _).
  intros E. inversion E; subst. clear E.
  destruct d0 as [s l b reg ep c last con]. unfold sent, dispatch.
  cbn [loraComm] in Htx.
  assert (Hsame : forall (reg' : bool) (con' added : list Log),
            con' = con ++ added -> length added <= 1 ->
            (reg' = true -> reg = true \/ In ReceivedRegistrationAck added) ->
            (reg = true -> reg' = true) ->
            HardwareSerial.tx (_serial l') = HardwareSerial.tx (_serial l) /\
            c = c /\ last = last /\ (reg = true -> reg' = true) /\
            exists added0,
              con' = con ++ added0 /\ length added0 <= 1 /\
              (reg' = true -> reg = true \/ In ReceivedRegistrationAck added0)).
  { intros reg' con' added Hcon Hlen Hin Hmono. split; [exact Htx|]. split; [reflexivity|].
    split; [reflexivity|]. split; [exact Hmono|]. exists added. auto. }
  destruct (Nat.ltb 0 len); cbv zeta.
  2:{ device_red.
      apply (Hsame reg con []); [symmetry; apply app_nil_r | cbn; lia | auto | auto]. }
  destruct (nth 0 buffer 0 =? 1)%Z.
  { device_red. apply (Hsame true _ [ReceivedRegistrationAck]);
      [reflexivity | cbn; lia | intros _; right; left; reflexivity | auto]. }
  destruct (nth 0 buffer 0 =? 2)%Z.
  { destruct (Nat.leb 5 len); device_red.
    - eapply Hsame; [reflexivity | cbn; lia | auto | auto].
    - apply (Hsame reg con []); [symmetry; apply app_nil_r | cbn; lia | auto | auto]. }
  destruct (nth 0 buffer 0 =? 3)%Z; device_red;
    (eapply Hsame; [reflexivity | cbn; lia | auto | auto]).
Qed.

Lemma attempt_step d d' :
  length (commitmentBytes d) = 32 ->
  attemptRegistration d = Some (tt, d') -> cycle_effect d d'.
Proof.
  intros Hc Hrun.
  destruct (attemptRegistration_run d) as (ok & h' & Hreg & Hatt). cbv zeta in Hatt.
  rewrite Hatt in Hrun. inversion Hrun; subst. clear Hrun Hatt.
  destruct (registerDevice_run (heap_of d)) as (ok0 & h0 & Hreg0 & _ & _ & Hcases).
  rewrite Hreg in Hreg0. inversion Hreg0; subst ok0 h0. clear Hreg0.
  unfold cycle_effect, sent. cbn [commitmentBytes deviceRegistered currentEpoch
                                   lastReading loraComm console].
  split; [|split; [reflexivity|split; [reflexivity|split; [reflexivity|split]]]].
  - destruct (ok && BraceClient._registered (BraceClient.self h')) eqn:Hboth; [|exact Hc].
    apply andb_prop in Hboth as [-> _].
    destruct Hcases as [[Hf _]|(key & _ & Hcommit & _)]; [discriminate Hf|].
    unfold memcpy. rewrite !length_app, !length_firstn, length_skipn, Hcommit, SHA256_length.
    lia.
  - destruct Hcases as [[_ Hl]|(key & _ & _ & Hlog & _)].
    + exists []. rewrite Hl, app_nil_r. destruct d. split; [reflexivity|].
      split; [cbn; lia | constructor].
    + eexists [_]. unfold radio_log in Hlog. rewrite Hlog. destruct d.
      split; [reflexivity|]. split; [cbn; lia|]. constructor; [|constructor].
      eexists. reflexivity.
  - eexists. reflexivity.
Qed.

Lemma collect_step e d d' :
  length (commitmentBytes d) = 32 ->
  collectAndTransmitData e d = Some (tt, d') -> cycle_effect d d'.
Proof.
  intros Hc Hrun.
  destruct (collectAndTransmitData_run e d Hc) as (d1 & Hrun1 & _ & Hreg & Hep & Hcb & Hlast & _).
  rewrite Hrun in Hrun1. inversion Hrun1; subst d1. clear Hrun1.
  destruct (cycle_transmission e d Hc) as (d1 & Hrun1 & Hsent & _).
  rewrite Hrun in Hrun1. inversion Hrun1; subst d1. clear Hrun1.
  destruct (cycle_console e d Hc) as (d1 & rest & Hrun1 & _ & Hcon).
  rewrite Hrun in Hrun1. inversion Hrun1; subst d1. clear Hrun1.
  unfold cycle_effect. rewrite Hcb.
  split; [exact Hc|]. split; [exact Hreg|]. split; [exact Hep|]. split; [exact Hlast|].
  split; [|eexists; exact Hcon].
  destruct Hsent as [Hsame|(n & sig & _ & _ & Hone)].
  - exists []. rewrite app_nil_r. split; [exact Hsame|]. split; [cbn; lia | constructor].
  - eexists [_]. split; [exact Hone|]. split; [cbn; lia|]. constructor; [|constructor].
    eexists. reflexivity.
Qed.

Lemma cycle_step e d1 d' :
  length (commitmentBytes d1) = 32 ->
  scheduled_cycle e d1 = Some (tt, d') ->
  length (commitmentBytes d') = 32 /\
  deviceRegistered d' = deviceRegistered d1 /\
  currentEpoch d' = currentEpoch d1 /\
  lastReading d' = (if due e d1 then now e else lastReading d1) /\
  (exists more, sent d' = sent d1 ++ more /\ length more <= 1 /\ Forall send_line more) /\
  (due e d1 = false -> d' = d1) /\
  exists added, console d' = console d1 ++ added.
Proof.
  intros Hc. unfold scheduled_cycle. destruct (due e d1).
  - intros Hrun.
    assert (Heff : cycle_effect (set_lastReading (now e) d1) d').
    { destruct (negb (deviceRegistered d1)).
      - apply attempt_step; [destruct d1; exact Hc | exact Hrun].
      - apply (@collect_step e); [destruct d1; exact Hc | exact Hrun]. }
    destruct Heff as (Hc' & Hreg & Hep & Hlast & Hsent & Hcon).
    destruct d1. split; [exact Hc'|]. split; [exact Hreg|]. split; [exact Hep|].
    split; [exact Hlast|]. split; [exact Hsent|]. split; [discriminate | exact Hcon].
  - intros E. inversion E; subst. split; [exact Hc|]. split; [reflexivity|].
    split; [reflexivity|]. split; [reflexivity|].
    split; [exists []; rewrite app_nil_r; split; [reflexivity|]; split; [cbn; lia | constructor]|].
    split; [reflexivity|]. exists []. rewrite app_nil_r. reflexivity.
Qed.

(** What one turn of [loop] may change. *)
Lemma loop_step e d d' :
  length (commitmentBytes d) = 32 ->
  loop e d = Some (tt, d') ->
  length (commitmentBytes d') = 32 /\
  (deviceRegistered d = true -> deviceRegistered d' = true) /\
  lastReading d' = (if due e d then now e else lastReading d) /\
  (exists more, sent d' = sent d ++ more /\ length more <= 1 /\ Forall send_line more) /\
  exists added,
    console d' = console d ++ added /\
    (deviceRegistered d' = true ->
     deviceRegistered d = true \/ In ReceivedRegistrationAck added).
Proof.
  intros Hc. rewrite loop_run.
  destruct (arrive_fields e d) as (Hs0 & Hcon0 & Hreg0 & Hc0 & Hlast0 & _).
  assert (Hdue0 : due e (arrive e d) = due e d) by (unfold due; rewrite Hlast0; reflexivity).
  destruct (pending (arrive e d)).
  - destruct (handleIncomingMessage (arrive e d)) as [[[] d1]|] eqn:Hh; [|discriminate].
    apply handle_step in Hh.
    destruct Hh as (Hs1 & Hc1 & Hlast1 & Hmono & added1 & Hcon1 & _ & Hack).
    intros Hrun. apply cycle_step in Hrun; [|rewrite Hc1, Hc0; exact Hc].
    destruct Hrun as (Hc' & Hreg & _ & Hlast & Hsent & _ & added2 & Hcon2).
    assert (Hdue1 : due e d1 = due e d)
      by (unfold due; rewrite Hlast1, Hlast0; reflexivity).
    split; [exact Hc'|]. split; [rewrite Hreg, <- Hreg0; exact Hmono|].
    split; [rewrite Hlast, Hdue1, Hlast1, Hlast0; reflexivity|].
    split; [rewrite <- Hs0, <- Hs1; exact Hsent|].
    exists (added1 ++ added2). rewrite Hcon2, Hcon1, Hcon0, app_assoc.
    split; [reflexivity|]. rewrite Hreg. intros Hr.
    destruct (Hack Hr) as [Hold|Hin]; [left; rewrite <- Hreg0; exact Hold|].
    right. apply in_or_app. left. exact Hin.
  - intros Hrun. apply cycle_step in Hrun; [|rewrite Hc0; exact Hc].
    destruct Hrun as (Hc' & Hreg & _ & Hlast & Hsent & _ & added2 & Hcon2).
    split; [exact Hc'|]. split; [rewrite Hreg, Hreg0; auto|].
    split; [rewrite Hlast, Hdue0, Hlast0; reflexivity|].
    split; [rewrite <- Hs0; exact Hsent|].
    exists added2. rewrite Hcon2, Hcon0. split; [reflexivity|].
    rewrite Hreg, Hreg0. auto.
Qed.

Lemma run_step ticks : forall d d',
  length (commitmentBytes d) = 32 ->
  run ticks d = Some (tt, d') ->
  length (commitmentBytes d') = 32 /\
  (deviceRegistered d = true -> deviceRegistered d' = true) /\
  (exists more,
     sent d' = sent d ++ more /\ length more <= length ticks /\ Forall send_line more) /\
  exists added,
    console d' = console d ++ added /\
    (deviceRegistered d' = true ->
     deviceRegistered d = true \/ In ReceivedRegistrationAck added).
Proof.
  induction ticks as [|e ticks IH]; intros d d' Hc Hrun.
  - cbn [run] in Hrun. inversion Hrun; subst. split; [exact Hc|]. split; [auto|].
    split; [exists []; rewrite app_nil_r; split; [reflexivity|]; split; [cbn; lia | constructor]|].
    exists []. rewrite app_nil_r. auto.
  - cbn [run] in Hrun. apply bind_run in Hrun. destruct Hrun as ([] & d1 & Hloop & Hrest).
    apply loop_step in Hloop; [|exact Hc].
    destruct Hloop as (Hc1 & Hmono1 & _ & (more1 & Hs1 & Hl1 & Hf1) & added1 & Hcon1 & Hack1).
    apply IH in Hrest; [|exact Hc1].
    destruct Hrest as (Hc' & Hmono & (more & Hs & Hl & Hf) & added & Hcon & Hack).
    split; [exact Hc'|]. split; [auto|]. split.
    + exists (more1 ++ more). rewrite Hs, Hs1, app_assoc. split; [reflexivity|].
      split; [rewrite length_app; cbn [length]; lia | apply Forall_app; auto].
    + exists (added1 ++ added). rewrite Hcon, Hcon1, app_assoc. split; [reflexivity|].
      intros Hr. destruct (Hack Hr) as [Hold|Hin].
      * destruct (Hack1 Hold) as [Hold0|Hin0]; [left; exact Hold0|].
        right. apply in_or_app. left. exact Hin0.
      * right. apply in_or_app. right. exact Hin.
Qed.


(** X13: the commitment [attemptRegistration] reports.  For a client that
    is not registered, the attempt returns with the client still not
    registered and with the flags, the epoch, the schedule and the
    commitment array of [main] unchanged: [getCommitment] refuses because
    [registerDevice] never sets the client's flag.  Either nothing goes to
    the radio and [main] reports the failure, or exactly one line goes out,
    the registration message for the commitment the client has just
    computed and stored, and on acknowledgment [main] reports success
    showing the first eight bytes of its own unchanged array, not of the
    commitment sent. *)
Theorem attemptRegistration_reports_old_commitment (d : Device) :
  BraceClient._registered (braceClient d) = false ->
  exists d',
    attemptRegistration d = Some (tt, d') /\
    BraceClient._registered (braceClient d') = false /\
    commitmentBytes d' = commitmentBytes d /\
    deviceRegistered d' = deviceRegistered d /\
    currentEpoch d' = currentEpoch d /\ lastReading d' = lastReading d /\
    ((sent d' = sent d /\
      console d' = console d ++ [AttemptingRegistration; RegistrationFailed]) \/
     exists key,
       slot_key (atecc (secureElement d)) SLOT_DEVICE_KEY = Some key /\
       let sentCommitment :=
         SHA256 (preimage_buffer (firstn 64 key)
                                 (BraceClient._blindingFactor (braceClient d'))) in
       BraceClient._commitment (braceClient d') = sentCommitment /\
       sent d' = sent d ++ [send_command (0%Z :: sentCommitment)] /\
       console d'
       = console d
           ++ [AttemptingRegistration;
               if acknowledged (hd [] (HardwareSerial.peer (_serial (loraComm d))))
               then RegistrationRequestSent (firstn 8 (commitmentBytes d))
               else RegistrationFailed]).
Proof.
  intros Hnot.
  destruct (attemptRegistration_run d) as (ok & h' & Hreg & Hatt). cbv zeta in Hatt.
  destruct (registerDevice_run (heap_of d)) as (ok0 & h0 & Hreg0 & Hflag & _ & Hcases).
  rewrite Hreg in Hreg0. inversion Hreg0; subst ok0 h0. clear Hreg0.
  assert (Hflag' : BraceClient._registered (BraceClient.self h') = false).
  { rewrite Hflag. destruct d; exact Hnot. }
  rewrite Hflag', andb_false_r in Hatt.
  eexists. split; [exact Hatt|].
  cbn [braceClient commitmentBytes deviceRegistered currentEpoch lastReading console].
  split; [exact Hflag'|]. split; [reflexivity|]. split; [reflexivity|].
  split; [reflexivity|]. split; [reflexivity|].
  unfold sent. cbn [loraComm].
  destruct Hcases as [[-> Hl]|(key & Hkey & Hcommit & Hlog & Hok)].
  - left. rewrite Hl. destruct d. split; reflexivity.
  - right. exists key. split; [destruct d; exact Hkey|]. cbv zeta.
    split; [exact Hcommit|]. unfold radio_log in Hlog. rewrite Hlog, <- Hcommit, Hok.
    destruct d. split; reflexivity.
Qed.

(** X14: idle turns.  With nothing on the UART, nothing arriving and no
    cycle due, any number of turns of [loop] returns and leaves the whole
    device exactly as it was. *)
Theorem idle_turns_change_nothing (ticks : list Tick) (d : Device) :
  HardwareSerial.rx (_serial (loraComm d)) = [] ->
  Forall (fun e => arrived e = [] /\ due e d = false) ticks ->
  run ticks d = Some (tt, d).
Proof.
  intros Hrx Hall. induction Hall as [|e ticks [Harr Hdue] _ IH]; [reflexivity|].
  cbn [run]. rewrite (@bind_step _ _ _ (loop e) (fun _ => run ticks) d tt d); [exact IH|].
  rewrite loop_run.
  assert (Hsame : arrive e d = d).
  { destruct d as [s [[rx tx peer] rssi snr] b reg ep c last con].
    cbn in Hrx. subst rx. unfold arrive. rewrite Harr. reflexivity. }
  rewrite Hsame. unfold pending, HardwareSerial.available. rewrite Hrx.
  unfold scheduled_cycle. rewrite Hdue. reflexivity.
Qed.

(** X15: the schedule of [loop] on the wrapping millisecond clock.  For
    32-bit clock values a cycle is due exactly when no cycle has run yet
    ([lastReading] is 0) or the time elapsed since the last one, counted
    through a wrap of the clock, has reached the interval; after a turn
    [lastReading] is the turn's clock value if a cycle was due and is
    unchanged otherwise. *)
Theorem cycle_schedule (e : Tick) (d : Device) :
  (0 <= now e < 2 ^ 32)%Z -> (0 <= lastReading d < 2 ^ 32)%Z ->
  (due e d = true <->
   lastReading d = 0%Z \/ (SENSOR_INTERVAL_MS <= elapsed (now e) (lastReading d))%Z) /\
  forall d',
    length (commitmentBytes d) = 32 ->
    loop e d = Some (tt, d') ->
    lastReading d' = (if due e d then now e else lastReading d).
Proof.
  intros Hnow Hlast. split.
  - unfold due, to_uint32, elapsed.
    rewrite orb_true_iff, Z.leb_le, Z.eqb_eq.
    change (2 ^ 32)%Z with 4294967296%Z in *.
    assert (Hmod : ((now e - lastReading d) mod 4294967296
                    = if (lastReading d <=? now e)%Z then now e - lastReading d
                      else now e + 4294967296 - lastReading d)%Z).
    { destruct (Z.leb_spec (lastReading d) (now e)).
      - apply Z.mod_small. lia.
      - symmetry. apply (Z.mod_unique _ _ (-1)); lia. }
    rewrite Hmod. tauto.
  - intros d' Hc Hrun. apply loop_step in Hrun; [|exact Hc].
    destruct Hrun as (_ & _ & Hl & _). exact Hl.
Qed.

(** X16: [deviceRegistered] over a run.  Once set it stays set, and it
    is set at the end of a run only if it was set at the start or a
    registration acknowledgment was logged during the run. *)
Theorem registration_flag_set_only_by_ack (ticks : list Tick) (d d' : Device) :
  length (commitmentBytes d) = 32 ->
  run ticks d = Some (tt, d') ->
  (deviceRegistered d = true -> deviceRegistered d' = true) /\
  exists added,
    console d' = console d ++ added /\
    (deviceRegistered d' = true ->
     deviceRegistered d = true \/ In ReceivedRegistrationAck added).
Proof.
  intros Hc Hrun. apply run_step in Hrun; [|exact Hc].
  destruct Hrun as (_ & Hmono & _ & Hcon). split; assumption.
Qed.

(** X17: at most one radio command per turn.  Over any run the lines
    written to the radio only grow, by at most one line per turn of [loop],
    each an [AT+SEND] command; the commitment of [main] keeps its 32
    bytes. *)
Theorem one_radio_command_per_turn (ticks : list Tick) (d d' : Device) :
  length (commitmentBytes d) = 32 ->
  run ticks d = Some (tt, d') ->
  length (commitmentBytes d') = 32 /\
  exists more,
    sent d' = sent d ++ more /\ length more <= length ticks /\ Forall send_line more.
Proof.
  intros Hc Hrun. apply run_step in Hrun; [|exact Hc].
  destruct Hrun as (Hc' & _ & Hsent & _). split; assumption.
Qed.

End LoopFacts.

(** ** What a turn reads and what it discards *)

Section TurnOrder.
Context `{Primitives}.

Import Libc Config ATECCX08A SecureElement LoRaComm Main Spec Frames.









End TurnOrder.

(** ** The start-up commands of the radio *)

Section SetupFacts.

Import Libc LoRaComm LoRaSetup Spec Frames.

Lemma decimal_digits_length fuel : forall z, length (decimal_digits fuel z) <= fuel.
Proof.
  induction fuel as [|fuel IH]; intros z; cbn [decimal_digits]; [cbn; lia|].
  rewrite length_app. cbn [length]. destruct (z <? 10)%Z; [cbn; lia|].
  specialize (IH (z / 10)%Z). lia.
Qed.

Lemma decimalZ_length z : length (decimalZ z) <= 10.
Proof. apply decimal_digits_length. Qed.

Lemma sendCommand_null cmd l :
  LoRaSetup.sendCommand cmd None l = Some ((false, None), commanded cmd l).
Proof.
  destruct l as [[rx tx peer] rssi snr].
  unfold LoRaSetup.sendCommand, LoRaSetup.waitForResponse, bind, serial, zoom,
    HardwareSerial.drain, HardwareSerial.println, modify, gets, commanded.
  cbn [_serial set_serial HardwareSerial.rx HardwareSerial.tx HardwareSerial.peer
       HardwareSerial.set_rx app _rssi _snr].
  destruct (read_line (length (hd [] peer)) (hd [] peer)) as [line rest].
  reflexivity.
Qed.

Lemma sendCommand_buffer cmd l :
  LoRaSetup.sendCommand cmd (Some 64) l
  = Some ((nonempty (firstn 63 (fst (read_line (length (hd [] (HardwareSerial.peer (_serial l))))
                                        (hd [] (HardwareSerial.peer (_serial l)))))),
           Some (firstn 63 (fst (read_line (length (hd [] (HardwareSerial.peer (_serial l))))
                                   (hd [] (HardwareSerial.peer (_serial l))))) ++ [NUL])),
          commanded cmd l).
Proof.
  destruct l as [[rx tx peer] rssi snr].
  unfold LoRaSetup.sendCommand, LoRaSetup.waitForResponse, bind, serial, zoom,
    HardwareSerial.drain, HardwareSerial.println, modify, gets, commanded.
  cbn [_serial set_serial HardwareSerial.rx HardwareSerial.tx HardwareSerial.peer
       HardwareSerial.set_rx app _rssi _snr].
  destruct (read_line (length (hd [] peer)) (hd [] peer)) as [line rest].
  cbn [fst snd]. unfold ret.
  destruct (firstn 63 line); reflexivity.
Qed.

Lemma commanded_fields cmd l :
  _rssi (commanded cmd l) = _rssi l /\ _snr (commanded cmd l) = _snr l /\
  HardwareSerial.tx (_serial (commanded cmd l)) = HardwareSerial.tx (_serial l) ++ [cmd] /\
  HardwareSerial.peer (_serial (commanded cmd l)) = tl (HardwareSerial.peer (_serial l)).
Proof. repeat split. Qed.

Lemma configure_run frequency spreadingFactor bandwidth l :
  configure frequency spreadingFactor bandwidth l
  = Some (tt,
          commanded (chars "AT+CRFOP=20")
            (commanded (chars "AT+PARAMETER=" ++ decimalZ spreadingFactor ++ chars ","
                          ++ decimalZ (bandwidth_code bandwidth) ++ chars ",1,12")
               (commanded (chars "AT+BAND=" ++ decimalZ frequency) l))).
Proof.
  unfold configure, bind. rewrite sendCommand_null. cbv zeta.
  fold (bandwidth_code bandwidth).
  rewrite sendCommand_null, sendCommand_null. unfold ret.
  pose proof (decimalZ_length frequency) as Hf.
  pose proof (decimalZ_length spreadingFactor) as Hs.
  pose proof (decimalZ_length (bandwidth_code bandwidth)) as Hb.
  assert (Hband : firstn 63 (chars "AT+BAND=" ++ decimalZ frequency)
                  = chars "AT+BAND=" ++ decimalZ frequency).
  { apply firstn_all2. rewrite length_app.
    change (length (chars "AT+BAND=")) with 8. lia. }
  assert (Hpar : firstn 63 (chars "AT+PARAMETER=" ++ decimalZ spreadingFactor ++ chars ","
                              ++ decimalZ (bandwidth_code bandwidth) ++ chars ","
                              ++ decimalZ 1 ++ chars ",12")
                 = chars "AT+PARAMETER=" ++ decimalZ spreadingFactor ++ chars ","
                     ++ decimalZ (bandwidth_code bandwidth) ++ chars ",1,12").
  { rewrite firstn_all2; [reflexivity|]. rewrite !length_app.
    change (length (chars "AT+PARAMETER=")) with 13.
    change (length (chars ",")) with 1. change (length (decimalZ 1)) with 1.
    change (length (chars ",12")) with 3. lia. }
  rewrite Hband, Hpar. reflexivity.
Qed.

Lemma commanded_drained cmd q l :
  commanded cmd (set_serial (HardwareSerial.set_rx q (_serial l)) l) = commanded cmd l.
Proof. destruct l as [[rx tx peer] rssi snr]. reflexivity. Qed.

(** X18: [LoRaComm::configure].  It writes three lines, the band, the
    parameters with the bandwidth code (2 from 500 kHz, 1 from 250 kHz,
    otherwise 0) and the output power, none cut by the 64-character
    buffer, each sent whatever the module answered to the one before; it
    consumes three answers, and neither the pending input nor the answers
    influence what is written. *)
Theorem configure_sends_three_commands (frequency spreadingFactor bandwidth : Z)
        (l : LoRaComm.t) :
  (0 <= frequency < 2 ^ 32)%Z -> (0 <= spreadingFactor < 256)%Z ->
  (0 <= bandwidth < 65536)%Z ->
  exists l',
    configure frequency spreadingFactor bandwidth l = Some (tt, l') /\
    HardwareSerial.tx (_serial l')
    = HardwareSerial.tx (_serial l)
        ++ [chars "AT+BAND=" ++ decimalZ frequency;
            chars "AT+PARAMETER=" ++ decimalZ spreadingFactor ++ chars ","
              ++ decimalZ (bandwidth_code bandwidth) ++ chars ",1,12";
            chars "AT+CRFOP=20"] /\
    HardwareSerial.peer (_serial l') = tl (tl (tl (HardwareSerial.peer (_serial l)))) /\
    _rssi l' = _rssi l /\ _snr l' = _snr l /\
    (bandwidth_code bandwidth = 2%Z <-> (500 <= bandwidth)%Z) /\
    (bandwidth_code bandwidth = 1%Z <-> (250 <= bandwidth < 500)%Z) /\
    (bandwidth_code bandwidth = 0%Z <-> (bandwidth < 250)%Z) /\
    forall q,
      configure frequency spreadingFactor bandwidth
                (set_serial (HardwareSerial.set_rx q (_serial l)) l) = Some (tt, l').
Proof.
  intros _ _ _. eexists. split; [apply configure_run|].
  split; [cbn [commanded _serial set_serial HardwareSerial.tx]; rewrite <- !app_assoc; reflexivity|].
  split; [reflexivity|]. split; [reflexivity|]. split; [reflexivity|].
  assert (Hcode : (bandwidth_code bandwidth = 2%Z <-> (500 <= bandwidth)%Z) /\
                  (bandwidth_code bandwidth = 1%Z <-> (250 <= bandwidth < 500)%Z) /\
                  (bandwidth_code bandwidth = 0%Z <-> (bandwidth < 250)%Z)).
  { unfold bandwidth_code.
    destruct (Z.leb_spec 500 bandwidth); [|destruct (Z.leb_spec 250 bandwidth)];
      repeat match goal with
             | |- _ /\ _ => split
             | |- _ <-> _ => split; intros E; try discriminate E; try reflexivity; try lia
             end. }
  destruct Hcode as (H2 & H1 & H0).
  split; [exact H2|]. split; [exact H1|]. split; [exact H0|].
  intros q. rewrite configure_run, commanded_drained. reflexivity.
Qed.

(** X19: [LoRaComm::begin].  It writes the single line [AT] and reports
    whether the first line of the module's answer, cut to 63 characters,
    contains [+OK]; a module that stays silent makes it fail. *)
Theorem lora_begin_probes_module (l : LoRaComm.t) :
  exists l',
    LoRaSetup.begin l
    = Some (acknowledged (hd [] (HardwareSerial.peer (_serial l))), l') /\
    HardwareSerial.tx (_serial l') = HardwareSerial.tx (_serial l) ++ [chars "AT"] /\
    HardwareSerial.peer (_serial l') = tl (HardwareSerial.peer (_serial l)) /\
    _rssi l' = _rssi l /\ _snr l' = _snr l /\
    (HardwareSerial.peer (_serial l) = [] ->
     LoRaSetup.begin l = Some (false, l')).
Proof.
  exists (commanded (chars "AT") l).
  assert (Hrun : LoRaSetup.begin l
                 = Some (acknowledged (hd [] (HardwareSerial.peer (_serial l))),
                         commanded (chars "AT") l)).
  { unfold LoRaSetup.begin, bind, serial, zoom, HardwareSerial.drain, modify.
    rewrite sendCommand_buffer, commanded_drained.
    destruct l as [[rx tx peer] rssi snr].
    cbn [_serial set_serial HardwareSerial.peer HardwareSerial.set_rx].
    unfold acknowledged.
    destruct (nonempty _); reflexivity. }
  split; [exact Hrun|]. split; [reflexivity|]. split; [reflexivity|].
  split; [reflexivity|]. split; [reflexivity|].
  intros Hpeer. rewrite Hrun, Hpeer. reflexivity.
Qed.

(** X20: [setNetworkId] and [setAddress] each write one line with the
    decimal value, not cut by the 32-character buffer, and take one
    answer from the module without looking at it. *)
Theorem addressing_commands (networkId address : Z) (l : LoRaComm.t) :
  (0 <= networkId < 256)%Z -> (0 <= address < 65536)%Z ->
  setNetworkId networkId l
  = Some (tt, commanded (chars "AT+NETWORKID=" ++ decimalZ networkId) l) /\
  setAddress address l
  = Some (tt, commanded (chars "AT+ADDRESS=" ++ decimalZ address) l).
Proof.
  intros _ _.
  pose proof (decimalZ_length networkId) as Hn.
  pose proof (decimalZ_length address) as Ha.
  unfold setNetworkId, setAddress, bind. rewrite !sendCommand_null. unfold ret.
  rewrite !firstn_all2; [split; reflexivity | |];
    rewrite length_app;
    [change (length (chars "AT+ADDRESS=")) with 11
    | change (length (chars "AT+NETWORKID=")) with 13]; lia.
Qed.

End SetupFacts.


(** ** Sensors, start-up and provisioning of the secure element *)

Section StartUpFacts.
Context `{Primitives}.

Import Config ATECCX08A SecureElement Spec Frames Provisioning.

Lemma sensors_begin_run at76 at77 s :
  Sensors.begin at76 at77 s = Some (at76 || at77, Sensors.mk (at76 || at77) true).
Proof. destruct s, at76, at77; reflexivity. Qed.

(** X21: [Sensors::begin] and [getStatus].  [begin] succeeds exactly when
    a BME280 answers at one of the two addresses, and marks the soil sensor
    initialised in either case, so that the status afterwards is 3 or 2;
    in general the status is a two-bit map of the two flags and reading it
    changes nothing. *)
Theorem sensor_status_after_begin (at76 at77 : bool) (s : Sensors.t) :
  exists s',
    Sensors.begin at76 at77 s = Some (at76 || at77, s') /\
    Sensors._soilInit s' = true /\
    Sensors.getStatus s' = Some (if at76 || at77 then 3%Z else 2%Z, s') /\
    forall s0 : Sensors.t,
      exists status,
        Sensors.getStatus s0 = Some (status, s0) /\ (0 <= status <= 3)%Z /\
        Z.testbit status 0 = Sensors._bme280Init s0 /\
        Z.testbit status 1 = Sensors._soilInit s0.
Proof.
  eexists. split; [apply sensors_begin_run|]. split; [reflexivity|].
  split; [destruct at76, at77; reflexivity|].
  intros [[] []]; [exists 3%Z | exists 1%Z | exists 2%Z | exists 0%Z];
    (split; [reflexivity|]); (split; [lia|]); split; reflexivity.
Qed.




Lemma generateKey_run slot fresh s :
  generateKey slot fresh s =
  if _initialized s then
    if hd true (bus (atecc s))
    then Some (true, SecureElement.mk true
                       (set_slot_key slot fresh (set_bus (tl (bus (atecc s))) (atecc s))))
    else Some (false, SecureElement.mk true (set_bus (tl (bus (atecc s))) (atecc s)))
  else Some (false, s).
Proof.
  destruct s as [init a]. unfold generateKey, bind, gets. cbn [_initialized atecc].
  destruct init; cbn [negb]; [|reflexivity].
  rewrite chip_run. unfold generatePrivateKey, bind. rewrite command_run.
  destruct (hd true (bus a)); reflexivity.
Qed.

(** X23: [generateKey] provisions a slot.  With a working chip it
    succeeds, the slot then holds the key the chip drew, the other slots
    are as before, and [isKeyProvisioned] and [getPublicKey] then answer
    for the slot with that key. *)
Theorem generateKey_provisions_slot (slot : Z) (fresh : list Z) (s : SecureElement.t) :
  ready s ->
  exists s1 s2,
    generateKey slot fresh s = Some (true, s1) /\ ready s1 /\
    slot_key (atecc s1) slot = Some fresh /\
    (forall k, k <> slot -> slot_key (atecc s1) k = slot_key (atecc s) k) /\
    KeySlots.isKeyProvisioned slot s1 = Some (true, s2) /\
    getPublicKey slot s1 = Some (Some (firstn 64 fresh), s2).
Proof.
  intros [Hinit Hh]. rewrite generateKey_run, Hinit, (healthy_hd Hh).
  set (s1 := SecureElement.mk true
               (set_slot_key slot fresh (set_bus (tl (bus (atecc s))) (atecc s)))).
  assert (Hr1 : ready s1) by (split; [reflexivity | exact (healthy_tl Hh)]).
  assert (Hkey : slot_key (atecc s1) slot = Some fresh)
    by (cbn [s1 atecc slot_key set_slot_key]; rewrite Z.eqb_refl; reflexivity).
  destruct (getPublicKey_run slot s1) as (r & s2 & Hget & _ & _ & Hready).
  destruct (Hready Hr1 fresh Hkey) as [-> _].
  exists s1, s2. split; [reflexivity|]. split; [exact Hr1|]. split; [exact Hkey|].
  split.
  - intros k Hk. cbn [s1 atecc slot_key set_slot_key set_bus].
    destruct (Z.eqb_spec k slot); [contradiction | reflexivity].
  - split; [|exact Hget].
    unfold KeySlots.isKeyProvisioned, bind, gets. cbn [s1 _initialized negb].
    fold s1. rewrite Hget. reflexivity.
Qed.

(** X24: a failed command makes a provisioned slot look empty.  If the
    chip fails one command and then works, [isKeyProvisioned] answers no
    for a slot that holds a key, and [generateKey], called as [setup] does
    after that answer, succeeds and replaces the key. *)
Theorem transient_failure_replaces_key (slot : Z) (old fresh : list Z) (s : SecureElement.t)
        (rest : list bool) :
  _initialized s = true ->
  bus (atecc s) = false :: rest -> Forall (fun ok => ok = true) rest ->
  slot_key (atecc s) slot = Some old ->
  exists s1 s2,
    KeySlots.isKeyProvisioned slot s = Some (false, s1) /\
    slot_key (atecc s1) slot = Some old /\
    generateKey slot fresh s1 = Some (true, s2) /\
    slot_key (atecc s2) slot = Some fresh.
Proof.
  intros Hinit Hbus Hrest Hold. destruct s as [init a]. cbn [_initialized atecc] in *.
  subst init.
  exists (SecureElement.mk true (set_bus rest a)).
  eexists. split.
  - unfold KeySlots.isKeyProvisioned, getPublicKey, bind, gets. cbn [_initialized negb].
    rewrite chip_run, generatePublicKey_run, Hbus. reflexivity.
  - split; [exact Hold|]. rewrite generateKey_run. cbn [_initialized atecc bus set_bus].
    assert (Hhd : hd true rest = true) by (destruct Hrest; [reflexivity | assumption]).
    rewrite Hhd. split; [reflexivity|].
    cbn [atecc slot_key set_slot_key]. rewrite Z.eqb_refl. reflexivity.
Qed.

Lemma sha256_chunks_key turns : forall ptr a r a',
  sha256_chunks turns ptr a = Some (r, a') ->
  publicKey64Bytes a' = publicKey64Bytes a.
Proof.
  induction turns as [|turns IH]; intros ptr a r a'; cbn [sha256_chunks];
    destruct (Nat.ltb 64 (length ptr)); unfold ret; intros Hrun;
    try (inversion Hrun; reflexivity).
  revert Hrun. unfold bind. rewrite sha256Update_run.
  destruct (hd true (bus a)); cbn [negb]; unfold ret; intros Hrun.
  - apply IH in Hrun. rewrite Hrun. reflexivity.
  - inversion Hrun. reflexivity.
Qed.

Lemma sha256_key data s r s' :
  sha256 data s = Some (r, s') ->
  publicKey64Bytes (atecc s') = publicKey64Bytes (atecc s).
Proof.
  destruct s as [init a]. unfold sha256, bind, gets. cbn [_initialized atecc].
  destruct init; cbn [negb]; unfold ret; [|intros E; inversion E; reflexivity].
  rewrite chip_run, sha256Start_run.
  destruct (hd true (bus a)); cbn [negb]; [|intros E; inversion E; reflexivity].
  rewrite chip_run.
  destruct (sha256_chunks _ _ _) as [[[remaining|] a1]|] eqn:Hchunks;
    [| intros E; inversion E; subst; cbn [atecc];
       apply sha256_chunks_key in Hchunks; exact Hchunks
     | discriminate].
  apply sha256_chunks_key in Hchunks. cbn [publicKey64Bytes set_sha_absorbed set_bus] in Hchunks.
  destruct (Nat.ltb 0 (length remaining)).
  - rewrite chip_run, sha256Update_run.
    destruct (hd true (bus a1)); cbn [negb].
    + rewrite chip_run, sha256End_run. intros E. inversion E; subst. exact Hchunks.
    + intros E. inversion E; subst. exact Hchunks.
  - cbn [negb]. rewrite chip_run, sha256End_run. intros E. inversion E; subst. exact Hchunks.
Qed.

Section Verify.
Variable VERIFY : list Z -> list Z -> list Z -> bool.

Lemma verify_run publicKey data signature s :
  ready s -> length publicKey = 64 -> length signature = 64 ->
  length (publicKey64Bytes (atecc s)) = 64 ->
  exists s',
    verify VERIFY publicKey data signature s
    = Some (VERIFY publicKey (SHA256 data) signature, s') /\
    ready s' /\ publicKey64Bytes (atecc s') = publicKey.
Proof.
  intros Hr Hpk Hsig Hbuf. pose proof Hr as [Hinit _].
  destruct (sha256_run data s) as (r & s1 & Hrun & _ & _ & Hready).
  destruct (Hready Hr) as [-> [Hinit1 Hh1]].
  pose proof (@sha256_key _ _ _ _ Hrun) as Hkey. rewrite <- Hkey in Hbuf.
  unfold verify, bind, gets. rewrite Hinit. cbn [negb]. rewrite Hrun.
  destruct s1 as [init1 a1]. cbn [_initialized atecc] in *. subst init1.
  rewrite chip_run. unfold modify. rewrite chip_run.
  unfold verifySignature, bind. rewrite command_run. unfold get, ret.
  cbn [bus set_publicKey64Bytes set_bus publicKey64Bytes hd tl].
  rewrite (healthy_hd Hh1). cbn [andb].
  rewrite (memcpy_whole (repeat 0%Z 64) signature) by (rewrite ?repeat_length; auto).
  rewrite (memcpy_whole (publicKey64Bytes a1) publicKey) by assumption.
  eexists. split; [reflexivity|].
  split; [split; [reflexivity | exact (healthy_tl Hh1)] | reflexivity].
Qed.

(** X25: [verify] checks a signature over the digest of the message.  With
    a working chip the result is the chip's verdict for the caller's key,
    [SHA256] of the data and the caller's signature, and the caller's key
    is left in the chip's key buffer; if the chip accepts its own
    signatures under that key, then what [sign] returned for the data is
    accepted. *)
Theorem verify_accepts_own_signature (publicKey data sg : list Z)
        (s0 s0' s : SecureElement.t) :
  ready s -> length publicKey = 64 ->
  length (publicKey64Bytes (atecc s)) = 64 ->
  (forall digest, VERIFY publicKey digest (ECDSA digest) = true) ->
  sign data s0 = Some (Some sg, s0') ->
  exists s',
    verify VERIFY publicKey data sg s = Some (true, s') /\ ready s' /\
    publicKey64Bytes (atecc s') = publicKey /\
    forall other, length other = 64 ->
      exists s'', verify VERIFY publicKey data other s
                  = Some (VERIFY publicKey (SHA256 data) other, s'').
Proof.
  intros Hr Hpk Hbuf Hsound Hsign.
  destruct (sign_run data s0) as (r & t & Hrun & _ & Hsome & _).
  rewrite Hsign in Hrun. inversion Hrun; subst r t.
  rewrite (Hsome sg eq_refl) in *.
  destruct (verify_run publicKey data (ECDSA (SHA256 data)) Hr Hpk (ECDSA_length _) Hbuf)
    as (s' & Hv & Hr' & Hkey).
  rewrite Hsound in Hv. exists s'. split; [exact Hv|]. split; [exact Hr'|].
  split; [exact Hkey|]. intros other Hother.
  destruct (verify_run publicKey data other Hr Hpk Hother Hbuf) as (s'' & Hv' & _).
  exists s''. exact Hv'.
Qed.

End Verify.

End StartUpFacts.

(** ** Accessors and the response reader *)

Section Accessors.
Context `{Primitives}.

Import Config ATECCX08A SecureElement BraceClient Spec Frames.

(** X26: what the accessors deliver after [begin].  On a working chip
    [begin] returns, and afterwards the three accessors agree with the key
    slots: if the blinding-factor slot and the device-key slot both hold a
    key, [isRegistered] is true, [getCommitment] fills a 32-byte array
    with the hash of the preimage built from the device key and the
    blinding factor that was in memory before [begin], and
    [getMerkleProof] succeeds with a proof of length 0; if one of the slots
    is empty all three refuse and leave their arguments alone.  A later
    [registerDevice] does not change what [isRegistered] and
    [getMerkleProof] answer; when the client is registered and the call
    succeeds, [getCommitment] then delivers the commitment that went out
    in the registration message. *)
Theorem accessors_after_begin (h : heap) (c : list Z) (proofLen : Z) :
  ready (se h) -> length c = 32 ->
  exists h' b,
    begin h = Some (tt, h') /\
    isRegistered h' = Some (b, h') /\
    (b = true <->
     slot_key (atecc (se h)) SLOT_BLINDING_FACTOR <> None /\
     slot_key (atecc (se h)) SLOT_DEVICE_KEY <> None) /\
    (b = true ->
     exists key,
       slot_key (atecc (se h)) SLOT_DEVICE_KEY = Some key /\
       getCommitment c h'
       = Some ((true, SHA256 (preimage_buffer (firstn 64 key) (_blindingFactor (self h)))),
               h') /\
       getMerkleProof proofLen h' = Some ((true, 0%Z), h')) /\
    (b = false ->
     getCommitment c h' = Some ((false, c), h') /\
     getMerkleProof proofLen h' = Some ((false, proofLen), h')) /\
    forall ok h'',
      registerDevice h' = Some (ok, h'') ->
      isRegistered h'' = Some (b, h'') /\
      getMerkleProof proofLen h''
      = Some ((b, if b then 0%Z else proofLen), h'') /\
      (b = true -> ok = true ->
       exists sentCommitment,
         getCommitment c h'' = Some ((true, sentCommitment), h'') /\
         radio_log h'' = radio_log h' ++ [send_command (0%Z :: sentCommitment)]).
Proof.
  intros Hready Hc.
  destruct (begin_run h) as (h' & Hrun & _ & _ & _ & _ & _ & Hyes & _ & Hiff).
  exists h', (_registered (self h')).
  split; [exact Hrun|]. split; [reflexivity|]. split; [exact (Hiff Hready)|].
  split; [|split].
  - intros Hb. destruct (Hyes Hb) as (_ & key & Hkey & Hcommit).
    exists key. split; [exact Hkey|].
    rewrite getCommitment_run. unfold getMerkleProof, bind, gets, ret.
    rewrite Hb. cbn [negb]. rewrite Hcommit.
    rewrite memcpy_whole by (exact Hc || apply SHA256_length). split; reflexivity.
  - intros Hb. rewrite getCommitment_run. unfold getMerkleProof, bind, gets, ret.
    rewrite Hb. cbn [negb]. split; reflexivity.
  - intros ok h'' Hreg.
    destruct (registerDevice_run h') as (ok0 & h0 & Hreg0 & Hflag & _ & Hcases).
    rewrite Hreg in Hreg0. inversion Hreg0; subst ok0 h0. clear Hreg0.
    split; [unfold isRegistered, gets; rewrite Hflag; reflexivity|].
    split.
    { unfold getMerkleProof, bind, gets, ret. rewrite Hflag.
      destruct (_registered (self h')); reflexivity. }
    intros Hb Hok.
    destruct Hcases as [[Hf _]|(key & _ & Hcommit & Hlog & _)];
      [rewrite Hok in Hf; discriminate Hf|].
    exists (_commitment (self h'')). split; [|exact Hlog].
    rewrite getCommitment_run, Hflag, Hb. cbn [negb].
    rewrite memcpy_whole by (exact Hc || (rewrite Hcommit; apply SHA256_length)).
    reflexivity.
Qed.

End Accessors.

Section ResponseFacts.

Import Libc LoRaComm Spec Frames.

(** X27: [waitForResponse].  It takes from the UART everything up to and
    including the first line feed, or all there is when no line feed
    comes; without a response buffer it reports failure whatever arrived;
    with a buffer of [maxLen >= 1] characters it keeps the first
    [maxLen - 1] characters NUL-terminated, within the buffer, and reports
    success exactly when it kept one, so never with a one-character
    buffer. *)
Theorem waitForResponse_contract (response : option nat) (l : LoRaComm.t) :
  exists ok r l' line,
    LoRaSetup.waitForResponse response l = Some ((ok, r), l') /\
    HardwareSerial.rx (_serial l) = line ++ HardwareSerial.rx (_serial l') /\
    forallb inline (removelast line) = true /\
    (forallb inline line = true -> HardwareSerial.rx (_serial l') = []) /\
    HardwareSerial.tx (_serial l') = HardwareSerial.tx (_serial l) /\
    HardwareSerial.peer (_serial l') = HardwareSerial.peer (_serial l) /\
    _rssi l' = _rssi l /\ _snr l' = _snr l /\
    match response with
    | None => ok = false /\ r = None
    | Some maxLen =>
        1 <= maxLen ->
        r = Some (firstn (maxLen - 1) line ++ [NUL]) /\
        length (firstn (maxLen - 1) line ++ [NUL]) <= maxLen /\
        (ok = true <-> firstn (maxLen - 1) line <> []) /\
        (maxLen = 1 -> ok = false)
    end.
Proof.
  destruct l as [[rx tx peer] rssi snr].
  unfold LoRaSetup.waitForResponse, bind, gets, serial, zoom, modify.
  cbn [_serial HardwareSerial.rx].
  destruct (read_line (length rx) rx) as [line rest] eqn:Hline.
  assert (Hwhole : forall room q line0 rest0,
            read_line room q = (line0, rest0) -> length q <= room ->
            forallb inline line0 = true -> rest0 = []).
  { induction room as [|room IH]; intros q line0 rest0 Hrun Hq Hin.
    - destruct q; [|cbn in Hq; lia]. cbn in Hrun. inversion Hrun. reflexivity.
    - destruct q as [|c q]; cbn [read_line] in Hrun; [inversion Hrun; reflexivity|].
      destruct (Ascii.eqb c "010") eqn:Hc.
      + inversion Hrun; subst. cbn [forallb] in Hin. unfold inline in Hin.
        change LF with "010"%char in Hin. rewrite Hc in Hin. discriminate Hin.
      + destruct (read_line room q) as [line1 rest1] eqn:Hq1. inversion Hrun; subst.
        cbn [forallb] in Hin. apply andb_prop in Hin as [_ Hin].
        apply (IH q line1 rest0 Hq1); [cbn [length] in Hq; lia | exact Hin]. }
  destruct (@read_line_split _ _ _ _ Hline) as (Hq & _ & Hin & _).
  pose proof (Hwhole _ _ _ _ Hline (le_n _)) as Hrest.
  destruct response as [maxLen|].
  - eexists. eexists. eexists. exists line. split; [reflexivity|].
    cbn [_serial set_serial HardwareSerial.rx HardwareSerial.tx HardwareSerial.peer
         HardwareSerial.set_rx _rssi _snr].
    split; [exact Hq|]. split; [exact Hin|]. split; [exact Hrest|].
    split; [reflexivity|]. split; [reflexivity|]. split; [reflexivity|].
    split; [reflexivity|]. intros Hmax.
    destruct maxLen as [|m]; [lia|]. replace (S m - 1) with m by lia.
    split; [reflexivity|]. split.
    { rewrite length_app, length_firstn. cbn [length]. lia. }
    split.
    { destruct (firstn m line); cbn [app length Nat.eqb negb]; split; intros E;
        first [reflexivity | discriminate | discriminate E | destruct (E eq_refl)]. }
    intros Hone. assert (m = 0) as -> by lia. reflexivity.
  - exists false, None. eexists. exists line. split; [reflexivity|].
    cbn [_serial set_serial HardwareSerial.rx HardwareSerial.tx HardwareSerial.peer
         HardwareSerial.set_rx _rssi _snr].
    repeat split; assumption.
Qed.

End ResponseFacts.


(** ** The further properties on the bench *)

Section OnTheRig.

Import Libc LoRaComm ATECCX08A SecureElement Main Spec Frames Provisioning.

#[local] Existing Instance Bench.primitives.

Lemma same_bytes_refl a : Rig.same_bytes a a = true.
Proof.
  unfold Rig.same_bytes. rewrite Nat.eqb_refl. cbn [andb].
  induction a as [|x a IH]; [reflexivity|].
  cbn [combine forallb fst snd]. rewrite Z.eqb_refl, IH. reflexivity.
Qed.

Lemma epoch_frame_sets_epoch_witness :
  exists d',
    handleIncomingMessage (Rig.listening_device (Rig.epoch_update 7 ++ [])) = Some (tt, d') /\
    currentEpoch d' = 7%Z.
Proof.
  destruct (@epoch_frame_sets_epoch (Rig.listening_device (Rig.epoch_update 7 ++ []))
              1 7 [] (-40) 9 [])
    as (d' & Hrun & He & _).
  - change (2 ^ 32)%Z with 4294967296%Z. lia.
  - constructor.
  - cbn [length]. lia.
  - apply Nat.leb_le. vm_compute. reflexivity.
  - unfold LONG_MIN, LONG_MAX. lia.
  - unfold LONG_MIN, LONG_MAX. lia.
  - reflexivity.
  - exists d'. split; assumption.
Defined.

Lemma control_frame_dispatch_witness :
  exists d',
    handleIncomingMessage (Rig.listening_device (Rig.ack ++ [])) = Some (tt, d') /\
    deviceRegistered d' = true /\
    console d' = [ReceivedRegistrationAck].
Proof.
  destruct (@control_frame_dispatch (Rig.listening_device (Rig.ack ++ []))
              1 1 [] (-40) 9 [])
    as (d' & Hrun & _ & _ & _ & _ & _ & Hack & _).
  - unfold is_byte. lia.
  - constructor.
  - cbn [length]. lia.
  - apply Nat.leb_le. vm_compute. reflexivity.
  - unfold LONG_MIN, LONG_MAX. lia.
  - unfold LONG_MIN, LONG_MAX. lia.
  - reflexivity.
  - destruct (Hack eq_refl) as (Hreg & _ & Hcon).
    exists d'. split; [exact Hrun|]. split; [exact Hreg | exact Hcon].
Defined.

Lemma random_fills_buffer_witness :
  exists s',
    SecureElement.random (repeat 0%Z 40) 20 (Bench.secure_element [])
    = Some ((true, firstn 20 Bench.fresh_random ++ repeat 0%Z 20), s').
Proof.
  destruct (@random_fills_buffer (repeat 0%Z 40) 20 (Bench.secure_element []))
    as (s' & Hrun & _).
  - exact bench_ready.
  - cbn. lia.
  - cbn. lia.
  - repeat constructor.
  - exists s'. rewrite Hrun. reflexivity.
Defined.

Lemma nullifier_input_separates_epochs_witness :
  exists n1 n2,
    n1 = MAC (bytes_of Config.NULLIFIER_DOMAIN ++ [0; 0; 0; 5]%Z) /\
    n2 = MAC (bytes_of Config.NULLIFIER_DOMAIN ++ [0; 0; 0; 6]%Z) /\
    bytes_of Config.NULLIFIER_DOMAIN ++ [0; 0; 0; 5]%Z
    <> bytes_of Config.NULLIFIER_DOMAIN ++ [0; 0; 0; 6]%Z.
Proof.
  eassert (H1 : computeNullifier 5 (Bench.secure_element []) = Some (Some _, _))
    by (vm_compute; reflexivity).
  eassert (H2 : computeNullifier 6 (Bench.secure_element []) = Some (Some _, _))
    by (vm_compute; reflexivity).
  assert (Hr1 : (0 <= 5 < 2 ^ 32)%Z) by (change (2 ^ 32)%Z with 4294967296%Z; lia).
  assert (Hr2 : (0 <= 6 < 2 ^ 32)%Z) by (change (2 ^ 32)%Z with 4294967296%Z; lia).
  destruct (@nullifier_input_separates_epochs Bench.primitives 5 6 _ _ _ _ _ Hr1 Hr2 H1 H2)
    as (Hn1 & Hn2 & _ & _ & _ & _ & Hiff).
  eexists. eexists. split; [exact Hn1|]. split; [exact Hn2|].
  intros Heq. apply Hiff in Heq. discriminate Heq.
Defined.

Lemma registerDevice_chip_failure_witness :
  exists h',
    BraceClient.registerDevice (Rig.faulty_heap [false]) = Some (false, h') /\
    BraceClient.self h' = Bench.fresh_client /\
    BraceClient.lora h' = Bench.lora [].
Proof.
  destruct (@registerDevice_chip_failure Bench.primitives (Rig.faulty_heap [false]) []
              eq_refl eq_refl eq_refl) as [Hfirst _].
  destruct (Hfirst eq_refl) as (h' & Hrun & Hself & Hlora & _).
  exists h'. split; [exact Hrun|]. split; [exact Hself | exact Hlora].
Defined.

Lemma idle_turns_change_nothing_witness :
  run [Bench.tick 2000 []; Bench.tick 900000 []] (Bench.enrolled_device 5 [] [])
  = Some (tt, Bench.enrolled_device 5 [] []).
Proof.
  apply (@idle_turns_change_nothing Bench.primitives); [reflexivity|].
  repeat constructor.
Defined.

Lemma cycle_schedule_witness :
  due (Bench.tick 900000 []) (Rig.late_device 1000000) = true /\
  due (Bench.tick 700000 []) (Rig.late_device 1000000) = false.
Proof.
  assert (Hlast : (0 <= lastReading (Rig.late_device 1000000) < 2 ^ 32)%Z)
    by (cbn; lia).
  assert (Hnow1 : (0 <= now (Bench.tick 900000 []) < 2 ^ 32)%Z) by (cbn; lia).
  assert (Hnow2 : (0 <= now (Bench.tick 700000 []) < 2 ^ 32)%Z) by (cbn; lia).
  destruct (@cycle_schedule Bench.primitives _ _ Hnow1 Hlast) as [[_ Hdue] _].
  destruct (@cycle_schedule Bench.primitives _ _ Hnow2 Hlast) as [[Hnot _] _].
  split.
  - apply Hdue. right. vm_compute. discriminate.
  - destruct (due (Bench.tick 700000 []) (Rig.late_device 1000000)); [|reflexivity].
    destruct (Hnot eq_refl) as [Hz|Hle]; [discriminate Hz|].
    vm_compute in Hle. destruct (Hle eq_refl).
Defined.

Lemma registration_flag_set_only_by_ack_witness :
  exists d' added,
    run [Bench.tick 1000 []; Bench.tick 1100 Bench.ack_frame; Bench.tick 1801100 []]
        Bench.fresh_device
    = Some (tt, d') /\
    console d' = added /\ deviceRegistered d' = true /\
    In ReceivedRegistrationAck added.
Proof.
  destruct (run [Bench.tick 1000 []; Bench.tick 1100 Bench.ack_frame;
                 Bench.tick 1801100 []] Bench.fresh_device)
    as [[[] d']|] eqn:Hrun; [|vm_compute in Hrun; discriminate].
  destruct (@registration_flag_set_only_by_ack Bench.primitives
              [Bench.tick 1000 []; Bench.tick 1100 Bench.ack_frame; Bench.tick 1801100 []]
              Bench.fresh_device d' eq_refl Hrun)
    as (_ & added & Hcon & Hack).
  assert (Hreg : deviceRegistered d' = true)
    by (vm_compute in Hrun; inversion Hrun; reflexivity).
  exists d', added. split; [reflexivity|]. split; [exact Hcon|]. split; [exact Hreg|].
  destruct (Hack Hreg) as [Hold|Hin]; [discriminate Hold | exact Hin].
Defined.

Lemma one_radio_command_per_turn_witness :
  exists d' more,
    run [Bench.tick 1000 []; Bench.tick 1100 Bench.ack_frame; Bench.tick 1801100 []]
        Bench.fresh_device
    = Some (tt, d') /\
    sent d' = more /\ length more <= 3.
Proof.
  destruct (run [Bench.tick 1000 []; Bench.tick 1100 Bench.ack_frame;
                 Bench.tick 1801100 []] Bench.fresh_device)
    as [[[] d']|] eqn:Hrun; [|vm_compute in Hrun; discriminate].
  destruct (@one_radio_command_per_turn Bench.primitives
              [Bench.tick 1000 []; Bench.tick 1100 Bench.ack_frame; Bench.tick 1801100 []]
              Bench.fresh_device d' eq_refl Hrun)
    as (_ & more & Hsent & Hlen & _).
  exists d', more. split; [reflexivity|]. split; [exact Hsent | exact Hlen].
Defined.

Lemma configure_sends_three_commands_witness :
  exists l',
    LoRaSetup.configure 868000000 10 125 (Bench.lora []) = Some (tt, l') /\
    HardwareSerial.tx (_serial l')
    = [chars "AT+BAND=868000000"; chars "AT+PARAMETER=10,0,1,12"; chars "AT+CRFOP=20"].
Proof.
  destruct (@configure_sends_three_commands 868000000 10 125 (Bench.lora []))
    as (l' & Hrun & Htx & _).
  - change (2 ^ 32)%Z with 4294967296%Z. lia.
  - lia.
  - lia.
  - exists l'. split; [exact Hrun|]. rewrite Htx. reflexivity.
Defined.

Lemma addressing_commands_witness :
  exists l1 l2,
    LoRaSetup.setNetworkId 7 (Bench.lora []) = Some (tt, l1) /\
    HardwareSerial.tx (_serial l1) = [chars "AT+NETWORKID=7"] /\
    LoRaSetup.setAddress 120 (Bench.lora []) = Some (tt, l2) /\
    HardwareSerial.tx (_serial l2) = [chars "AT+ADDRESS=120"].
Proof.
  destruct (@addressing_commands 7 120 (Bench.lora [])) as [Hn Ha]; [lia | lia |].
  eexists. eexists. split; [exact Hn|]. split; [reflexivity|].
  split; [exact Ha | reflexivity].
Defined.

Lemma generateKey_provisions_slot_witness :
  exists s1 s2,
    generateKey 1 Bench.public_key (Bench.secure_element []) = Some (true, s1) /\
    KeySlots.isKeyProvisioned 1 s1 = Some (true, s2).
Proof.
  destruct (@generateKey_provisions_slot 1 Bench.public_key
              (Bench.secure_element []) bench_ready)
    as (s1 & s2 & Hgen & _ & _ & _ & Hprov & _).
  exists s1, s2. split; assumption.
Defined.

Lemma transient_failure_replaces_key_witness :
  exists s1 s2,
    KeySlots.isKeyProvisioned 0 (Bench.secure_element [false]) = Some (false, s1) /\
    generateKey 0 (repeat 9%Z 64) s1 = Some (true, s2) /\
    slot_key (atecc s2) 0%Z = Some (repeat 9%Z 64) /\
    slot_key (atecc (Bench.secure_element [false])) 0%Z = Some Bench.public_key.
Proof.
  destruct (@transient_failure_replaces_key 0 Bench.public_key
              (repeat 9%Z 64) (Bench.secure_element [false]) []
              eq_refl eq_refl (Forall_nil _) eq_refl)
    as (s1 & s2 & Hprov & _ & Hgen & Hkey).
  exists s1, s2. split; [exact Hprov|]. split; [exact Hgen|]. split; [exact Hkey|].
  reflexivity.
Defined.

Lemma verify_accepts_own_signature_witness :
  exists sg s',
    sign [1; 2; 3]%Z (Bench.secure_element []) = Some (Some sg, s') /\
    exists s'',
      verify Rig.verifies Bench.public_key [1; 2; 3]%Z sg (Bench.secure_element [])
      = Some (true, s'').
Proof.
  eassert (Hsign : sign [1; 2; 3]%Z (Bench.secure_element []) = Some (Some _, _))
    by (vm_compute; reflexivity).
  destruct (@verify_accepts_own_signature Bench.primitives Rig.verifies Bench.public_key
              [1; 2; 3]%Z _ _ _ (Bench.secure_element []) bench_ready eq_refl eq_refl
              (fun digest => same_bytes_refl _) Hsign)
    as (s'' & Hv & _).
  eexists. eexists. split; [exact Hsign|]. exists s''. exact Hv.
Defined.



Lemma attemptRegistration_reports_old_commitment_witness :
  exists d',
    attemptRegistration Bench.awaiting_device = Some (tt, d') /\
    console d' = [AttemptingRegistration; RegistrationRequestSent (repeat 0%Z 8)] /\
    commitmentBytes d' = repeat 0%Z 32 /\
    BraceClient._commitment (braceClient d') <> repeat 0%Z 32 /\
    sent d' = [send_command (0%Z :: BraceClient._commitment (braceClient d'))].
Proof.
  destruct (@attemptRegistration_reports_old_commitment Bench.primitives
              Bench.awaiting_device eq_refl)
    as (d' & Hrun & _ & Hc & _ & _ & _ & Hcases).
  eassert (Hrun' : attemptRegistration Bench.awaiting_device = Some (tt, _))
    by (vm_compute; reflexivity).
  rewrite Hrun in Hrun'. inversion Hrun' as [Hd']. clear Hrun'.
  exists d'. split; [exact Hrun|]. rewrite Hd'.
  split; [reflexivity|]. split; [reflexivity|].
  split; [intros E; vm_compute in E; discriminate E|]. reflexivity.
Defined.

Lemma accessors_after_begin_witness :
  exists h',
    BraceClient.begin Rig.provisioned_heap = Some (tt, h') /\
    BraceClient.isRegistered h' = Some (true, h') /\
    BraceClient.getMerkleProof 7 h' = Some ((true, 0%Z), h') /\
    exists key,
      Bench.public_key = key /\
      BraceClient.getCommitment (repeat 0%Z 32) h'
      = Some ((true, SHA256 (preimage_buffer (firstn 64 key) (repeat 0%Z 32))), h').
Proof.
  assert (Hready : ready (BraceClient.se Rig.provisioned_heap))
    by (split; [reflexivity | constructor]).
  destruct (@accessors_after_begin Bench.primitives Rig.provisioned_heap (repeat 0%Z 32) 7
              Hready eq_refl)
    as (h' & b & Hrun & Hreg & Hiff & Hyes & _).
  assert (Hb : b = true).
  { apply Hiff. split; intros E; discriminate E. }
  subst b. destruct (Hyes eq_refl) as (key & Hkey & Hget & Hproof).
  exists h'. split; [exact Hrun|]. split; [exact Hreg|]. split; [exact Hproof|].
  exists key. split; [|exact Hget].
  vm_compute in Hkey. inversion Hkey. reflexivity.
Defined.

End OnTheRig.
